(** * qbench-downloader: a shallow embedding of [index.js]

    The script authenticates against a remote REST API, walks the report
    listing page by page and downloads each report's PDF, keeping a ledger
    ([download_log.json]) of what it has fetched.

    Conventions of the model.
    - The remote side (token endpoint, report API, artifact host), the clock
      and the timer are an interface [Env]: nothing is assumed about them
      unless a theorem says so.
    - Module-level variables, the in-memory ledger object, the files and
      the ledger file are fields of [St].
    - [async] functions are computations in the monad [M]: state passing,
      thrown errors as [Throw], and [None] when the computation does not
      return: a [while (true)] loop that has used up its iteration budget,
      or a promise that is never settled.
    - The ledger object is a JavaScript object: its own properties are the
      map [downloadLog], and [logProto] is its prototype once an
      assignment to the key "__proto__" has replaced [Object.prototype].
    - Paths are POSIX paths, joined and normalised as [path.join] does;
      the files are keyed by their path.  Directories are not modelled:
      the download directory and every directory a path of the script lies
      in exist and can be written, so a file-system call fails only where
      the model says so (a missing source file, a ledger file that is not
      JSON).
    - [trace] is an observation log, newest event first; it records the
      calls the script makes to the outside and has no influence on
      control flow.  File events carry the file names as the script builds
      them from the report id, before [path.join].
    - Console output is not modelled. *)

From Stdlib Require Import ZArith String Ascii List Bool Lia.
From stdpp Require Import base option gmap strings list.

Local Open Scope string_scope.
Local Open Scope Z_scope.
Local Open Scope list_scope.

(** ** Data *)

(** Bytes of a file or of a response stream. *)
Definition Content := string.

(** [err.response.data] of a failed axios call, as far as the script reads
    it. *)
Record ErrBody := {
  error_description : option string;
  error_type : option string }.

(** A thrown JavaScript error; [response_data] is [err?.response?.data]. *)
Record JsError := {
  message : string;
  response_data : option ErrBody }.

Inductive Result (A : Type) :=
| Ok (a : A)
| Throw (e : JsError).
Arguments Ok {A} a.
Arguments Throw {A} e.

(** How [axios.get(url, { responseType: 'stream' })] piped into the write
    stream ends: the stream is written to its end ([finish]); the request
    is rejected before any data; or the transfer breaks after the response
    has begun, and then neither [finish] nor [error] of the write stream
    ever fires. *)
Inductive Transfer :=
| Finished (c : Content)
| Refused (e : JsError)
| Broken.

(** A report of the listing view.  [id] is the report id in the form the
    script uses it: as a property key of the ledger, in [toString()] and in
    the file name. *)
Record Report := { id : string }.

(** The [data] member of a response body. *)
Inductive DataField :=
| DataArray (reports : list Report)
| DataObject (url : option string)
| DataAbsent.

(** A response body of the report API. *)
Record Body := {
  data : DataField;
  page_number : option Z;
  total_pages : option Z;
  total_count : option Z }.

(** The requests the script sends through [authRequest]. *)
Inductive Request :=
| GetReports (created_after : string) (page_size : Z) (page_num : Z)
| GetReport (reportId : string).

(** An axios config with its [Authorization] header; [None] is the header
    built from an undefined token. *)
Record Config := {
  request : Request;
  authorization : option string }.

(** The signed assertion of [getAccessToken]; times are in seconds. *)
Record Assertion := {
  sub : string;
  iat : Z;
  exp : Z }.

(** An entry of the ledger; [downloaded_at] is the clock reading that
    [toISOString()] renders. *)
Record Entry := {
  filename : string;
  hash : string;
  downloaded_at : Z }.

(** [download_log.json] on disk. *)
Inductive LogFile :=
| LogMissing
| LogMalformed
| LogStored (l : gmap string Entry).

Inductive Event :=
| EvToken (a : Assertion)
| EvRequest (c : Config)
| EvSleep (ms : Z)
| EvDownload (url : string) (dest : string)
| EvRename (src dst : string)
| EvWriteLog (l : gmap string Entry).

(** The result of [fetchReportPage]. *)
Record Page := {
  reports : list Report;
  pageNumber : option Z;
  totalPages : option Z;
  totalCount : option Z }.

(** What [main] reports on the console at its end. *)
Inductive Outcome :=
| Completed (totalDownloaded : Z)
| Failed (e : JsError).

(** ** The environment *)

Class Env := {
  World : Type;
  (** [Date.now()], in milliseconds *)
  now : World -> Z;
  (** [axios.post(BASE_URL/auth/token)], giving [data.access_token] *)
  post_token : Assertion -> World -> Result (option string) * World;
  (** [axios(config)], giving the response body *)
  axios : Config -> World -> Result Body * World;
  (** [axios.get(url, stream)] piped into the write stream *)
  get_stream : string -> World -> Transfer * World;
  (** [setTimeout] awaited for [ms] milliseconds *)
  sleep : Z -> World -> World;
  (** SHA-256 of a file, in hexadecimal *)
  sha256_hex : Content -> string;
  (** [dayjs().subtract(QB_DAYS_BACK, 'day').format('YYYY-MM-DD')] *)
  date_from : Z -> string;
  QB_USERNAME : string;
  DOWNLOAD_DIR : string }.

(** ** Strings of the retry logic *)

(** Strings are byte strings.  Lower-casing acts on the ASCII letters:
    the two patterns the script looks for are ASCII, and no other
    character lower-cases to a sequence that completes one of them. *)
Definition lower_ascii (c : ascii) : ascii :=
  let n := nat_of_ascii c in
  if ((65 <=? n)%nat && (n <=? 90)%nat)%bool then ascii_of_nat (n + 32) else c.

Fixpoint toLowerCase (s : string) : string :=
  match s with
  | EmptyString => EmptyString
  | String c s' => String (lower_ascii c) (toLowerCase s')
  end.

Fixpoint startsWith (p s : string) : bool :=
  match p, s with
  | EmptyString, _ => true
  | String a p', String b s' => if Ascii.eqb a b then startsWith p' s' else false
  | String _ _, EmptyString => false
  end.

Fixpoint includes (p s : string) : bool :=
  if startsWith p s then true
  else match s with
       | EmptyString => false
       | String _ s' => includes p s'
       end.

Fixpoint drop_str (n : nat) (s : string) : string :=
  match n, s with
  | O, _ => s
  | S n', String _ s' => drop_str n' s'
  | S _, EmptyString => EmptyString
  end.

Definition is_digit (c : ascii) : bool :=
  let n := nat_of_ascii c in ((48 <=? n)%nat && (n <=? 57)%nat)%bool.

(** The longest run of digits at the head of [s], and what follows it. *)
Fixpoint span_digits (s : string) : string * string :=
  match s with
  | String c s' =>
      if is_digit c then let (ds, rest) := span_digits s' in (String c ds, rest)
      else (EmptyString, s)
  | EmptyString => (EmptyString, EmptyString)
  end.

(** [/retry in (\d+) seconds?/i] anchored at the head of [s]: the captured
    group.  The optional [s] and whatever follows do not matter, and since
    the text after the digits starts with a space the greedy [\d+] never
    has to give digits back. *)
Definition match_retry_here (s : string) : option string :=
  if startsWith "retry in " (toLowerCase s) then
    let (ds, rest) := span_digits (drop_str 9 s) in
    match ds with
    | EmptyString => None
    | String _ _ => if startsWith " second" (toLowerCase rest) then Some ds else None
    end
  else None.

(** [str.match(/retry in (\d+) seconds?/i)]: group 1 of the leftmost
    match. *)
Fixpoint match_retry (s : string) : option string :=
  match match_retry_here s with
  | Some ds => Some ds
  | None => match s with
            | EmptyString => None
            | String _ s' => match_retry s'
            end
  end.

(** The number a string of decimal digits denotes.  [parseInt(ds, 10)] is
    the double nearest to it: the same number up to 2^53, and beyond that
    a number that [timer_delay] below treats no differently. *)
Fixpoint parseInt_acc (acc : Z) (ds : string) : Z :=
  match ds with
  | EmptyString => acc
  | String c ds' => parseInt_acc (10 * acc + (Z.of_nat (nat_of_ascii c) - 48)) ds'
  end.

Definition parseInt (ds : string) : Z := parseInt_acc 0 ds.

(** [x || ""] for an optional string. *)
Definition or_empty (o : option string) : string :=
  match o with Some s => s | None => "" end.

Definition opt_str_eqb (o : option string) (s : string) : bool :=
  match o with Some x => String.eqb x s | None => false end.

(** [data?.error_description === "Access token has expired."] *)
Definition isExpired (d : option ErrBody) : bool :=
  match d with
  | Some b => opt_str_eqb (error_description b) "Access token has expired."
  | None => false
  end.

(** [data?.error_type === "RateLimitError" ||
     (data?.error_description || "").toLowerCase().includes("ratelimit")] *)
Definition isRateLimit (d : option ErrBody) : bool :=
  match d with
  | Some b =>
      opt_str_eqb (error_type b) "RateLimitError"
      || includes "ratelimit" (toLowerCase (or_empty (error_description b)))
  | None => includes "ratelimit" (toLowerCase "")
  end.

(** The [waitSeconds] of the rate-limit branch. *)
Definition waitSeconds (d : option ErrBody) : Z :=
  match match_retry (or_empty (d ≫= error_description)) with
  | Some ds => parseInt ds
  | None => 10
  end.

(** JavaScript truthiness of an optional string and of an optional number. *)
Definition truthy_str (o : option string) : bool :=
  match o with
  | Some s => negb (String.eqb s "")
  | None => false
  end.

Definition truthy_num (o : option Z) : bool :=
  match o with
  | Some n => negb (Z.eqb n 0)
  | None => false
  end.

(** [a >= b] on numbers that may be undefined. *)
Definition js_ge (a b : option Z) : bool :=
  match a, b with
  | Some x, Some y => Z.leb y x
  | _, _ => false
  end.

(** Local token lifetime, and the lifetime written into the assertion. *)
Definition TOKEN_TTL_MS : Z := 4 * 60 * 1000.
Definition ASSERTION_TTL_S : Z := 5 * 60.

(** The delay a Node timer runs with: [setTimeout] takes a delay that is
    not between 1 and 2^31 - 1 milliseconds for 1. *)
Definition TIMEOUT_MAX : Z := 2147483647.

Definition timer_delay (ms : Z) : Z :=
  if Z.leb 1 ms && Z.leb ms TIMEOUT_MAX then ms else 1.

(** [`report_${reportId}.pdf`] and [`.tmp_${filename}`] *)
Definition report_filename (reportId : string) : string :=
  "report_" +:+ reportId +:+ ".pdf".

Definition temp_filename (reportId : string) : string :=
  ".tmp_" +:+ report_filename reportId.

(** ** Paths *)

(** The segments of a path, split at "/". *)
Fixpoint segments (s : string) : list string :=
  match s with
  | EmptyString => [""]
  | String c s' =>
      if Ascii.eqb c "/" then "" :: segments s'
      else match segments s' with
           | seg :: rest => String c seg :: rest
           | [] => [String c ""]
           end
  end.

Fixpoint join_slash (l : list string) : string :=
  match l with
  | [] => ""
  | [a] => a
  | a :: l' => a +:+ "/" +:+ join_slash l'
  end.

Fixpoint last_char (s : string) : option ascii :=
  match s with
  | EmptyString => None
  | String c s' => match s' with
                   | EmptyString => Some c
                   | String _ _ => last_char s'
                   end
  end.

(** One segment in [normalizeString]; [res] holds the segments kept so
    far, the last one first.  Empty segments and "." are dropped, ".."
    removes the segment before it, or is kept where the path may climb
    above its start. *)
Definition normalize_step (allowAboveRoot : bool) (res : list string) (seg : string)
    : list string :=
  if String.eqb seg "" || String.eqb seg "." then res
  else if String.eqb seg ".." then
    match res with
    | top :: rest =>
        if String.eqb top ".." then (if allowAboveRoot then ".." :: res else res)
        else rest
    | [] => if allowAboveRoot then [".."] else []
    end
  else seg :: res.

(** [path.posix.normalize] *)
Definition normalize (path : string) : string :=
  if String.eqb path "" then "."
  else
    let isAbsolute := startsWith "/" path in
    let trailingSeparator :=
      match last_char path with Some c => Ascii.eqb c "/" | None => false end in
    let kept := rev (fold_left (normalize_step (negb isAbsolute)) (segments path) []) in
    match kept with
    | [] => if isAbsolute then "/" else if trailingSeparator then "./" else "."
    | _ :: _ =>
        (if isAbsolute then "/" else "") +:+ join_slash kept
        +:+ (if trailingSeparator then "/" else "")
    end.

(** [path.join(a, b)]: the arguments that are not empty, joined by "/" and
    normalised. *)
Definition path_join (a b : string) : string :=
  if String.eqb a "" then (if String.eqb b "" then "." else normalize b)
  else if String.eqb b "" then normalize a
  else normalize (a +:+ "/" +:+ b).

(** The text holds no "/". *)
Fixpoint no_slash (s : string) : bool :=
  match s with
  | EmptyString => true
  | String c s' => negb (Ascii.eqb c "/") && no_slash s'
  end.

(** A name of one segment that [normalize] keeps as it is. *)
Definition plain_name (name : string) : Prop :=
  no_slash name = true /\ name <> "" /\ name <> "." /\ name <> "..".

(** What [path.join] puts in front of a name that is one segment. *)
Definition dir_prefix (d : string) : string :=
  if String.eqb d "" then ""
  else
    (if startsWith "/" d then "/" else "")
    +:+ match rev (fold_left (normalize_step (negb (startsWith "/" d))) (segments d) []) with
        | [] => ""
        | k :: K => join_slash (k :: K) +:+ "/"
        end.

(** The body a remote gives for a request when page [n] of the listing is
    [listing n], whatever the date filter, and the detail of [rid] is
    [detail rid]. *)
Definition answer (listing : Z -> Body) (detail : string -> Body) (r : Request) : Body :=
  match r with
  | GetReports _ _ n => listing n
  | GetReport rid => detail rid
  end.

(** ** Program state and the monad of [async] functions *)

Section Program.
Context `{E : Env}.

Record St := {
  (** [let cachedToken], [let tokenExpiresAt] *)
  cachedToken : option string;
  tokenExpiresAt : option Z;
  (** the object [main] binds to [downloadLog] and passes to
      [processReport]: its own properties, which are what [Object.keys]
      and [JSON.stringify] see *)
  downloadLog : gmap string Entry;
  (** the prototype of that object: [None] is [Object.prototype], as for
      every object of [{}] and [JSON.parse]; [Some e] is the entry an
      assignment to the key "__proto__" has put in its place *)
  logProto : option Entry;
  (** the regular files other than the ledger, by their path *)
  files : gmap string Content;
  logFile : LogFile;
  world : World;
  trace : list Event }.

Definition set_cachedToken (t : option string) (s : St) : St :=
  {| cachedToken := t; tokenExpiresAt := tokenExpiresAt s;
     downloadLog := downloadLog s; logProto := logProto s;
     files := files s; logFile := logFile s;
     world := world s; trace := trace s |}.

Definition set_tokenExpiresAt (t : option Z) (s : St) : St :=
  {| cachedToken := cachedToken s; tokenExpiresAt := t;
     downloadLog := downloadLog s; logProto := logProto s;
     files := files s; logFile := logFile s;
     world := world s; trace := trace s |}.

Definition set_downloadLog (l : gmap string Entry) (s : St) : St :=
  {| cachedToken := cachedToken s; tokenExpiresAt := tokenExpiresAt s;
     downloadLog := l; logProto := logProto s;
     files := files s; logFile := logFile s;
     world := world s; trace := trace s |}.

Definition set_logProto (p : option Entry) (s : St) : St :=
  {| cachedToken := cachedToken s; tokenExpiresAt := tokenExpiresAt s;
     downloadLog := downloadLog s; logProto := p;
     files := files s; logFile := logFile s;
     world := world s; trace := trace s |}.

Definition set_files (f : gmap string Content) (s : St) : St :=
  {| cachedToken := cachedToken s; tokenExpiresAt := tokenExpiresAt s;
     downloadLog := downloadLog s; logProto := logProto s;
     files := f; logFile := logFile s;
     world := world s; trace := trace s |}.

Definition set_logFile (l : LogFile) (s : St) : St :=
  {| cachedToken := cachedToken s; tokenExpiresAt := tokenExpiresAt s;
     downloadLog := downloadLog s; logProto := logProto s;
     files := files s; logFile := l;
     world := world s; trace := trace s |}.

Definition set_world (w : World) (s : St) : St :=
  {| cachedToken := cachedToken s; tokenExpiresAt := tokenExpiresAt s;
     downloadLog := downloadLog s; logProto := logProto s;
     files := files s; logFile := logFile s;
     world := w; trace := trace s |}.

Definition emit (e : Event) (s : St) : St :=
  {| cachedToken := cachedToken s; tokenExpiresAt := tokenExpiresAt s;
     downloadLog := downloadLog s; logProto := logProto s;
     files := files s; logFile := logFile s;
     world := world s; trace := e :: trace s |}.

(** A computation: [None] when it does not return, otherwise a value or a
    thrown error, and the state reached. *)
Definition M (A : Type) : Type := St -> option (Result A * St).

Definition ret {A} (a : A) : M A := fun s => Some (Ok a, s).

Definition throw {A} (e : JsError) : M A := fun s => Some (Throw e, s).

(** A promise that is never settled. *)
Definition never {A} : M A := fun _ => None.

Definition bind {A B} (m : M A) (k : A -> M B) : M B :=
  fun s =>
    match m s with
    | Some (Ok a, s') => k a s'
    | Some (Throw e, s') => Some (Throw e, s')
    | None => None
    end.

(** [try { m } catch (err) { h err }] *)
Definition try_catch {A} (m : M A) (h : JsError -> M A) : M A :=
  fun s =>
    match m s with
    | Some (Ok a, s') => Some (Ok a, s')
    | Some (Throw e, s') => h e s'
    | None => None
    end.

Definition get_st : M St := fun s => Some (Ok s, s).

Definition modify (f : St -> St) : M unit := fun s => Some (Ok tt, f s).

(** A call to the outside: the world moves on, the rest of the state stays. *)
Definition call {A} (op : World -> Result A * World) : M A :=
  fun s => let (r, w) := op (world s) in Some (r, set_world w s).

Notation "x <- m ;; k" := (bind m (fun x => k))
  (at level 100, m at next level, right associativity).
Notation "m ;;; k" := (bind m (fun _ => k))
  (at level 100, right associativity).

(** ** Token handling *)

Definition jwt_sign (ms : Z) : Assertion :=
  let issued := ms / 1000 in
  {| sub := QB_USERNAME; iat := issued; exp := issued + ASSERTION_TTL_S |}.

Definition getAccessToken : M (option string) :=
  s <- get_st ;;
  let token := jwt_sign (now (world s)) in
  modify (emit (EvToken token)) ;;;
  call (post_token token).

(** The condition of [getValidToken]:
    [!cachedToken || !tokenExpiresAt || Date.now() >= tokenExpiresAt]. *)
Definition needsRefresh (s : St) : bool :=
  negb (truthy_str (cachedToken s))
  || negb (truthy_num (tokenExpiresAt s))
  || js_ge (Some (now (world s))) (tokenExpiresAt s).

Definition getValidToken : M (option string) :=
  s <- get_st ;;
  (if needsRefresh s then
     t <- getAccessToken ;;
     modify (set_cachedToken t) ;;;
     s1 <- get_st ;;
     modify (set_tokenExpiresAt (Some (now (world s1) + TOKEN_TTL_MS)))
   else ret tt) ;;;
  s2 <- get_st ;;
  ret (cachedToken s2).

(** ** Requests with token refresh and rate-limit handling *)

(** The body of the [try] block of [authRequest]. *)
Definition attempt (req : Request) : M Body :=
  token <- getValidToken ;;
  let config := {| request := req; authorization := token |} in
  modify (emit (EvRequest config)) ;;;
  call (axios config).

(** A timer that runs for [ms] milliseconds, awaited. *)
Definition do_sleep (ms : Z) : M unit :=
  modify (emit (EvSleep ms)) ;;;
  modify (fun s => set_world (sleep ms (world s)) s).

Fixpoint authRequest (fuel : nat) (req : Request) : M Body :=
  match fuel with
  | O => fun _ => None
  | S fuel' =>
      try_catch (attempt req) (fun err =>
        let d := response_data err in
        if isExpired d then
          modify (set_cachedToken None) ;;;
          authRequest fuel' req
        else if isRateLimit d then
          do_sleep (timer_delay (waitSeconds d * 1000)) ;;;
          authRequest fuel' req
        else throw err)
  end.

(** ** Report API *)

Definition not_an_array : JsError :=
  {| message := "Reports data is not an array"; response_data := None |}.

Definition fetchReportPage (fuel : nat) (dateFrom : string) (pageNum : Z) : M Page :=
  d <- authRequest fuel (GetReports dateFrom 50 pageNum) ;;
  match data d with
  | DataArray rs =>
      ret {| reports := rs;
             pageNumber := page_number d;
             totalPages := total_pages d;
             totalCount := if truthy_num (total_count d) then total_count d else None |}
  | _ => throw not_an_array
  end.

Definition getReportDetail (fuel : nat) (reportId : string) : M Body :=
  authRequest fuel (GetReport reportId).

(** [detail?.data?.url] *)
Definition detail_url (d : Body) : option string :=
  match data d with
  | DataObject u => u
  | _ => None
  end.

(** ** File utilities *)

(** [path.join(DOWNLOAD_DIR, filename)] and
    [path.join(DOWNLOAD_DIR, `.tmp_${filename}`)] *)
Definition finalPath (reportId : string) : string :=
  path_join DOWNLOAD_DIR (report_filename reportId).

Definition tempPath (reportId : string) : string :=
  path_join DOWNLOAD_DIR (temp_filename reportId).

(** [downloadFileStream]: the write stream creates (or empties) the
    destination before the transfer.  A refused request leaves it so and
    is thrown; a transfer that breaks later leaves the promise pending. *)
Definition downloadFileStream (url destinationPath : string) : M string :=
  modify (fun s => set_files (<[destinationPath := ""]> (files s)) s) ;;;
  s <- get_st ;;
  match get_stream url (world s) with
  | (Finished c, w) =>
      modify (fun s => set_files (<[destinationPath := c]> (files s)) (set_world w s)) ;;;
      ret destinationPath
  | (Refused e, w) => modify (set_world w) ;;; throw e
  | (Broken, _) => never
  end.

Definition no_such_file (path : string) : JsError :=
  {| message := "ENOENT: " +:+ path; response_data := None |}.

Definition calculateFileHash (filePath : string) : M string :=
  s <- get_st ;;
  match files s !! filePath with
  | Some c => ret (sha256_hex c)
  | None => throw (no_such_file filePath)
  end.

Definition renameSync (src dst : string) : M unit :=
  s <- get_st ;;
  match files s !! src with
  | Some c => modify (fun s => set_files (<[dst := c]> (delete src (files s))) s)
  | None => throw (no_such_file src)
  end.

(** ** Download log *)

Definition malformed_log : JsError :=
  {| message := "SyntaxError: download_log.json"; response_data := None |}.

Definition readDownloadLog : M (gmap string Entry) :=
  s <- get_st ;;
  match logFile s with
  | LogMissing => ret ∅
  | LogMalformed => throw malformed_log
  | LogStored l => ret l
  end.

(** [JSON.stringify] writes the own properties. *)
Definition writeDownloadLog (l : gmap string Entry) : M unit :=
  modify (emit (EvWriteLog l)) ;;;
  modify (set_logFile (LogStored l)).

(** ** The ledger object *)

(** What [downloadLog[key]] evaluates to: an own property; the prototype
    the script has set, reached through "__proto__"; a member of that
    prototype, which is a string; something of [Object.prototype]; or
    [undefined]. *)
Inductive Looked :=
| OwnEntry (e : Entry)
| ProtoEntry (e : Entry)
| ProtoText (text : string)
| ProtoDate (at_ms : Z)
| Builtin
| Undefined.

(** The property names of [Object.prototype] other than "__proto__". *)
Definition object_prototype_names : list string :=
  ["constructor"; "__defineGetter__"; "__defineSetter__"; "hasOwnProperty";
   "__lookupGetter__"; "__lookupSetter__"; "isPrototypeOf";
   "propertyIsEnumerable"; "toString"; "valueOf"; "toLocaleString"].

Definition lookup_log (s : St) (key : string) : Looked :=
  match downloadLog s !! key with
  | Some e => OwnEntry e
  | None =>
      if String.eqb key "__proto__" then
        match logProto s with Some e => ProtoEntry e | None => Builtin end
      else
        match logProto s with
        | Some e =>
            if String.eqb key "filename" then ProtoText (filename e)
            else if String.eqb key "hash" then ProtoText (hash e)
            else if String.eqb key "downloaded_at" then ProtoDate (downloaded_at e)
            else if existsb (String.eqb key) object_prototype_names then Builtin
            else Undefined
        | None =>
            if existsb (String.eqb key) object_prototype_names then Builtin
            else Undefined
        end
  end.

(** [downloadLog[reportId]?.hash]: only an entry has a [hash]. *)
Definition ledger_hash (s : St) (reportId : string) : option string :=
  match lookup_log s reportId with
  | OwnEntry e | ProtoEntry e => Some (hash e)
  | _ => None
  end.

(** [downloadLog[reportId] = entry]: an own property is written, except
    that for the key "__proto__", when it is not an own property, the
    setter of [Object.prototype] makes the entry the prototype. *)
Definition assign (reportId : string) (e : Entry) (s : St) : St :=
  match downloadLog s !! reportId with
  | Some _ => set_downloadLog (<[reportId := e]> (downloadLog s)) s
  | None =>
      if String.eqb reportId "__proto__" then set_logProto (Some e) s
      else set_downloadLog (<[reportId := e]> (downloadLog s)) s
  end.

(** ** Report processing *)

(** [downloadLog[reportId]?.hash === existingHash] *)
Definition hash_matches (s : St) (reportId existingHash : string) : bool :=
  match ledger_hash s reportId with
  | Some h => String.eqb h existingHash
  | None => false
  end.

(** The "skip unchanged" test of [processReport]. *)
Definition unchanged (reportId : string) : M bool :=
  s <- get_st ;;
  match files s !! finalPath reportId with
  | Some _ =>
      existingHash <- calculateFileHash (finalPath reportId) ;;
      s' <- get_st ;;
      ret (hash_matches s' reportId existingHash)
  | None => ret false
  end.

(** The download branch of [processReport], from the state in which the
    "skip unchanged" test has failed. *)
Definition download_and_record (reportId fileUrl : string) : M bool :=
  modify (emit (EvDownload fileUrl (temp_filename reportId))) ;;;
  downloadFileStream fileUrl (tempPath reportId) ;;;
  newHash <- calculateFileHash (tempPath reportId) ;;
  modify (emit (EvRename (temp_filename reportId) (report_filename reportId))) ;;;
  renameSync (tempPath reportId) (finalPath reportId) ;;;
  s <- get_st ;;
  modify (assign reportId {| filename := report_filename reportId;
                             hash := newHash;
                             downloaded_at := now (world s) |}) ;;;
  ret true.

Definition processReport (fuel : nat) (report : Report) : M bool :=
  let reportId := id report in
  detail <- getReportDetail fuel reportId ;;
  if truthy_str (detail_url detail) then
    let fileUrl := or_empty (detail_url detail) in
    skip <- unchanged reportId ;;
    if skip then ret false
    else download_and_record reportId fileUrl
  else ret false.

(** ** Main: the pagination loop *)

(** The [for (const report of page.reports)] loop; [downloadedIds] and
    [totalDownloaded] are the locals of [main] it updates. *)
Fixpoint process_reports (fuel : nat) (rs : list Report)
    (downloadedIds : gset string) (totalDownloaded : Z) : M (gset string * Z) :=
  match rs with
  | [] => ret (downloadedIds, totalDownloaded)
  | report :: rs' =>
      let idStr := id report in
      if decide (idStr ∈ downloadedIds) then
        process_reports fuel rs' downloadedIds totalDownloaded
      else
        downloaded <- processReport fuel report ;;
        if downloaded : bool then
          process_reports fuel rs' ({[idStr]} ∪ downloadedIds) (totalDownloaded + 1)
        else process_reports fuel rs' downloadedIds totalDownloaded
  end.

(** One turn of the [while (true)] loop of [main], up to the test that
    ends it: [inl] is [break], [inr] carries the locals into the next
    turn.  The locals [totalPages] and [totalReports] only feed the
    progress message and are left out with it. *)
Definition page_turn (fuel : nat) (dateFrom : string) (pageNum : Z)
    (downloadedIds : gset string) (totalDownloaded : Z)
    : M (Z + (Z * gset string * Z)) :=
  page <- fetchReportPage fuel dateFrom pageNum ;;
  r <- process_reports fuel (reports page) downloadedIds totalDownloaded ;;
  s <- get_st ;;
  writeDownloadLog (downloadLog s) ;;;
  if js_ge (pageNumber page) (totalPages page) then ret (inl (snd r))
  else ret (inr (pageNum + 1, fst r, snd r)).

(** The loop; [pages] bounds the number of turns and [fuel] the attempts of
    each request. *)
Fixpoint main_loop (pages fuel : nat) (dateFrom : string) (pageNum : Z)
    (downloadedIds : gset string) (totalDownloaded : Z) : M Z :=
  match pages with
  | O => fun _ => None
  | S pages' =>
      t <- page_turn fuel dateFrom pageNum downloadedIds totalDownloaded ;;
      match t with
      | inl total => ret total
      | inr (pageNum', ids', total') =>
          main_loop pages' fuel dateFrom pageNum' ids' total'
      end
  end.

(** [const downloadLog = readDownloadLog()]: a new object with the own
    properties [l] and the prototype [Object.prototype]. *)
Definition loaded (l : gmap string Entry) (s : St) : St :=
  set_logProto None (set_downloadLog l s).

(** The [try] block of [main]. *)
Definition sweep (pages fuel : nat) : M Z :=
  getValidToken ;;;
  l <- readDownloadLog ;;
  modify (loaded l) ;;;
  s <- get_st ;;
  let dateFrom := date_from (now (world s)) in
  main_loop pages fuel dateFrom 1 (dom l) 0.

Definition main (pages fuel : nat) : M Outcome :=
  try_catch (total <- sweep pages fuel ;; ret (Completed total))
            (fun err => ret (Failed err)).

(** The state of a newly started process: nothing cached, an empty trace. *)
Definition boot (fs : gmap string Content) (lf : LogFile) (w : World) : St :=
  {| cachedToken := None; tokenExpiresAt := None; downloadLog := ∅;
     logProto := None;
     files := fs; logFile := lf; world := w; trace := [] |}.

(** ** Derived notions used in the statements *)

(** The decision of [unchanged] as a function of the state: the final file
    exists and its digest is the one the ledger object gives for the id. *)
Definition up_to_date (s : St) (reportId : string) : bool :=
  match files s !! finalPath reportId with
  | Some c => hash_matches s reportId (sha256_hex c)
  | None => false
  end.

(** The state in which a completed download leaves [s]: [c] arrived in
    world [w]. *)
Definition downloaded (reportId fileUrl : string) (c : Content) (w : World)
    (s : St) : St :=
  assign reportId {| filename := report_filename reportId;
                     hash := sha256_hex c;
                     downloaded_at := now w |}
    (set_files
       (<[finalPath reportId := c]>
          (delete (tempPath reportId)
             (<[tempPath reportId := c]>
                (<[tempPath reportId := ""]> (files s)))))
       (emit (EvRename (temp_filename reportId) (report_filename reportId))
          (set_world w
             (emit (EvDownload fileUrl (temp_filename reportId)) s)))).

(** The state in which a refused transfer leaves [s]. *)
Definition download_failed (reportId fileUrl : string) (w : World) (s : St) : St :=
  set_world w
    (set_files (<[tempPath reportId := ""]> (files s))
       (emit (EvDownload fileUrl (temp_filename reportId)) s)).

(** The state after the rate-limit wait of [authRequest]. *)
Definition slept (ms : Z) (s : St) : St :=
  set_world (sleep ms (world s)) (emit (EvSleep ms) s).

(** The state after [writeDownloadLog(downloadLog)]. *)
Definition flushed (s : St) : St :=
  set_logFile (LogStored (downloadLog s)) (emit (EvWriteLog (downloadLog s)) s).

(** The locals of the [while] loop of [main] together with the state, at
    the head of a turn. *)
Definition LoopPoint : Type := (Z * gset string * Z * St)%type.

(** [turns_to fuel dateFrom x y]: starting the loop at [x], the head of a
    turn is reached at [y] after some number of turns that ran to their
    end. *)
Inductive turns_to (fuel : nat) (dateFrom : string) : LoopPoint -> LoopPoint -> Prop :=
| turns_here (x : LoopPoint) : turns_to fuel dateFrom x x
| turns_next (p : Z) (ids : gset string) (n : Z) (s : St)
    (p' : Z) (ids' : gset string) (n' : Z) (s1 : St) (y : LoopPoint) :
    page_turn fuel dateFrom p ids n s = Some (Ok (inr (p', ids', n')), s1) ->
    turns_to fuel dateFrom (p', ids', n', s1) y ->
    turns_to fuel dateFrom (p, ids, n, s) y.

(** The entry the ledger file holds for an id. *)
Definition stored_entry (lf : LogFile) (reportId : string) : option Entry :=
  match lf with
  | LogStored l => l !! reportId
  | _ => None
  end.

(** The ledger object gives an entry for the id, the final file exists,
    and its digest is the one of the entry. *)
Definition recorded_unchanged (s : St) (reportId : string) : Prop :=
  exists h c, ledger_hash s reportId = Some h /\
              files s !! finalPath reportId = Some c /\
              h = sha256_hex c.

(** The ids a run has recorded through the prototype rather than as a
    key. *)
Definition proto_ids (s : St) : gset string :=
  match logProto s with
  | Some _ => {["__proto__"]}
  | None => ∅
  end.

(** [downloadedIds] in step with the ledger object: the keys, and
    "__proto__" when the prototype has been set. *)
Definition tracked (ids : gset string) (s : St) : Prop :=
  ids = dom (downloadLog s) ∪ proto_ids s.

(** The token endpoint always issues a token. *)
Definition token_granted : Prop :=
  forall a w, exists t w', post_token a w = (Ok t, w').

(** A remote that answers every request, and answers it the same way at
    any time. *)
Definition steady (listing : Z -> Body) (detail : string -> Body) : Prop :=
  token_granted /\
  forall c w, exists w', axios c w = (Ok (answer listing detail (request c)), w').

(** A remote that answers every request and whose listing reports, for
    the page [n] it is asked for, the page number [pn n] and always the
    same number [total] of pages. *)
Definition paged (pn : Z -> Z) (total : Z) : Prop :=
  token_granted /\
  (forall c w, exists b w', axios c w = (Ok b, w') /\
     forall df sz n, request c = GetReports df sz n ->
       (exists rs, data b = DataArray rs) /\
       page_number b = Some (pn n) /\ total_pages b = Some total) /\
  (forall u w, exists c w', get_stream u w = (Finished c, w')).

(** Every report the listing ever shows has an id for which [P] holds. *)
Definition lists_only (P : string -> Prop) : Prop :=
  forall c w b w' rs,
    axios c w = (Ok b, w') -> data b = DataArray rs ->
    forall r, r ∈ rs -> P (id r).

(** The reports of [P] do not share files: the final path of one is
    neither the final nor the temporary path of another. *)
Definition separate_paths (P : string -> Prop) : Prop :=
  forall a b, P a -> P b -> a <> b ->
    finalPath a <> finalPath b /\ tempPath a <> finalPath b.

(** Network calls leave the ledger object, the files and the ledger file
    alone. *)
Definition same_disk (s s' : St) : Prop :=
  downloadLog s' = downloadLog s /\ files s' = files s /\ logFile s' = logFile s /\
  logProto s' = logProto s.

End Program.

(** ** Reading the trace *)

Definition is_sleep (e : Event) : bool :=
  match e with EvSleep _ => true | _ => false end.

Definition page_of (e : Event) : option Z :=
  match e with
  | EvRequest c =>
      match request c with
      | GetReports _ _ n => Some n
      | GetReport _ => None
      end
  | _ => None
  end.

Definition writes_file (e : Event) : bool :=
  match e with EvDownload _ _ | EvRename _ _ => true | _ => false end.

(** The events [processReport] can leave for the report [rid]. *)
Definition of_report (rid : string) (e : Event) : Prop :=
  match e with
  | EvToken _ | EvSleep _ => True
  | EvRequest c => request c = GetReport rid
  | EvDownload _ dest => dest = temp_filename rid
  | EvRename src dst => src = temp_filename rid /\ dst = report_filename rid
  | EvWriteLog _ => False
  end.

(** The events that concern the report [rid]: its detail request and the
    writes to its two paths. *)
Definition concerns (rid : string) (e : Event) : Prop :=
  match e with
  | EvRequest c => request c = GetReport rid
  | EvDownload _ dest => dest = temp_filename rid
  | EvRename _ dst => dst = report_filename rid
  | _ => False
  end.

(** The page numbers requested, oldest first. *)
Definition page_requests (tr : list Event) : list Z :=
  omap page_of (rev tr).

(** The events of [t'] that are not yet in [t] all satisfy [P]. *)
Definition grows_by (P : Event -> Prop) (t t' : list Event) : Prop :=
  exists evs, t' = evs ++ t /\ Forall P evs.

(** The events one call of [authRequest] for [req] can leave. *)
Definition of_request (req : Request) (e : Event) : Prop :=
  match e with
  | EvToken _ | EvSleep _ => True
  | EvRequest c => request c = req
  | _ => False
  end.

(** ** Scripted environments, for running the model *)

Record Sim := {
  clock : Z;
  (** what happens to the coming API requests, one entry each: an error
      to fail with, or [None] to answer; past the end all are answered *)
  faults : list (option JsError) }.

Definition sim_axios (listing : Z -> Body) (detail : string -> Body)
    (c : Config) (w : Sim) : Result Body * Sim :=
  match faults w with
  | Some e :: rest => (Throw e, {| clock := clock w; faults := rest |})
  | None :: rest =>
      (Ok (answer listing detail (request c)), {| clock := clock w; faults := rest |})
  | [] => (Ok (answer listing detail (request c)), w)
  end.

(** A remote with scripted failures.  The digest is stood for by the
    content itself, and the download directory is the working directory. *)
Definition sim_env (listing : Z -> Body) (detail : string -> Body)
    (artifact : string -> Transfer) : Env :=
  {| World := Sim;
     now := clock;
     post_token := fun _ w => (Ok (Some "bearer-1"), w);
     axios := sim_axios listing detail;
     get_stream := fun u w => (artifact u, w);
     sleep := fun ms w => {| clock := clock w + ms; faults := faults w |};
     sha256_hex := fun c => c;
     date_from := fun _ => "2024-01-01";
     QB_USERNAME := "lab";
     DOWNLOAD_DIR := "." |}.

(** A remote that never fails; the world is the clock. *)
Definition calm_env (listing : Z -> Body) (detail : string -> Body)
    (artifact : string -> Content) : Env :=
  {| World := Z;
     now := fun w => w;
     post_token := fun _ w => (Ok (Some "bearer-1"), w);
     axios := fun c w => (Ok (answer listing detail (request c)), w);
     get_stream := fun u w => (Finished (artifact u), w);
     sleep := fun ms w => w + ms;
     sha256_hex := fun c => c;
     date_from := fun _ => "2024-01-01";
     QB_USERNAME := "lab";
     DOWNLOAD_DIR := "." |}.

(** ** Scenarios *)

Definition detail_with (u : option string) : Body :=
  {| data := DataObject u; page_number := None; total_pages := None; total_count := None |}.

Definition listing_of (rs : list Report) (n total : Z) : Body :=
  {| data := DataArray rs; page_number := Some n; total_pages := Some total;
     total_count := None |}.

Definition expired_error : JsError :=
  {| message := "Request failed with status code 401";
     response_data := Some {| error_description := Some "Access token has expired.";
                              error_type := None |} |}.

Definition rate_error (description : string) : JsError :=
  {| message := "Request failed with status code 429";
     response_data := Some {| error_description := Some description;
                              error_type := Some "RateLimitError" |} |}.

Definition server_error : JsError :=
  {| message := "Request failed with status code 500";
     response_data := Some {| error_description := Some "Internal error";
                              error_type := Some "ServerError" |} |}.

(** Three pages; report 1001 has no file yet. *)
Definition demo_listing (n : Z) : Body :=
  listing_of (if n =? 1 then [{| id := "1001" |}; {| id := "2002" |}]
              else if n =? 2 then [{| id := "3003" |}]
              else [{| id := "4004" |}]) n 3.

Definition demo_detail (rid : string) : Body :=
  if String.eqb rid "1001" then detail_with None
  else detail_with (Some ("https://files.example/" +:+ rid)).

Definition demo_artifact (u : string) : Content := "%PDF " +:+ u.

Definition demo_env : Env :=
  sim_env demo_listing demo_detail (fun u => Finished (demo_artifact u)).

Definition demo_calm : Env := calm_env demo_listing demo_detail demo_artifact.

Definition demo_world (fs : list (option JsError)) : Sim :=
  {| clock := 1700000000000; faults := fs |}.

Definition demo_boot (fs : list (option JsError)) : @St demo_env :=
  @boot demo_env ∅ LogMissing (demo_world fs).

Definition calm_boot : @St demo_calm := @boot demo_calm ∅ LogMissing 1700000000000.

(** A ledger that records report 2002, whose final file is gone. *)
Definition ledger_2002 : gmap string Entry :=
  {[ "2002" := {| filename := "report_2002.pdf";
                  hash := demo_artifact "https://files.example/2002";
                  downloaded_at := 1690000000000 |} ]}.

Definition boot_2002_deleted : @St demo_calm :=
  @boot demo_calm ∅ (LogStored ledger_2002) 1700000000000.

(** The same ledger, loaded, with the final file in place. *)
Definition kept_2002 : @St demo_calm :=
  set_downloadLog ledger_2002
    (@boot demo_calm {[ "report_2002.pdf" := demo_artifact "https://files.example/2002" ]}
       (LogStored ledger_2002) 1700000000000).


(** ** Notions for the further properties *)

Fixpoint all_digits (s : string) : bool :=
  match s with
  | EmptyString => true
  | String c s' => is_digit c && all_digits s'
  end.

(** [s] contains a text of the language of [/retry in (\d+) seconds?/i]
    whose group is [ds]: the words in any letter case, a non-empty run of
    digits between them. *)
Definition retry_text (s ds : string) : Prop :=
  exists pre kw sec post,
    s = pre +:+ kw +:+ ds +:+ sec +:+ post /\
    toLowerCase kw = "retry in " /\
    ds <> "" /\ all_digits ds = true /\
    toLowerCase sec = " second".

Definition is_download_of (rid : string) (e : Event) : bool :=
  match e with
  | EvDownload _ dest => String.eqb dest (temp_filename rid)
  | _ => false
  end.

(** How many transfers for the report [rid] the trace records. *)
Definition downloads_of (rid : string) (t : list Event) : nat :=
  length (filter (fun e => is_download_of rid e = true) t).

(** The ledger a run reads from the ledger file, when it can read it. *)
Definition ledger_of (lf : LogFile) : gmap string Entry :=
  match lf with
  | LogStored l => l
  | _ => ∅
  end.

(** What a listing request of a run started with [dateFrom] looks like. *)
Definition listing_request_of (dateFrom : string) (e : Event) : Prop :=
  match e with
  | EvRequest c =>
      match request c with
      | GetReports d sz k => d = dateFrom /\ sz = 50 /\ 1 <= k
      | GetReport _ => True
      end
  | _ => True
  end.

(** A remote whose three channels each answer in one fixed way; the world
    is the clock. *)
Definition fixed_env (tok : Result (option string)) (api : Request -> Result Body)
    (art : string -> Transfer) : Env :=
  {| World := Z;
     now := fun w => w;
     post_token := fun _ w => (tok, w);
     axios := fun c w => (api (request c), w);
     get_stream := fun u w => (art u, w);
     sleep := fun ms w => w + ms;
     sha256_hex := fun c => c;
     date_from := fun _ => "2024-01-01";
     QB_USERNAME := "lab";
     DOWNLOAD_DIR := "." |}.

(** The API rejects every token as expired. *)
Definition expired_forever : Env :=
  fixed_env (Ok (Some "bearer-1")) (fun _ => Throw expired_error) (fun _ => Finished "").

(** The token endpoint is rate limited. *)
Definition locked_out : Env :=
  fixed_env (Throw (rate_error "retry in 5 seconds"))
    (fun r => Ok (answer demo_listing demo_detail r)) (fun u => Finished (demo_artifact u)).

(** The listing numbers its pages from 0 and clamps them to the last
    one, so the reported page number stays below [total_pages]. *)
Definition zero_based_listing (n : Z) : Body :=
  listing_of [] (Z.min (n - 1) 2) 3.

Definition zero_based : Env := calm_env zero_based_listing demo_detail demo_artifact.

(** Page 1 lists report 2002 twice. *)
Definition repeating_listing (n : Z) : Body :=
  listing_of [{| id := "2002" |}; {| id := "2002" |}] n 1.

Definition repeating : Env := calm_env repeating_listing demo_detail demo_artifact.

Definition malformed_boot : @St demo_calm := @boot demo_calm ∅ LogMalformed 1700000000000.

(** A download directory that holds a file of the user's. *)
Definition notes_boot : @St demo_calm :=
  @boot demo_calm {[ "notes.txt" := "keep" ]} LogMissing 1700000000000.

(** The ids of the demo listing. *)
Definition demo_id (rid : string) : Prop :=
  rid = "1001" \/ rid = "2002" \/ rid = "3003" \/ rid = "4004".

(** One page, listing a report whose id is "__proto__". *)
Definition proto_listing (n : Z) : Body :=
  listing_of [{| id := "__proto__" |}] n 1.

Definition proto_env : Env := calm_env proto_listing demo_detail demo_artifact.

Definition proto_boot : @St proto_env := @boot proto_env ∅ LogMissing 1700000000000.


(** * Facts *)

(** ** The retry pattern *)

Example match_retry_plain :
  match_retry "Rate limit exceeded, retry in 5 seconds." = Some "5".
Proof. reflexivity. Qed.

Example match_retry_case_and_singular :
  match_retry "RETRY IN 1 SECOND" = Some "1".
Proof. reflexivity. Qed.

Example match_retry_leftmost :
  match_retry "retry in 3 minutes or retry in 90 seconds, retry in 7 seconds" = Some "90".
Proof. reflexivity. Qed.

Example match_retry_absent :
  match_retry "RateLimit exceeded, retry in a few seconds" = None.
Proof. reflexivity. Qed.

Example waitSeconds_parsed :
  waitSeconds (response_data (rate_error "retry in 120 seconds")) = 120.
Proof. reflexivity. Qed.

Example waitSeconds_default :
  waitSeconds (Some {| error_description := None; error_type := Some "RateLimitError" |}) = 10.
Proof. reflexivity. Qed.

Example isRateLimit_by_description :
  isRateLimit (Some {| error_description := Some "RateLimit reached"; error_type := None |})
  = true.
Proof. reflexivity. Qed.

(** ** The timer *)



(** ** Paths *)

Example path_of_a_plain_id :
  path_join "/data/reports" (report_filename "2002") = "/data/reports/report_2002.pdf" /\
  path_join "/data/reports" (temp_filename "2002") = "/data/reports/.tmp_report_2002.pdf".
Proof. split; reflexivity. Qed.

(** An id with path segments: the temporary and the final path are one
    file, and it is the final path of no report name. *)
Example path_of_a_climbing_id :
  path_join "/data/reports" (report_filename "x/../invoice") = "/data/reports/invoice.pdf" /\
  path_join "/data/reports" (temp_filename "x/../invoice") = "/data/reports/invoice.pdf".
Proof. split; reflexivity. Qed.

(** Two ids with one final path. *)
Example path_shared_by_two_ids :
  path_join "/data/reports" (report_filename "x/../report_7")
  = path_join "/data/reports" (report_filename "7").
Proof. reflexivity. Qed.

(** ** Traces *)

Lemma grows_by_refl (P : Event -> Prop) (t : list Event) : grows_by P t t.
Proof. exists []. split; [reflexivity | constructor]. Qed.

Lemma grows_by_trans (P : Event -> Prop) (t1 t2 t3 : list Event) :
  grows_by P t1 t2 -> grows_by P t2 t3 -> grows_by P t1 t3.
Proof.
  intros (e1 & -> & H1) (e2 & -> & H2). exists (e2 ++ e1).
  split; [by rewrite app_assoc | by apply Forall_app].
Qed.

Lemma grows_by_cons (P : Event -> Prop) (t1 t2 : list Event) (e : Event) :
  P e -> grows_by P t1 t2 -> grows_by P t1 (e :: t2).
Proof.
  intros He (evs & -> & H). exists (e :: evs). split; [reflexivity | by constructor].
Qed.

Lemma grows_by_mono (P Q : Event -> Prop) (t1 t2 : list Event) :
  (forall e, P e -> Q e) -> grows_by P t1 t2 -> grows_by Q t1 t2.
Proof.
  intros HPQ (evs & -> & H). exists evs. split; [reflexivity|].
  eapply Forall_impl; eauto.
Qed.

Lemma grows_by_nil (P : Event -> Prop) (t : list Event) :
  grows_by P [] t -> Forall P t.
Proof. intros (evs & -> & H). by rewrite app_nil_r. Qed.

(** ** File names *)

Lemma append_inv_tail (a b c : string) : a +:+ c = b +:+ c -> a = b.
Proof.
  assert (Hlen : forall x y : string,
             String.length (x +:+ y) = (String.length x + String.length y)%nat).
  { induction x as [|ch x IH]; intros y; simpl; [reflexivity | f_equal; apply IH]. }
  revert b. induction a as [|x a IH]; intros [|y b]; intros H.
  - reflexivity.
  - apply (f_equal String.length) in H. rewrite !Hlen in H. simpl in H. lia.
  - apply (f_equal String.length) in H. rewrite !Hlen in H. simpl in H. lia.
  - simpl in H. injection H as -> H. f_equal. by apply IH.
Qed.

(** The names the script builds tell the ids apart; the paths
    [path.join] makes of them need not. *)
Lemma report_filename_inj (a b : string) :
  report_filename a = report_filename b -> a = b.
Proof.
  unfold report_filename. intros H. apply (inj (String.app "report_")) in H.
  by apply append_inv_tail in H.
Qed.

Lemma temp_filename_inj (a b : string) :
  temp_filename a = temp_filename b -> a = b.
Proof.
  unfold temp_filename. intros H. apply (inj (String.app ".tmp_")) in H.
  by apply report_filename_inj.
Qed.

Lemma of_report_other (rid rid' : string) (e : Event) :
  rid' <> rid -> of_report rid' e -> ~ concerns rid e.
Proof.
  intros Hne. destruct e as [a|c|ms|u d|src dst|l]; cbn; try tauto.
  - intros -> [= ->]. done.
  - intros -> H. by apply temp_filename_inj in H.
  - intros [_ ->] H. by apply report_filename_inj in H.
Qed.

(** ** Ids without a path separator *)

Lemma append_empty_r (a : string) : a +:+ "" = a.
Proof.
  induction a as [|c a IH]; [reflexivity|].
  change (String c a +:+ "") with (String c (a +:+ "")). by rewrite IH.
Qed.

Lemma append_assoc (a b c : string) : (a +:+ b) +:+ c = a +:+ b +:+ c.
Proof.
  induction a as [|x a IH]; [reflexivity|].
  change ((String x a +:+ b) +:+ c) with (String x ((a +:+ b) +:+ c)).
  change (String x a +:+ b +:+ c) with (String x (a +:+ b +:+ c)). by rewrite IH.
Qed.

Lemma no_slash_app (a b : string) :
  no_slash (a +:+ b) = no_slash a && no_slash b.
Proof.
  induction a as [|c a IH]; [reflexivity|].
  change (String c a +:+ b) with (String c (a +:+ b)).
  cbn [no_slash]. rewrite IH. by rewrite andb_assoc.
Qed.

Lemma segments_nonempty (s : string) : segments s <> [].
Proof.
  destruct s as [|c s]; cbn; [done|].
  destruct (Ascii.eqb c "/"); [done|]. by destruct (segments s).
Qed.

Lemma segments_no_slash (s : string) : no_slash s = true -> segments s = [s].
Proof.
  induction s as [|c s IH]; cbn; [done|].
  intros [Hc Hs]%andb_true_iff. apply negb_true_iff in Hc. rewrite Hc.
  by rewrite (IH Hs).
Qed.

Lemma segments_app (a b : string) :
  segments (a +:+ "/" +:+ b) = segments a ++ segments b.
Proof.
  induction a as [|c a IH]; [reflexivity|].
  change (String c a +:+ "/" +:+ b) with (String c (a +:+ "/" +:+ b)).
  cbn [segments].
  destruct (Ascii.eqb c "/"); [by rewrite IH|].
  rewrite IH. pose proof (segments_nonempty a) as Hne.
  by destruct (segments a).
Qed.

Lemma last_char_app (a b : string) :
  b <> "" -> last_char (a +:+ b) = last_char b.
Proof.
  intros Hb. induction a as [|c a IH]; [reflexivity|].
  change (String c a +:+ b) with (String c (a +:+ b)). cbn [last_char].
  destruct (a +:+ b) as [|x y] eqn:Hab.
  - destruct a; [cbn in Hab; done|discriminate Hab].
  - exact IH.
Qed.

Lemma join_slash_snoc (k : string) (K : list string) (name : string) :
  join_slash ((k :: K) ++ [name]) = join_slash (k :: K) +:+ "/" +:+ name.
Proof.
  revert k. induction K as [|x K IH]; intros k; [reflexivity|].
  change (join_slash ((k :: x :: K) ++ [name]))
    with (k +:+ "/" +:+ join_slash ((x :: K) ++ [name])).
  rewrite IH.
  change (join_slash (k :: x :: K)) with (k +:+ "/" +:+ join_slash (x :: K)).
  by rewrite !append_assoc.
Qed.

Lemma normalize_step_plain (allow : bool) (res : list string) (name : string) :
  plain_name name -> normalize_step allow res name = name :: res.
Proof.
  intros (_ & H0 & H1 & H2). unfold normalize_step.
  apply String.eqb_neq in H0, H1, H2. by rewrite H0, H1, H2.
Qed.

Lemma last_char_no_slash (name : string) :
  no_slash name = true ->
  match last_char name with Some c => Ascii.eqb c "/" | None => false end = false.
Proof.
  induction name as [|c s IH]; [done|]. cbn.
  intros [Hc Hs]%andb_true_iff. destruct s as [|x y].
  - apply negb_true_iff in Hc. done.
  - by apply IH.
Qed.

Lemma path_join_plain (d name : string) :
  plain_name name -> path_join d name = dir_prefix d +:+ name.
Proof.
  intros Hplain. pose proof Hplain as (Hns & Hne & _).
  assert (Hname : String.eqb name "" = false) by by apply String.eqb_neq.
  unfold path_join, dir_prefix. rewrite Hname.
  destruct (String.eqb d "") eqn:Hd.
  - (* one argument *)
    unfold normalize. rewrite Hname, (segments_no_slash _ Hns). cbn [fold_left].
    rewrite (normalize_step_plain _ _ _ Hplain). cbn [rev app].
    rewrite (last_char_no_slash _ Hns).
    assert (Hs : startsWith "/" name = false).
    { destruct name as [|c s]; [done|]. cbn [no_slash] in Hns. cbn [startsWith].
      apply andb_true_iff in Hns as [Hc _]. apply negb_true_iff in Hc.
      rewrite Ascii.eqb_sym, Hc. done. }
    rewrite Hs. cbn. by rewrite append_empty_r.
  - apply String.eqb_neq in Hd. destruct d as [|c d]; [done|].
    unfold normalize.
    assert (Hnonempty : String.eqb (String c d +:+ "/" +:+ name) "" = false) by done.
    rewrite Hnonempty.
    assert (Hstart : startsWith "/" (String c d +:+ "/" +:+ name)
                     = startsWith "/" (String c d)) by reflexivity.
    rewrite Hstart.
    assert (Hlast : last_char (String c d +:+ "/" +:+ name) = last_char name).
    { rewrite <- append_assoc. by apply last_char_app. }
    rewrite Hlast, (last_char_no_slash _ Hns).
    rewrite segments_app, (segments_no_slash _ Hns), fold_left_app. cbn [fold_left].
    rewrite (normalize_step_plain _ _ _ Hplain). cbn [rev].
    destruct (rev _) as [|k K].
    + cbn [app join_slash]. by rewrite !append_empty_r.
    + rewrite join_slash_snoc. rewrite append_empty_r. by rewrite !append_assoc.
Qed.

Lemma report_filename_plain (rid : string) :
  no_slash rid = true -> plain_name (report_filename rid).
Proof.
  intros H. unfold plain_name, report_filename. rewrite !no_slash_app, H.
  repeat split; done.
Qed.

Lemma temp_filename_plain (rid : string) :
  no_slash rid = true -> plain_name (temp_filename rid).
Proof.
  intros H. unfold plain_name, temp_filename, report_filename. rewrite !no_slash_app, H.
  repeat split; done.
Qed.

Section Facts.
Context `{E : Env}.

Ltac run := unfold bind, ret, throw, never, modify, get_st, call, try_catch; cbn.

(** For ids without a path separator the paths are the names below one
    directory: a report's temporary file is not its final file, and two
    reports share no file. *)
Lemma plain_paths (rid : string) :
  no_slash rid = true ->
  finalPath rid = dir_prefix DOWNLOAD_DIR +:+ report_filename rid /\
  tempPath rid = dir_prefix DOWNLOAD_DIR +:+ temp_filename rid.
Proof.
  intros H. unfold finalPath, tempPath.
  by rewrite (path_join_plain _ _ (report_filename_plain _ H)),
             (path_join_plain _ _ (temp_filename_plain _ H)).
Qed.

Lemma plain_paths_differ (rid : string) :
  no_slash rid = true -> tempPath rid <> finalPath rid.
Proof.
  intros H. destruct (plain_paths rid H) as [-> ->]. intros Heq.
  apply (inj (String.app _)) in Heq.
  apply (f_equal (String.get 0)) in Heq. vm_compute in Heq. discriminate.
Qed.

Lemma plain_separate : separate_paths (fun rid => no_slash rid = true).
Proof.
  intros a b Ha Hb Hne.
  destruct (plain_paths a Ha) as [-> ->]. destruct (plain_paths b Hb) as [-> _].
  split; intros Heq; apply (inj (String.app _)) in Heq.
  - by apply report_filename_inj in Heq.
  - apply (f_equal (String.get 0)) in Heq. vm_compute in Heq. discriminate.
Qed.

Lemma same_disk_refl (s : St) : same_disk s s.
Proof. by repeat split. Qed.

Lemma same_disk_trans (s1 s2 s3 : St) :
  same_disk s1 s2 -> same_disk s2 s3 -> same_disk s1 s3.
Proof. unfold same_disk. intros (-> & -> & -> & ->) (-> & -> & -> & ->). done. Qed.

(** ** The ledger object *)

Lemma ledger_hash_own (s : St) (rid : string) (e : Entry) :
  downloadLog s !! rid = Some e -> ledger_hash s rid = Some (hash e).
Proof. intros H. unfold ledger_hash, lookup_log. by rewrite H. Qed.

Lemma ledger_hash_missing (s : St) (rid : string) :
  downloadLog s !! rid = None ->
  ledger_hash s rid = if String.eqb rid "__proto__" then hash <$> logProto s else None.
Proof.
  intros H. unfold ledger_hash, lookup_log. rewrite H.
  destruct (String.eqb rid "__proto__"); [by destruct (logProto s)|].
  destruct (logProto s) as [e|].
  - destruct (String.eqb rid "filename"); [done|].
    destruct (String.eqb rid "hash"); [done|].
    destruct (String.eqb rid "downloaded_at"); [done|].
    by destruct (existsb _ _).
  - by destruct (existsb _ _).
Qed.

Lemma ledger_hash_plain (s : St) (rid : string) :
  rid <> "__proto__" -> ledger_hash s rid = hash <$> downloadLog s !! rid.
Proof.
  intros Hne. destruct (downloadLog s !! rid) as [e|] eqn:He.
  - by rewrite (ledger_hash_own _ _ _ He).
  - rewrite (ledger_hash_missing _ _ He).
    by apply String.eqb_neq in Hne as ->.
Qed.

Lemma ledger_hash_same (s s' : St) (rid : string) :
  downloadLog s' = downloadLog s -> logProto s' = logProto s ->
  ledger_hash s' rid = ledger_hash s rid.
Proof. intros Hl Hp. unfold ledger_hash, lookup_log. by rewrite Hl, Hp. Qed.

Lemma lookup_log_same (s s' : St) (key : string) :
  downloadLog s' = downloadLog s -> logProto s' = logProto s ->
  lookup_log s' key = lookup_log s key.
Proof. intros Hl Hp. unfold lookup_log. by rewrite Hl, Hp. Qed.

(** What an assignment leaves alone. *)
Lemma assign_frame (rid : string) (e : Entry) (s : St) :
  files (assign rid e s) = files s /\
  logFile (assign rid e s) = logFile s /\
  world (assign rid e s) = world s /\
  trace (assign rid e s) = trace s /\
  cachedToken (assign rid e s) = cachedToken s /\
  tokenExpiresAt (assign rid e s) = tokenExpiresAt s.
Proof.
  unfold assign. destruct (downloadLog s !! rid); [done|].
  by destruct (String.eqb rid "__proto__").
Qed.

Lemma assign_other (rid k : string) (e : Entry) (s : St) :
  k <> rid ->
  downloadLog (assign rid e s) !! k = downloadLog s !! k /\
  ledger_hash (assign rid e s) k = ledger_hash s k.
Proof.
  intros Hne. unfold assign.
  assert (Hins : downloadLog (set_downloadLog (<[rid := e]> (downloadLog s)) s) !! k
                 = downloadLog s !! k /\
                 ledger_hash (set_downloadLog (<[rid := e]> (downloadLog s)) s) k
                 = ledger_hash s k).
  { assert (H : downloadLog (set_downloadLog (<[rid := e]> (downloadLog s)) s) !! k
                = downloadLog s !! k) by (cbn; by apply lookup_insert_ne).
    split; [exact H|]. unfold ledger_hash, lookup_log. by rewrite H. }
  destruct (downloadLog s !! rid) as [x|] eqn:Hx; [exact Hins|].
  destruct (String.eqb rid "__proto__") eqn:Hp; [|exact Hins].
  apply String.eqb_eq in Hp as ->. split; [reflexivity|].
  destruct (downloadLog s !! k) as [y|] eqn:Hy.
  - rewrite (ledger_hash_own s k y Hy). by apply ledger_hash_own.
  - rewrite (ledger_hash_missing s k Hy).
    rewrite ledger_hash_missing by exact Hy.
    by apply String.eqb_neq in Hne as ->.
Qed.

Lemma assign_self (rid : string) (e : Entry) (s : St) :
  ledger_hash (assign rid e s) rid = Some (hash e).
Proof.
  unfold assign.
  assert (Hins : ledger_hash (set_downloadLog (<[rid := e]> (downloadLog s)) s) rid
                 = Some (hash e)).
  { apply ledger_hash_own. cbn. apply lookup_insert_eq. }
  destruct (downloadLog s !! rid) as [x|] eqn:Hx; [exact Hins|].
  destruct (String.eqb rid "__proto__") eqn:Hp; [|exact Hins].
  rewrite ledger_hash_missing by exact Hx. by rewrite Hp.
Qed.


(** The own properties never shrink. *)
Lemma assign_grows (rid : string) (e : Entry) (s : St) :
  downloadLog s !! rid = None ->
  downloadLog s ⊆ downloadLog (assign rid e s).
Proof.
  intros Hx. unfold assign. rewrite Hx.
  destruct (String.eqb rid "__proto__"); [done|]. cbn. by apply insert_subseteq.
Qed.

Lemma tracked_absent (ids : gset string) (s : St) (rid : string) :
  tracked ids s -> rid ∉ ids ->
  downloadLog s !! rid = None /\ ledger_hash s rid = None /\
  (rid = "__proto__" -> logProto s = None).
Proof.
  unfold tracked, proto_ids. intros -> Hnot.
  assert (Hown : downloadLog s !! rid = None).
  { apply not_elem_of_dom. intros H. apply Hnot. by apply elem_of_union_l. }
  assert (Hp : rid = "__proto__" -> logProto s = None).
  { intros ->. destruct (logProto s); [|done].
    exfalso. apply Hnot. apply elem_of_union_r. by apply elem_of_singleton. }
  split; [exact Hown|]. split; [|exact Hp].
  rewrite ledger_hash_missing by exact Hown.
  destruct (String.eqb rid "__proto__") eqn:Heq; [|done].
  apply String.eqb_eq in Heq. by rewrite (Hp Heq).
Qed.

Lemma tracked_same (ids : gset string) (s s' : St) :
  downloadLog s' = downloadLog s -> logProto s' = logProto s ->
  tracked ids s -> tracked ids s'.
Proof. unfold tracked, proto_ids. by intros -> ->. Qed.

Lemma assign_tracked (ids : gset string) (rid : string) (e : Entry) (s : St) :
  tracked ids s -> rid ∉ ids -> tracked ({[rid]} ∪ ids) (assign rid e s).
Proof.
  intros Ht Hnot. destruct (tracked_absent _ _ _ Ht Hnot) as (Hown & _ & Hp).
  unfold tracked, proto_ids in *. unfold assign. rewrite Hown.
  destruct (String.eqb rid "__proto__") eqn:Heq.
  - apply String.eqb_eq in Heq. rewrite (Hp Heq) in Ht. subst rid ids. cbn.
    rewrite union_empty_r_L. apply union_comm_L.
  - cbn. rewrite dom_insert_L, Ht. apply (assoc_L (∪)).
Qed.

(** The count of what a run has recorded goes up by one. *)
Lemma assign_size (ids : gset string) (rid : string) (e : Entry) (s : St) :
  tracked ids s -> rid ∉ ids ->
  (size (downloadLog (assign rid e s)) + size (proto_ids (assign rid e s))
   = S (size (downloadLog s) + size (proto_ids s)))%nat.
Proof.
  intros Ht Hnot. destruct (tracked_absent _ _ _ Ht Hnot) as (Hown & _ & Hp).
  unfold proto_ids, assign. rewrite Hown.
  destruct (String.eqb rid "__proto__") eqn:Heq.
  - apply String.eqb_eq in Heq. rewrite (Hp Heq). cbn.
    rewrite size_singleton, size_empty. lia.
  - cbn. rewrite map_size_insert_None by exact Hown. lia.
Qed.

(** ** Token handling *)

Lemma getValidToken_run (s : St) :
  getValidToken s =
    if needsRefresh s then
      let a := jwt_sign (now (world s)) in
      match post_token a (world s) with
      | (Ok t, w) =>
          Some (Ok t, set_tokenExpiresAt (Some (now w + TOKEN_TTL_MS))
                        (set_cachedToken t (set_world w (emit (EvToken a) s))))
      | (Throw e, w) => Some (Throw e, set_world w (emit (EvToken a) s))
      end
    else Some (Ok (cachedToken s), s).
Proof.
  unfold getValidToken, getAccessToken. run.
  destruct (needsRefresh s); cbn; [|reflexivity].
  destruct (post_token _ _) as [[t|e] w]; reflexivity.
Qed.

Lemma getValidToken_total (s : St) :
  exists r s', getValidToken s = Some (r, s').
Proof.
  rewrite getValidToken_run. destruct (needsRefresh s); cbn; [|eauto].
  destruct (post_token _ _) as [[t|e] w]; eauto.
Qed.

Lemma getValidToken_effect (s s' : St) (r : Result (option string)) :
  getValidToken s = Some (r, s') ->
  same_disk s s' /\
  grows_by (fun e => exists a, e = EvToken a) (trace s) (trace s').
Proof.
  rewrite getValidToken_run. destruct (needsRefresh s); cbn.
  - destruct (post_token _ _) as [[t|e] w]; intros [= <- <-]; cbn;
      (split; [by repeat split|]);
      (apply grows_by_cons; [eauto | apply grows_by_refl]).
  - intros [= <- <-]. split; [apply same_disk_refl | apply grows_by_refl].
Qed.

(** ** One attempt of a request *)

Lemma attempt_run (req : Request) (s : St) :
  attempt req s =
    match getValidToken s with
    | Some (Ok t, s1) =>
        let c := {| request := req; authorization := t |} in
        let (r, w) := axios c (world s1) in
        Some (r, set_world w (emit (EvRequest c) s1))
    | Some (Throw e, s1) => Some (Throw e, s1)
    | None => None
    end.
Proof.
  unfold attempt. run. destruct (getValidToken s) as [[[t|e] s1]|]; reflexivity.
Qed.

Lemma attempt_total (req : Request) (s : St) :
  exists r s', attempt req s = Some (r, s').
Proof.
  rewrite attempt_run. destruct (getValidToken_total s) as (r & s1 & ->).
  destruct r as [t|e]; cbn; [|eauto].
  destruct (axios _ _) as [r w]; eauto.
Qed.

Lemma attempt_effect (req : Request) (s s' : St) (r : Result Body) :
  attempt req s = Some (r, s') ->
  same_disk s s' /\
  grows_by (fun e => of_request req e /\ is_sleep e = false) (trace s) (trace s').
Proof.
  rewrite attempt_run. destruct (getValidToken s) as [[[t|e] s1]|] eqn:Hg; [| |done].
  - apply getValidToken_effect in Hg as [Hd Hg]. cbn.
    destruct (axios _ _) as [r0 w]. intros [= <- <-]. cbn. split; [exact Hd|].
    apply grows_by_cons; [by split|].
    eapply grows_by_mono; [|exact Hg]. by intros e [a ->].
  - apply getValidToken_effect in Hg as [Hd Hg]. intros [= <- <-]. split; [exact Hd|].
    eapply grows_by_mono; [|exact Hg]. by intros e0 [a ->].
Qed.

(** A body that an attempt returns is one the API gave. *)
Lemma attempt_origin (req : Request) (s s' : St) (b : Body) :
  attempt req s = Some (Ok b, s') ->
  exists c w w', axios c w = (Ok b, w').
Proof.
  rewrite attempt_run. destruct (getValidToken s) as [[[t|e] s1]|]; [| |done].
  - cbn. destruct (axios _ _) as [r0 w] eqn:Hax. intros [= -> <-]. eauto.
  - done.
Qed.

(** ** The retry loop *)

Lemma authRequest_step (fuel : nat) (req : Request) (s : St) :
  authRequest (S fuel) req s =
    match attempt req s with
    | Some (Ok b, s1) => Some (Ok b, s1)
    | Some (Throw err, s1) =>
        if isExpired (response_data err) then
          authRequest fuel req (set_cachedToken None s1)
        else if isRateLimit (response_data err) then
          authRequest fuel req
            (slept (timer_delay (waitSeconds (response_data err) * 1000)) s1)
        else Some (Throw err, s1)
    | None => None
    end.
Proof.
  cbn [authRequest]. unfold try_catch.
  destruct (attempt req s) as [[[b|err] s1]|]; try reflexivity.
  destruct (isExpired _); [reflexivity|].
  destruct (isRateLimit _); reflexivity.
Qed.

Lemma authRequest_effect (fuel : nat) (req : Request) (s s' : St) (r : Result Body) :
  authRequest fuel req s = Some (r, s') ->
  same_disk s s' /\ grows_by (of_request req) (trace s) (trace s').
Proof.
  revert s. induction fuel as [|fuel IH]; intros s; [done|].
  rewrite authRequest_step.
  destruct (attempt req s) as [[[b|err] s1]|] eqn:Ha; [| |done].
  - apply attempt_effect in Ha as [Hd Hg]. intros [= <- <-]. split; [done|].
    eapply grows_by_mono; [|exact Hg]. by intros e [? _].
  - apply attempt_effect in Ha as [Hd Hg].
    assert (Hg' : grows_by (of_request req) (trace s) (trace s1)).
    { eapply grows_by_mono; [|exact Hg]. by intros e [? _]. }
    destruct (isExpired _).
    { intros H. apply IH in H as [Hd2 Hg2]. split.
      - eapply same_disk_trans; [exact Hd|exact Hd2].
      - eapply grows_by_trans; [exact Hg'|exact Hg2]. }
    destruct (isRateLimit _).
    { intros H. apply IH in H as [Hd2 Hg2]. split.
      - eapply same_disk_trans; [exact Hd|exact Hd2].
      - eapply grows_by_trans; [|exact Hg2]. cbn.
        apply grows_by_cons; [done|exact Hg']. }
    intros [= <- <-]. done.
Qed.

Lemma authRequest_origin (fuel : nat) (req : Request) (s s' : St) (b : Body) :
  authRequest fuel req s = Some (Ok b, s') ->
  exists c w w', axios c w = (Ok b, w').
Proof.
  revert s. induction fuel as [|fuel IH]; intros s; [done|].
  rewrite authRequest_step.
  destruct (attempt req s) as [[[b0|err] s1]|] eqn:Ha; [| |done].
  - intros [= -> <-]. by eapply attempt_origin.
  - destruct (isExpired _); [apply IH|].
    destruct (isRateLimit _); [apply IH|done].
Qed.

(** A request that succeeds at once needs a budget of one. *)
Lemma authRequest_first_try (fuel : nat) (req : Request) (s s1 : St) (b : Body) :
  attempt req s = Some (Ok b, s1) ->
  authRequest (S fuel) req s = Some (Ok b, s1).
Proof. intros H. by rewrite authRequest_step, H. Qed.

(** ** Processing one report *)

Lemma unchanged_run (rid : string) (s : St) :
  unchanged rid s = Some (Ok (up_to_date s rid), s).
Proof.
  unfold unchanged, up_to_date, calculateFileHash. run.
  destruct (files s !! finalPath rid) as [c|] eqn:Hf; cbn; [|reflexivity].
  by rewrite Hf.
Qed.

Lemma download_and_record_run (rid fileUrl : string) (s : St) :
  download_and_record rid fileUrl s =
    match get_stream fileUrl (world s) with
    | (Finished c, w) => Some (Ok true, downloaded rid fileUrl c w s)
    | (Refused e, w) => Some (Throw e, download_failed rid fileUrl w s)
    | (Broken, _) => None
    end.
Proof.
  unfold download_and_record, downloadFileStream, calculateFileHash, renameSync.
  run. destruct (get_stream fileUrl (world s)) as [[c|e|] w]; cbn; [|reflexivity..].
  rewrite !lookup_insert_eq. cbn. rewrite !lookup_insert_eq. cbn. reflexivity.
Qed.

(** The files and the ledger object after a completed download. *)
Lemma downloaded_state (rid fileUrl : string) (c : Content) (w : World) (s : St) :
  files (downloaded rid fileUrl c w s) !! finalPath rid = Some c /\
  (forall p, p <> tempPath rid -> p <> finalPath rid ->
     files (downloaded rid fileUrl c w s) !! p = files s !! p) /\
  (tempPath rid <> finalPath rid ->
     files (downloaded rid fileUrl c w s) !! tempPath rid = None) /\
  ledger_hash (downloaded rid fileUrl c w s) rid = Some (sha256_hex c) /\
  logFile (downloaded rid fileUrl c w s) = logFile s /\
  world (downloaded rid fileUrl c w s) = w /\
  trace (downloaded rid fileUrl c w s)
  = EvRename (temp_filename rid) (report_filename rid)
    :: EvDownload fileUrl (temp_filename rid) :: trace s.
Proof.
  unfold downloaded.
  match goal with |- context [assign rid ?e ?s0] =>
    destruct (assign_frame rid e s0) as (Hf & Hlf & Hw & Ht & _);
    pose proof (assign_self rid e s0) as Hself
  end.
  rewrite Hf, Hlf, Hw, Ht, Hself. cbn.
  split; [apply lookup_insert_eq|]. split; [|split; [|done]].
  - intros p Hp1 Hp2. rewrite lookup_insert_ne by done.
    rewrite lookup_delete_ne by done. by rewrite !lookup_insert_ne by done.
  - intros Hne. rewrite lookup_insert_ne by done. apply lookup_delete_eq.
Qed.

Lemma processReport_run (fuel : nat) (r : Report) (s : St) :
  processReport fuel r s =
    match getReportDetail fuel (id r) s with
    | Some (Ok d, s1) =>
        if truthy_str (detail_url d) then
          if up_to_date s1 (id r) then Some (Ok false, s1)
          else download_and_record (id r) (or_empty (detail_url d)) s1
        else Some (Ok false, s1)
    | Some (Throw e, s1) => Some (Throw e, s1)
    | None => None
    end.
Proof.
  unfold processReport. unfold bind at 1.
  destruct (getReportDetail fuel (id r) s) as [[[d|e] s1]|]; try reflexivity.
  destruct (truthy_str (detail_url d)); [|reflexivity].
  unfold bind at 1. rewrite unchanged_run.
  destruct (up_to_date s1 (id r)); reflexivity.
Qed.

Lemma getReportDetail_effect (fuel : nat) (rid : string) (s s' : St)
    (r : Result Body) :
  getReportDetail fuel rid s = Some (r, s') ->
  same_disk s s' /\ grows_by (of_report rid) (trace s) (trace s').
Proof.
  intros H. apply authRequest_effect in H as [Hd Hg]. split; [exact Hd|].
  eapply grows_by_mono; [|exact Hg]. by intros [a|c|ms|u d|src dst|l].
Qed.

(** What a call of [processReport] can change. *)
Lemma processReport_effect (fuel : nat) (r : Report) (s s' : St)
    (res : Result bool) :
  processReport fuel r s = Some (res, s') ->
  logFile s' = logFile s /\
  grows_by (of_report (id r)) (trace s) (trace s') /\
  (forall p, p <> tempPath (id r) -> p <> finalPath (id r) ->
             files s' !! p = files s !! p) /\
  (forall k, k <> id r ->
     downloadLog s' !! k = downloadLog s !! k /\ ledger_hash s' k = ledger_hash s k) /\
  (res <> Ok true -> downloadLog s' = downloadLog s /\ logProto s' = logProto s) /\
  (res = Ok false -> files s' = files s) /\
  (res = Ok true ->
   exists c s0,
     files s' !! finalPath (id r) = Some c /\
     ledger_hash s' (id r) = Some (sha256_hex c) /\
     downloadLog s0 = downloadLog s /\ logProto s0 = logProto s /\
     downloadLog s' =
       downloadLog (assign (id r) {| filename := report_filename (id r);
                                     hash := sha256_hex c;
                                     downloaded_at := now (world s') |} s0) /\
     logProto s' =
       logProto (assign (id r) {| filename := report_filename (id r);
                                  hash := sha256_hex c;
                                  downloaded_at := now (world s') |} s0)).
Proof.
  rewrite processReport_run.
  destruct (getReportDetail fuel (id r) s) as [[[d|e] s1]|] eqn:Hd; [| |done].
  2:{ apply getReportDetail_effect in Hd as [(Hl & Hf & Hlf & Hp) Hg].
      intros [= <- <-]. repeat split; try done.
      - intros. by rewrite Hf.
      - by rewrite Hl.
      - by apply ledger_hash_same. }
  apply getReportDetail_effect in Hd as [Hdisk Hg].
  pose proof Hdisk as (Hl & Hf & Hlf & Hp).
  assert (Hskip : Some (Ok false, s1) = Some (res, s') ->
    logFile s' = logFile s /\
    grows_by (of_report (id r)) (trace s) (trace s') /\
    (forall p, p <> tempPath (id r) -> p <> finalPath (id r) ->
               files s' !! p = files s !! p) /\
    (forall k, k <> id r ->
       downloadLog s' !! k = downloadLog s !! k /\ ledger_hash s' k = ledger_hash s k) /\
    (res <> Ok true -> downloadLog s' = downloadLog s /\ logProto s' = logProto s) /\
    (res = Ok false -> files s' = files s) /\
    (res = Ok true ->
     exists c s0,
       files s' !! finalPath (id r) = Some c /\
       ledger_hash s' (id r) = Some (sha256_hex c) /\
       downloadLog s0 = downloadLog s /\ logProto s0 = logProto s /\
       downloadLog s' =
         downloadLog (assign (id r) {| filename := report_filename (id r);
                                       hash := sha256_hex c;
                                       downloaded_at := now (world s') |} s0) /\
       logProto s' =
         logProto (assign (id r) {| filename := report_filename (id r);
                                    hash := sha256_hex c;
                                    downloaded_at := now (world s') |} s0))).
  { intros [= <- <-]. repeat split; try done.
    - intros. by rewrite Hf.
    - by rewrite Hl.
    - by apply ledger_hash_same. }
  destruct (truthy_str (detail_url d)); [|exact Hskip].
  destruct (up_to_date s1 (id r)); [exact Hskip|]. clear Hskip.
  rewrite download_and_record_run.
  destruct (get_stream _ _) as [[c|e|] w]; [| |done]; intros [= <- <-].
  - destruct (downloaded_state (id r) (or_empty (detail_url d)) c w s1)
      as (Hfin & Hother & _ & Hself & Hlf' & Hw' & Htr').
    split; [congruence|]. split.
    { rewrite Htr'. do 2 (apply grows_by_cons; [done|]). exact Hg. }
    split.
    { intros p Hp1 Hp2. rewrite Hother by done. by rewrite Hf. }
    split.
    { intros k Hk. unfold downloaded.
      match goal with |- context [assign (id r) ?e ?s0] =>
        destruct (assign_other (id r) k e s0 Hk) as [Ha Hb]
      end.
      rewrite Ha, Hb. cbn. rewrite Hl. split; [done|]. by apply ledger_hash_same. }
    split; [done|]. split; [done|].
    intros _. exists c. unfold downloaded in *.
    match goal with |- context [assign (id r) ?e ?s0] => exists s0 end.
    split; [exact Hfin|]. split; [exact Hself|].
    split; [exact Hl|]. split; [exact Hp|].
    rewrite Hw'. split; reflexivity.
  - cbn. split; [done|]. split.
    { apply grows_by_cons; [done|]. exact Hg. }
    split.
    { intros p Hp1 Hp2. rewrite lookup_insert_ne by done. by rewrite Hf. }
    split.
    { intros k Hk. rewrite Hl. split; [done|]. by apply ledger_hash_same. }
    done.
Qed.

Lemma fetchReportPage_effect (fuel : nat) (dateFrom : string) (n : Z)
    (s s' : St) (r : Result Page) :
  fetchReportPage fuel dateFrom n s = Some (r, s') ->
  same_disk s s' /\
  grows_by (of_request (GetReports dateFrom 50 n)) (trace s) (trace s').
Proof.
  unfold fetchReportPage. unfold bind.
  destruct (authRequest _ _ _) as [[[d|e] s1]|] eqn:Ha; [| |done].
  - apply authRequest_effect in Ha. unfold ret, throw.
    destruct (data d); by intros [= <- <-].
  - apply authRequest_effect in Ha. by intros [= <- <-].
Qed.

(** The reports of a fetched page are reports the listing gave. *)
Lemma fetchReportPage_listed (P : string -> Prop) (fuel : nat) (dateFrom : string)
    (n : Z) (s s' : St) (page : Page) :
  lists_only P ->
  fetchReportPage fuel dateFrom n s = Some (Ok page, s') ->
  forall r, r ∈ reports page -> P (id r).
Proof.
  intros HP. unfold fetchReportPage. unfold bind.
  destruct (authRequest _ _ _) as [[[d|e] s1]|] eqn:Ha; [|done|done].
  apply authRequest_origin in Ha as (c & w & w' & Hax).
  unfold ret, throw. destruct (data d) as [rs| |] eqn:Hd; [|done|done].
  intros [= <- <-]. cbn. by eapply HP.
Qed.

(** ** The loop over the reports of a page *)

Lemma process_reports_cons (fuel : nat) (r : Report) (rs : list Report)
    (ids : gset string) (n : Z) (s : St) :
  process_reports fuel (r :: rs) ids n s =
    if decide (id r ∈ ids) then process_reports fuel rs ids n s
    else match processReport fuel r s with
         | Some (Ok true, s1) => process_reports fuel rs ({[id r]} ∪ ids) (n + 1) s1
         | Some (Ok false, s1) => process_reports fuel rs ids n s1
         | Some (Throw e, s1) => Some (Throw e, s1)
         | None => None
         end.
Proof.
  cbn [process_reports]. destruct (decide (id r ∈ ids)); [reflexivity|].
  unfold bind. destruct (processReport fuel r s) as [[[[|]|e] s1]|]; reflexivity.
Qed.

(** After a call that returned true, [downloadedIds] with the id added is
    again in step with the ledger object. *)
Lemma processReport_tracked (fuel : nat) (r : Report) (ids : gset string) (s s' : St) :
  processReport fuel r s = Some (Ok true, s') ->
  tracked ids s -> id r ∉ ids ->
  tracked ({[id r]} ∪ ids) s' /\
  downloadLog s ⊆ downloadLog s' /\
  (size (downloadLog s') + size (proto_ids s')
   = S (size (downloadLog s) + size (proto_ids s)))%nat.
Proof.
  intros Hp Ht Hnot.
  apply processReport_effect in Hp as (_ & _ & _ & _ & _ & _ & Hnew).
  destruct (Hnew eq_refl) as (c & s0 & _ & _ & Hl0 & Hp0 & Hl & Hpr).
  assert (Ht0 : tracked ids s0) by (by apply (tracked_same ids s s0)).
  destruct (tracked_absent _ _ _ Ht0 Hnot) as (Hown & _).
  match type of Hl with _ = downloadLog (assign _ ?e _) =>
    pose proof (assign_tracked ids (id r) e s0 Ht0 Hnot) as Ht1;
    pose proof (assign_grows (id r) e s0 Hown) as Hg1;
    pose proof (assign_size ids (id r) e s0 Ht0 Hnot) as Hs1
  end.
  unfold tracked, proto_ids in *. rewrite Hl, Hpr. rewrite <- Hl0, <- Hp0.
  split; [exact Ht1|]. split; [exact Hg1|exact Hs1].
Qed.

(** A report whose id is already in [downloadedIds] is out of reach of the
    loop: what the ledger object gives for it and the trace are left
    alone. *)
Lemma process_reports_effect (fuel : nat) (rs : list Report) (ids : gset string)
    (n : Z) (s s' : St) (res : Result (gset string * Z)) :
  process_reports fuel rs ids n s = Some (res, s') ->
  logFile s' = logFile s /\
  grows_by (fun e => forall l, e <> EvWriteLog l) (trace s) (trace s') /\
  (forall rid, rid ∈ ids ->
     downloadLog s' !! rid = downloadLog s !! rid /\
     ledger_hash s' rid = ledger_hash s rid /\
     grows_by (fun e => ~ concerns rid e) (trace s) (trace s')) /\
  (forall ids' n', res = Ok (ids', n') ->
     ids ⊆ ids' /\ (tracked ids s -> tracked ids' s')).
Proof.
  revert ids n s. induction rs as [|r rs IH]; intros ids n s.
  { cbn. intros [= <- <-]. split; [done|]. split; [apply grows_by_refl|]. split.
    - intros rid _. repeat split. apply grows_by_refl.
    - by intros ids' n' [= <- <-]. }
  rewrite process_reports_cons. destruct (decide (id r ∈ ids)) as [Hin|Hin].
  { apply IH. }
  destruct (processReport fuel r s) as [[[[|]|e] s1]|] eqn:Hp; [| | |done].
  - (* downloaded *)
    pose proof Hp as Hp'.
    apply processReport_effect in Hp as (Hlf & Hg & _ & Hlog & _).
    intros H. apply IH in H as (Hlf2 & Hw2 & Hprot & Hres).
    split; [congruence|]. split.
    { eapply grows_by_trans; [|exact Hw2]. eapply grows_by_mono; [|exact Hg].
      intros [a|c0|ms|u d|src dst|l]; cbn; try done. }
    split.
    + intros rid Hrid. assert (Hne : rid <> id r) by (by intros ->).
      destruct (Hprot rid) as (Hl2 & Hh2 & Hg2); [by apply elem_of_union_r|].
      destruct (Hlog rid Hne) as [Hl1 Hh1].
      split; [congruence|]. split; [congruence|].
      eapply grows_by_trans; [|exact Hg2]. eapply grows_by_mono; [|exact Hg].
      intros e. apply of_report_other. by intros <-.
    + intros ids' n' ->. destruct (Hres _ _ eq_refl) as [Hsub Htr].
      split; [etrans; [apply union_subseteq_r | exact Hsub]|].
      intros Ht. apply Htr. by apply (processReport_tracked _ _ _ _ _ Hp').
  - (* not downloaded *)
    apply processReport_effect in Hp as (Hlf & Hg & _ & Hlog & Hsame & _).
    destruct (Hsame ltac:(discriminate)) as [Hs1 Hs2].
    intros H. apply IH in H as (Hlf2 & Hw2 & Hprot & Hres).
    split; [congruence|]. split.
    { eapply grows_by_trans; [|exact Hw2]. eapply grows_by_mono; [|exact Hg].
      intros [a|c0|ms|u d|src dst|l]; cbn; try done. }
    split.
    + intros rid Hrid. assert (Hne : rid <> id r) by (by intros ->).
      destruct (Hprot rid Hrid) as (Hl2 & Hh2 & Hg2).
      destruct (Hlog rid Hne) as [Hl1 Hh1].
      split; [congruence|]. split; [congruence|].
      eapply grows_by_trans; [|exact Hg2]. eapply grows_by_mono; [|exact Hg].
      intros e. apply of_report_other. by intros <-.
    + intros ids' n' ->. destruct (Hres _ _ eq_refl) as [Hsub Htr]. split; [done|].
      intros Ht. apply Htr. by apply (tracked_same ids s s1).
  - (* thrown *)
    apply processReport_effect in Hp as (Hlf & Hg & _ & Hlog & Hsame & _).
    intros [= <- <-]. split; [done|]. split.
    { eapply grows_by_mono; [|exact Hg].
      intros [a|c0|ms|u d|src dst|l]; cbn; try done. }
    split; [|done].
    intros rid Hrid. assert (Hne : rid <> id r) by (by intros ->).
    destruct (Hlog rid Hne) as [Hl1 Hh1].
    split; [done|]. split; [done|].
    eapply grows_by_mono; [|exact Hg]. intros e0. apply of_report_other. by intros <-.
Qed.

(** The loop writes to the two paths of the reports it processes and to
    no other file. *)
Lemma process_reports_files (fuel : nat) (rs : list Report) (ids : gset string)
    (n : Z) (s s' : St) (res : Result (gset string * Z)) (q : string) :
  process_reports fuel rs ids n s = Some (res, s') ->
  (forall r, r ∈ rs -> id r ∉ ids -> q <> finalPath (id r) /\ q <> tempPath (id r)) ->
  files s' !! q = files s !! q.
Proof.
  revert ids n s. induction rs as [|r rs IH]; intros ids n s.
  { cbn. by intros [= <- <-]. }
  rewrite process_reports_cons. intros Hrun Hq.
  assert (Hrest : forall ids', ids ⊆ ids' ->
            forall r0, r0 ∈ rs -> id r0 ∉ ids' ->
                       q <> finalPath (id r0) /\ q <> tempPath (id r0)).
  { intros ids' Hsub r0 Hr0 Hnot. apply Hq; [by apply elem_of_cons; right|].
    intros Hin. by apply Hnot, Hsub. }
  destruct (decide (id r ∈ ids)) as [Hin|Hin].
  { eapply IH; [exact Hrun|]. by apply Hrest. }
  destruct (Hq r) as [Hfin Htmp]; [by apply elem_of_cons; left|done|].
  destruct (processReport fuel r s) as [[[[|]|e] s1]|] eqn:Hp; [| | |done].
  all: apply processReport_effect in Hp as (_ & _ & Hframe & _).
  all: rewrite <- (Hframe q Htmp Hfin).
  - eapply IH; [exact Hrun|]. apply Hrest. apply union_subseteq_r.
  - eapply IH; [exact Hrun|]. by apply Hrest.
  - by injection Hrun as <- <-.
Qed.

(** ** One turn of the pagination loop, and the loop *)

Lemma page_turn_run (fuel : nat) (df : string) (p : Z) (ids : gset string)
    (n : Z) (s : St) :
  page_turn fuel df p ids n s =
    match fetchReportPage fuel df p s with
    | Some (Ok page, s1) =>
        match process_reports fuel (reports page) ids n s1 with
        | Some (Ok (ids', n'), s2) =>
            Some (Ok (if js_ge (pageNumber page) (totalPages page) then inl n'
                      else inr (p + 1, ids', n')), flushed s2)
        | Some (Throw e, s2) => Some (Throw e, s2)
        | None => None
        end
    | Some (Throw e, s1) => Some (Throw e, s1)
    | None => None
    end.
Proof.
  unfold page_turn. unfold bind at 1.
  destruct (fetchReportPage fuel df p s) as [[[page|e] s1]|]; try reflexivity.
  unfold bind at 1.
  destruct (process_reports _ _ _ _ _) as [[[[ids' n']|e] s2]|]; try reflexivity.
  unfold writeDownloadLog. run.
  destruct (js_ge _ _); reflexivity.
Qed.

Lemma page_turn_effect (fuel : nat) (df : string) (p : Z) (ids : gset string)
    (n : Z) (s s' : St) (res : Result (Z + Z * gset string * Z)) :
  page_turn fuel df p ids n s = Some (res, s') ->
  (forall rid, rid ∈ ids ->
     downloadLog s' !! rid = downloadLog s !! rid /\
     ledger_hash s' rid = ledger_hash s rid /\
     grows_by (fun e => ~ concerns rid e) (trace s) (trace s')) /\
  match res with
  | Ok ctl =>
      logFile s' = LogStored (downloadLog s') /\
      (exists t, trace s' = EvWriteLog (downloadLog s') :: t) /\
      match ctl with
      | inl _ => True
      | inr (p', ids', _) =>
          p' = p + 1 /\ ids ⊆ ids' /\ (tracked ids s -> tracked ids' s')
      end
  | Throw _ => logFile s' = logFile s
  end.
Proof.
  rewrite page_turn_run.
  destruct (fetchReportPage fuel df p s) as [[[page|e] s1]|] eqn:Hf; [| |done].
  2:{ apply fetchReportPage_effect in Hf as [(Hl & Hfi & Hlf & Hpr) Hg].
      intros [= <- <-]. split; [|done]. intros rid _.
      rewrite Hl. split; [done|]. split; [by apply ledger_hash_same|].
      eapply grows_by_mono; [|exact Hg].
      intros [a|c|ms|u d|src dst|l]; cbn; try tauto. by intros ->. }
  apply fetchReportPage_effect in Hf as [(Hl & Hfi & Hlf & Hpr) Hg].
  assert (Hg' : forall rid, grows_by (fun e => ~ concerns rid e) (trace s) (trace s1)).
  { intros rid. eapply grows_by_mono; [|exact Hg].
    intros [a|c|ms|u d|src dst|l]; cbn; try tauto. by intros ->. }
  assert (Hh : forall rid, ledger_hash s1 rid = ledger_hash s rid).
  { intros rid. by apply ledger_hash_same. }
  destruct (process_reports _ _ _ _ _) as [[[[ids' n']|e] s2]|] eqn:Hp; [| |done].
  - apply process_reports_effect in Hp as (Hlf2 & _ & Hprot & Hres).
    destruct (Hres _ _ eq_refl) as [Hsub Htr].
    intros [= <- <-]. split.
    + intros rid Hrid. destruct (Hprot rid Hrid) as (Hl2 & Hh2 & Hg2).
      split; [cbn; congruence|]. split.
      * rewrite <- Hh, <- Hh2. by apply ledger_hash_same.
      * cbn. apply grows_by_cons; [tauto|].
        eapply grows_by_trans; [apply Hg'|exact Hg2].
    + cbn. split; [done|]. split; [by eexists|].
      destruct (js_ge _ _); [done|]. repeat split; [done|].
      intros Ht. apply (tracked_same ids' s2); [done|done|].
      apply Htr. by apply (tracked_same ids s s1).
  - apply process_reports_effect in Hp as (Hlf2 & _ & Hprot & _).
    intros [= <- <-]. split; [|congruence].
    intros rid Hrid. destruct (Hprot rid Hrid) as (Hl2 & Hh2 & Hg2).
    split; [congruence|]. split; [congruence|].
    eapply grows_by_trans; [apply Hg'|exact Hg2].
Qed.

Lemma main_loop_step (pages fuel : nat) (df : string) (p : Z) (ids : gset string)
    (n : Z) (s : St) :
  main_loop (S pages) fuel df p ids n s =
    match page_turn fuel df p ids n s with
    | Some (Ok (inl total), s1) => Some (Ok total, s1)
    | Some (Ok (inr (p', ids', n')), s1) => main_loop pages fuel df p' ids' n' s1
    | Some (Throw e, s1) => Some (Throw e, s1)
    | None => None
    end.
Proof.
  cbn [main_loop]. unfold bind.
  destruct (page_turn fuel df p ids n s) as [[[[total|[[p' ids'] n']]|e] s1]|];
    reflexivity.
Qed.

(** Whatever the loop does, it leaves alone every report whose id is in
    [downloadedIds] when it starts: no request for it, no transfer, and
    the same entry. *)
Lemma main_loop_protects (pages fuel : nat) (df : string) (p : Z)
    (ids : gset string) (n : Z) (s s' : St) (res : Result Z) (rid : string) :
  main_loop pages fuel df p ids n s = Some (res, s') ->
  rid ∈ ids ->
  downloadLog s' !! rid = downloadLog s !! rid /\
  ledger_hash s' rid = ledger_hash s rid /\
  grows_by (fun e => ~ concerns rid e) (trace s) (trace s') /\
  (stored_entry (logFile s) rid = downloadLog s !! rid ->
   stored_entry (logFile s') rid = downloadLog s !! rid).
Proof.
  revert p ids n s. induction pages as [|pages IH]; intros p ids n s; [done|].
  rewrite main_loop_step.
  destruct (page_turn fuel df p ids n s) as [[[[total|[[p' ids'] n']]|e] s1]|] eqn:Ht;
    [| | |done].
  - apply page_turn_effect in Ht as [Hprot (Hlf & _ & _)].
    intros [= <- <-] Hrid. destruct (Hprot rid Hrid) as (Hl & Hh & Hg).
    repeat split; try done. intros _. by rewrite Hlf.
  - apply page_turn_effect in Ht as [Hprot (Hlf & _ & _ & Hsub & _)].
    intros H Hrid. destruct (Hprot rid Hrid) as (Hl & Hh & Hg).
    apply IH in H as (Hl2 & Hh2 & Hg2 & Hst2); [|by apply Hsub].
    rewrite Hl2, Hh2, Hl, Hh. repeat split.
    + eapply grows_by_trans; [exact Hg|exact Hg2].
    + intros _. rewrite <- Hl. apply Hst2. by rewrite Hlf.
  - apply page_turn_effect in Ht as [Hprot Hlf].
    intros [= <- <-] Hrid. destruct (Hprot rid Hrid) as (Hl & Hh & Hg).
    repeat split; try done. by rewrite Hlf.
Qed.

(** The loop writes to the paths of reports the listing shows and that
    are not in [downloadedIds] when it starts, and to no other file. *)
Lemma main_loop_files (P : string -> Prop) (pages fuel : nat) (df : string) (p : Z)
    (ids : gset string) (n : Z) (s s' : St) (res : Result Z) (q : string) :
  lists_only P ->
  main_loop pages fuel df p ids n s = Some (res, s') ->
  (forall a, P a -> a ∉ ids -> q <> finalPath a /\ q <> tempPath a) ->
  files s' !! q = files s !! q.
Proof.
  intros HP. revert p ids n s.
  induction pages as [|pages IH]; intros p ids n s; [done|].
  rewrite main_loop_step, page_turn_run. intros Hrun Hq.
  destruct (fetchReportPage fuel df p s) as [[[page|e] s0]|] eqn:Hf; [| |done].
  2:{ apply fetchReportPage_effect in Hf as [(_ & Hf0 & _) _].
      injection Hrun as <- <-. by rewrite Hf0. }
  pose proof (fetchReportPage_listed P _ _ _ _ _ _ HP Hf) as Hlisted.
  apply fetchReportPage_effect in Hf as [(_ & Hf0 & _) _]. rewrite <- Hf0.
  destruct (process_reports _ _ _ _ _) as [[[[ids1 n1]|e] s1]|] eqn:Hp; [| |done].
  all: pose proof Hp as Hp'.
  all: apply (process_reports_files _ _ _ _ _ _ _ q) in Hp;
    [|intros r Hr Hnot; apply Hq; [by apply Hlisted|exact Hnot]].
  all: rewrite <- Hp.
  2:{ by injection Hrun as <- <-. }
  apply process_reports_effect in Hp' as (_ & _ & _ & Hres).
  destruct (Hres _ _ eq_refl) as [Hsub _].
  destruct (js_ge _ _).
  - by injection Hrun as <- <-.
  - apply IH in Hrun; [exact Hrun|].
    intros a Ha Hnot. apply Hq; [exact Ha|]. intros Hin. by apply Hnot, Hsub.
Qed.

(** The ledger object only gains: every entry stays, and the count of
    what is recorded goes up with each download. *)
Lemma process_reports_grows (fuel : nat) (rs : list Report) (ids : gset string)
    (n : Z) (s s' : St) (res : Result (gset string * Z)) :
  process_reports fuel rs ids n s = Some (res, s') ->
  tracked ids s ->
  downloadLog s ⊆ downloadLog s' /\
  forall ids' n', res = Ok (ids', n') ->
    tracked ids' s' /\
    Z.of_nat (size (downloadLog s') + size (proto_ids s'))
    = Z.of_nat (size (downloadLog s) + size (proto_ids s)) + (n' - n).
Proof.
  revert ids n s. induction rs as [|r rs IH]; intros ids n s.
  { cbn. intros [= <- <-] Hids. split; [done|]. intros ids' n' [= <- <-].
    split; [done|lia]. }
  rewrite process_reports_cons. destruct (decide (id r ∈ ids)) as [Hin|Hin]; [apply IH|].
  destruct (processReport fuel r s) as [[[[|]|e] s1]|] eqn:Hp; [| | |done].
  - intros Hrun Ht.
    destruct (processReport_tracked _ _ _ _ _ Hp Ht Hin) as (Ht1 & Hsub1 & Hsz1).
    apply IH in Hrun as [Hsub Hres]; [|exact Ht1].
    split; [by etrans|].
    intros ids' n' Heq. destruct (Hres _ _ Heq) as [Hd Hsz]. split; [exact Hd|].
    rewrite Hsz, Hsz1. lia.
  - apply processReport_effect in Hp as (_ & _ & _ & _ & Hsame & _ & _).
    destruct (Hsame ltac:(discriminate)) as [Hs1 Hs2]. intros Hrun Hids.
    apply IH in Hrun as [Hsub Hres]; [|by apply (tracked_same ids s s1)].
    unfold proto_ids in *. rewrite Hs1 in Hsub. rewrite Hs1, Hs2 in Hres. done.
  - apply processReport_effect in Hp as (_ & _ & _ & _ & Hsame & _ & _).
    destruct (Hsame ltac:(discriminate)) as [Hs1 Hs2]. intros [= <- <-] _.
    rewrite Hs1. done.
Qed.

Lemma main_loop_grows (pages fuel : nat) (df : string) (p : Z) (ids : gset string)
    (n : Z) (s s' : St) (res : Result Z) :
  main_loop pages fuel df p ids n s = Some (res, s') ->
  tracked ids s ->
  downloadLog s ⊆ downloadLog s' /\
  (logFile s' = logFile s \/
   exists l', logFile s' = LogStored l' /\ downloadLog s ⊆ l') /\
  forall total, res = Ok total ->
    logFile s' = LogStored (downloadLog s') /\
    Z.of_nat (size (downloadLog s') + size (proto_ids s'))
    = Z.of_nat (size (downloadLog s) + size (proto_ids s)) + (total - n).
Proof.
  revert p ids n s. induction pages as [|pages IH]; intros p ids n s; [done|].
  rewrite main_loop_step, page_turn_run.
  destruct (fetchReportPage fuel df p s) as [[[page|e] s0]|] eqn:Hf; [| |done].
  2:{ apply fetchReportPage_effect in Hf as [(Hl & _ & Hlf & _) _].
      intros [= <- <-] _. rewrite Hl. split; [done|]. split; [by left|done]. }
  apply fetchReportPage_effect in Hf as [(Hl & _ & Hlf & Hpr) _].
  destruct (process_reports _ _ _ _ _) as [[[[ids1 n1]|e] s1]|] eqn:Hp; [| |done].
  2:{ pose proof Hp as Hp'. apply process_reports_effect in Hp' as (Hlf1 & _).
      intros [= <- <-] Hids.
      apply process_reports_grows in Hp as [Hsub _]; [|by apply (tracked_same ids s s0)].
      rewrite Hl in Hsub. split; [exact Hsub|]. split; [left; congruence|done]. }
  intros Hrun Hids.
  apply process_reports_grows in Hp as [Hsub Hres]; [|by apply (tracked_same ids s s0)].
  destruct (Hres _ _ eq_refl) as [Hd1 Hsz1]. unfold proto_ids in Hsz1.
  rewrite Hl, Hpr in Hsz1. rewrite Hl in Hsub.
  destruct (js_ge _ _).
  - injection Hrun as <- <-. cbn. split; [exact Hsub|]. split; [right; eauto|].
    intros total [= <-]. done.
  - apply IH in Hrun as (Hsub2 & Hlf2 & Hres2);
      [|by apply (tracked_same ids1 s1 (flushed s1))].
    cbn in Hsub2, Hlf2, Hres2.
    split; [by etrans|]. split.
    + right. destruct Hlf2 as [-> | (l' & -> & Hl')]; [eauto|].
      exists l'. split; [done|]. by etrans.
    + intros total Heq. destruct (Hres2 _ Heq) as [Hlfs Hsz]. split; [exact Hlfs|].
      unfold proto_ids in *. cbn in Hsz. lia.
Qed.

(** ** Claims on the token manager and the request executor *)

(** C6.  A token returned by [getValidToken] is the cached one, and the
    test [Date.now() >= tokenExpiresAt] is false for it at the moment of
    return.  Whenever the cache is empty, no expiry is set or the expiry
    has passed, the token is the one just obtained from the token endpoint
    and its expiry is set four minutes ahead; otherwise nothing changes.
    The assertion is signed for five minutes, and four minutes is
    strictly less. *)
Theorem getValidToken_never_expired (s s' : St) (t : option string) :
  getValidToken s = Some (Ok t, s') ->
  cachedToken s' = t /\
  is_Some (tokenExpiresAt s') /\
  js_ge (Some (now (world s'))) (tokenExpiresAt s') = false /\
  ((cachedToken s = None \/ tokenExpiresAt s = None \/
    exists e, tokenExpiresAt s = Some e /\ e <= now (world s)) ->
   needsRefresh s = true) /\
  (needsRefresh s = true ->
   post_token (jwt_sign (now (world s))) (world s) = (Ok t, world s') /\
   tokenExpiresAt s' = Some (now (world s') + TOKEN_TTL_MS)) /\
  (needsRefresh s = false -> s' = s) /\
  exp (jwt_sign (now (world s))) - iat (jwt_sign (now (world s))) = ASSERTION_TTL_S /\
  TOKEN_TTL_MS = 4 * 60 * 1000 /\
  TOKEN_TTL_MS < ASSERTION_TTL_S * 1000.
Proof.
  intros Hrun.
  assert (Hcond : (cachedToken s = None \/ tokenExpiresAt s = None \/
            exists e, tokenExpiresAt s = Some e /\ e <= now (world s)) ->
            needsRefresh s = true).
  { unfold needsRefresh. intros [-> | [-> | (e & -> & He)]]; cbn.
    - reflexivity.
    - by destruct (truthy_str (cachedToken s)).
    - apply orb_true_iff. right. by apply Z.leb_le. }
  rewrite getValidToken_run in Hrun.
  destruct (needsRefresh s) eqn:Hn; cbn in Hrun.
  - destruct (post_token _ _) as [[t0|e] w] eqn:Hp; [|done].
    injection Hrun as <- <-. cbn.
    repeat split; try done; try (by eexists);
      try (cbn; unfold TOKEN_TTL_MS, ASSERTION_TTL_S; lia).
  - injection Hrun as <- <-.
    unfold needsRefresh in Hn.
    apply orb_false_iff in Hn as [Hn Hg]. apply orb_false_iff in Hn as [_ Hx].
    repeat split; try done;
      try (cbn; unfold TOKEN_TTL_MS, ASSERTION_TTL_S; lia).
    destruct (tokenExpiresAt s); [by eexists | done].
Qed.

(** C4.  When an attempt fails with the description "Access token has
    expired.", [authRequest] clears the cached token and goes straight to
    the next attempt: nothing is added to the trace and the world does not
    move in between, and the next [getValidToken] has to refresh.  If that
    next attempt succeeds, its response is what the caller gets, and no
    wait has taken place since the call began. *)
Theorem authRequest_expired_retry (fuel : nat) (req : Request) (s s1 : St)
    (err : JsError) :
  attempt req s = Some (Throw err, s1) ->
  isExpired (response_data err) = true ->
  authRequest (S fuel) req s = authRequest fuel req (set_cachedToken None s1) /\
  cachedToken (set_cachedToken None s1) = None /\
  needsRefresh (set_cachedToken None s1) = true /\
  trace (set_cachedToken None s1) = trace s1 /\
  world (set_cachedToken None s1) = world s1 /\
  forall (b : Body) (s2 : St),
    attempt req (set_cachedToken None s1) = Some (Ok b, s2) ->
    authRequest (S (S fuel)) req s = Some (Ok b, s2) /\
    grows_by (fun e => is_sleep e = false) (trace s) (trace s2).
Proof.
  intros Ha Hx.
  assert (Hstep : authRequest (S fuel) req s
                  = authRequest fuel req (set_cachedToken None s1)).
  { intros. by rewrite authRequest_step, Ha, Hx. }
  repeat split; try done.
  - rewrite authRequest_step, Ha, Hx. by apply authRequest_first_try.
  - apply attempt_effect in Ha as [_ Hg1]. apply attempt_effect in H as [_ Hg2].
    eapply grows_by_trans; (eapply grows_by_mono; [|eassumption]); by intros e [_ ?].
Qed.


(** ** Claims on the report processor *)

Lemma up_to_date_spec (s : St) (rid : string) :
  up_to_date s rid = true <-> recorded_unchanged s rid.
Proof.
  unfold up_to_date, recorded_unchanged, hash_matches. split.
  - destruct (files s !! finalPath rid) as [c|]; [|done].
    destruct (ledger_hash s rid) as [h|]; [|done].
    intros H. apply String.eqb_eq in H. by exists h, c.
  - intros (h & c & -> & -> & ->). apply String.eqb_refl.
Qed.

Lemma up_to_date_same_disk (s s1 : St) (rid : string) :
  same_disk s s1 -> up_to_date s1 rid = up_to_date s rid.
Proof.
  intros (Hl & Hf & _ & Hp). unfold up_to_date, hash_matches.
  by rewrite Hf, (ledger_hash_same s s1 rid Hl Hp).
Qed.

(** C2, as amended.  For a report whose detail carries a url:
    [processReport] returns false exactly when the ledger object gives an
    entry for the id, the final file exists and its digest equals the one
    of the entry, and then neither ledger nor files change.  When the
    final file is missing, or its digest is not the one the ledger gives
    (it may give none), the download branch is taken: the call does not
    return false, whatever it returns a transfer has been started, and a
    transfer that completes leaves the final file with what was
    transferred and true as the result. *)
Theorem processReport_skip_rule (fuel : nat) (r : Report) (s s1 : St) (d : Body) :
  getReportDetail fuel (id r) s = Some (Ok d, s1) ->
  truthy_str (detail_url d) = true ->
  ((exists s', processReport fuel r s = Some (Ok false, s')) <->
   recorded_unchanged s (id r)) /\
  (recorded_unchanged s (id r) ->
   processReport fuel r s = Some (Ok false, s1) /\
   downloadLog s1 = downloadLog s /\ logProto s1 = logProto s /\ files s1 = files s) /\
  ((files s !! finalPath (id r) = None \/
    exists c, files s !! finalPath (id r) = Some c /\
              ledger_hash s (id r) <> Some (sha256_hex c)) ->
   processReport fuel r s = download_and_record (id r) (or_empty (detail_url d)) s1 /\
   (forall res s', processReport fuel r s = Some (res, s') ->
      res <> Ok false /\
      In (EvDownload (or_empty (detail_url d)) (temp_filename (id r))) (trace s')) /\
   (forall c w, get_stream (or_empty (detail_url d)) (world s1) = (Finished c, w) ->
      processReport fuel r s
      = Some (Ok true, downloaded (id r) (or_empty (detail_url d)) c w s1) /\
      files (downloaded (id r) (or_empty (detail_url d)) c w s1) !! finalPath (id r)
      = Some c)).
Proof.
  intros Hd Hu. pose proof Hd as Hd'.
  apply getReportDetail_effect in Hd' as [Hdisk _].
  pose proof (up_to_date_same_disk s s1 (id r) Hdisk) as Hsame.
  rewrite processReport_run, Hd, Hu, Hsame.
  split; [|split].
  - rewrite <- up_to_date_spec. destruct (up_to_date s (id r)).
    + split; [done | by eexists].
    + split; [|done]. intros [s' H]. rewrite download_and_record_run in H.
      destruct (get_stream _ _) as [[c|e|] w]; discriminate.
  - intros H. apply up_to_date_spec in H. rewrite H.
    destruct Hdisk as (? & ? & _ & ?). done.
  - intros H. assert (Hn : up_to_date s (id r) = false).
    { apply not_true_is_false. intros Ht. apply up_to_date_spec in Ht.
      destruct Ht as (h & c & He & Hc & Hh).
      destruct H as [H | (c' & Hc' & Hne)]; [congruence|].
      rewrite He in Hne. congruence. }
    rewrite Hn. split; [reflexivity|]. rewrite download_and_record_run. split.
    + intros res s'.
      destruct (get_stream _ _) as [[c|e|] w]; [| |done]; intros [= <- <-].
      * split; [done|].
        destruct (downloaded_state (id r) (or_empty (detail_url d)) c w s1)
          as (_ & _ & _ & _ & _ & _ & ->).
        right. by left.
      * split; [done|]. cbn. by left.
    + intros c w ->. split; [reflexivity|].
      by destruct (downloaded_state (id r) (or_empty (detail_url d)) c w s1) as (? & _).
Qed.

(** C8.  When the detail of a report carries no url, [processReport]
    returns false in the state the detail request left: no file is
    written, the ledger and the ledger file are as before, and the loop
    over the page goes on with the reports that follow. *)
Theorem processReport_without_url (fuel : nat) (r : Report) (rs : list Report)
    (ids : gset string) (n : Z) (s s1 : St) (d : Body) :
  getReportDetail fuel (id r) s = Some (Ok d, s1) ->
  truthy_str (detail_url d) = false ->
  processReport fuel r s = Some (Ok false, s1) /\
  files s1 = files s /\
  downloadLog s1 = downloadLog s /\
  logFile s1 = logFile s /\
  grows_by (fun e => writes_file e = false) (trace s) (trace s1) /\
  (id r ∉ ids ->
   process_reports fuel (r :: rs) ids n s = process_reports fuel rs ids n s1).
Proof.
  intros Hd Hu.
  assert (Hp : processReport fuel r s = Some (Ok false, s1)).
  { by rewrite processReport_run, Hd, Hu. }
  apply authRequest_effect in Hd as [(Hl & Hf & Hlf & _) Hg].
  repeat split; try done.
  - eapply grows_by_mono; [|exact Hg]. by intros [a|c|ms|u x|src dst|l].
  - intros Hin. rewrite process_reports_cons, Hp. by destruct (decide _).
Qed.



(** ** Claims on the sweep *)

Lemma sweep_run (pages fuel : nat) (s : St) :
  sweep pages fuel s =
    match getValidToken s with
    | Some (Ok _, s1) =>
        match logFile s1 with
        | LogMissing =>
            main_loop pages fuel (date_from (now (world s1))) 1 (dom (∅ : gmap string Entry)) 0
              (loaded ∅ s1)
        | LogMalformed => Some (Throw malformed_log, s1)
        | LogStored l =>
            main_loop pages fuel (date_from (now (world s1))) 1 (dom l) 0
              (loaded l s1)
        end
    | Some (Throw e, s1) => Some (Throw e, s1)
    | None => None
    end.
Proof.
  unfold sweep. unfold bind at 1.
  destruct (getValidToken s) as [[[t|e] s1]|]; try reflexivity.
  unfold readDownloadLog. run. destruct (logFile s1); reflexivity.
Qed.

Lemma main_run (pages fuel : nat) (s : St) :
  main pages fuel s =
    match sweep pages fuel s with
    | Some (Ok total, s') => Some (Ok (Completed total), s')
    | Some (Throw e, s') => Some (Ok (Failed e), s')
    | None => None
    end.
Proof.
  unfold main, try_catch. unfold bind at 1.
  destruct (sweep pages fuel s) as [[[t|e] s1]|]; reflexivity.
Qed.

(** The loop of [main] starts with [downloadedIds] in step with the
    ledger object. *)
Lemma loaded_tracked (l : gmap string Entry) (s : St) : tracked (dom l) (loaded l s).
Proof. unfold tracked, proto_ids. cbn. by rewrite union_empty_r_L. Qed.

(** A run leaves alone every report that has an entry in the ledger file
    it starts from: no detail request for it, no transfer to its
    temporary file, no rename to its final file, and the same entry in
    the ledger file at the end, with or without its final file. *)
Lemma main_skips_ledger_ids (pages fuel : nat) (s s' : St)
    (l : gmap string Entry) (rid : string) (res : Result Outcome) :
  logFile s = LogStored l ->
  is_Some (l !! rid) ->
  main pages fuel s = Some (res, s') ->
  stored_entry (logFile s') rid = l !! rid /\
  grows_by (fun e => ~ concerns rid e) (trace s) (trace s').
Proof.
  intros Hlf Hin. rewrite main_run, sweep_run.
  destruct (getValidToken s) as [[[t|e] s1]|] eqn:Hg; [| |done].
  2:{ apply getValidToken_effect in Hg as [(Hl & Hf & Hlf1 & _) Hg].
      intros [= <- <-]. rewrite Hlf1, Hlf. repeat split.
      eapply grows_by_mono; [|exact Hg]. intros e0 [a ->]. cbn. tauto. }
  apply getValidToken_effect in Hg as [(Hl & Hf & Hlf1 & _) Hg].
  assert (Hg1 : grows_by (fun e => ~ concerns rid e) (trace s) (trace s1)).
  { eapply grows_by_mono; [|exact Hg]. intros e0 [a ->]. cbn. tauto. }
  rewrite Hlf1, Hlf.
  destruct (main_loop _ _ _ _ _ _ _) as [[[total|e] s2]|] eqn:Hm; [| |done].
  all: apply (main_loop_protects _ _ _ _ _ _ _ _ _ rid) in Hm as (Hl2 & _ & Hg2 & Hst);
    [|by apply elem_of_dom].
  all: intros [= <- <-]; cbn in *; repeat split;
    [ apply Hst; by rewrite Hlf1, Hlf
    | eapply grows_by_trans; [exact Hg1|exact Hg2] ].
Qed.



(** ** The walk over the pages *)

Lemma page_requests_cons (e : Event) (t : list Event) :
  page_requests (e :: t) =
    page_requests t ++ match page_of e with Some n => [n] | None => [] end.
Proof.
  unfold page_requests. cbn [rev]. rewrite omap_app. cbn.
  by destruct (page_of e).
Qed.

Lemma page_requests_grows (t t' : list Event) :
  grows_by (fun e => page_of e = None) t t' -> page_requests t' = page_requests t.
Proof.
  intros (evs & -> & H). induction H as [|e evs He _ IH]; [reflexivity|].
  cbn [app]. rewrite page_requests_cons, He, IH. apply app_nil_r.
Qed.

Lemma getValidToken_granted (s : St) :
  token_granted ->
  exists t s', getValidToken s = Some (Ok t, s').
Proof.
  intros Htok. rewrite getValidToken_run. destruct (needsRefresh s); [|eauto].
  cbn. destruct (Htok (jwt_sign (now (world s))) (world s)) as (t & w & ->). eauto.
Qed.

(** With a token at hand and an answering remote, a request succeeds at
    its first attempt. *)
Lemma authRequest_answered (Q : Body -> Prop) (fuel : nat) (req : Request) (s : St) :
  token_granted ->
  (forall tok w, exists b w',
     axios {| request := req; authorization := tok |} w = (Ok b, w') /\ Q b) ->
  exists b s',
    authRequest (S fuel) req s = Some (Ok b, s') /\
    Q b /\
    same_disk s s' /\
    page_requests (trace s') =
      page_requests (trace s) ++ match req with
                                 | GetReports _ _ n => [n]
                                 | GetReport _ => []
                                 end.
Proof.
  intros Htok Hans.
  destruct (getValidToken_granted s Htok) as (t & s0 & Hg).
  destruct (Hans t (world s0)) as (b & w & Hax & HQ).
  assert (Ha : attempt req s
               = Some (Ok b, set_world w (emit (EvRequest {| request := req;
                                                             authorization := t |}) s0))).
  { rewrite attempt_run, Hg. cbn. by rewrite Hax. }
  pose proof (authRequest_first_try fuel _ _ _ _ Ha) as Hrun.
  apply getValidToken_effect in Hg as [Hdisk Hgrow].
  eexists _, _. split; [exact Hrun|]. split; [exact HQ|]. split; [exact Hdisk|].
  cbn [trace set_world emit]. rewrite page_requests_cons. cbn.
  rewrite (page_requests_grows (trace s) (trace s0)).
  - by destruct req.
  - eapply grows_by_mono; [|exact Hgrow]. by intros e [a ->].
Qed.

Lemma of_report_no_page (rid : string) (e : Event) :
  of_report rid e -> page_of e = None.
Proof. destruct e as [a|c|ms|u d|src dst|l]; cbn; try done. by intros ->. Qed.

Lemma process_reports_pages (fuel : nat) (rs : list Report) (ids : gset string)
    (n : Z) (s s' : St) (res : Result (gset string * Z)) :
  process_reports fuel rs ids n s = Some (res, s') ->
  page_requests (trace s') = page_requests (trace s).
Proof.
  revert ids n s. induction rs as [|r rs IH]; intros ids n s.
  { cbn. by intros [= <- <-]. }
  rewrite process_reports_cons. destruct (decide (id r ∈ ids)); [apply IH|].
  destruct (processReport fuel r s) as [[[[|]|e] s1]|] eqn:Hp; [| | |done].
  all: apply processReport_effect in Hp as (_ & Hg & _).
  all: assert (Hs1 : page_requests (trace s1) = page_requests (trace s))
         by (apply page_requests_grows; eapply grows_by_mono; [|exact Hg];
             apply of_report_no_page).
  - intros H. apply IH in H. congruence.
  - intros H. apply IH in H. congruence.
  - by intros [= <- <-].
Qed.

Section Paged.
Variables (pn : Z -> Z) (total : Z).
Hypothesis Hpaged : paged pn total.

Lemma processReport_paged (fuel : nat) (r : Report) (s : St) :
  exists b s', processReport (S fuel) r s = Some (Ok b, s').
Proof.
  destruct Hpaged as (Htok & Hax & Hstream).
  destruct (authRequest_answered (fun _ => True) fuel (GetReport (id r)) s Htok)
    as (d & s1 & Hd & _).
  { intros tok w. destruct (Hax {| request := GetReport (id r); authorization := tok |} w)
      as (b & w' & Hb & _). eauto. }
  rewrite processReport_run. unfold getReportDetail. rewrite Hd.
  destruct (truthy_str (detail_url d)); [|eauto].
  destruct (up_to_date s1 (id r)); [eauto|].
  rewrite download_and_record_run.
  destruct (Hstream (or_empty (detail_url d)) (world s1)) as (c & w' & ->). eauto.
Qed.

Lemma process_reports_paged (fuel : nat) (rs : list Report) (ids : gset string)
    (n : Z) (s : St) :
  exists ids' n' s',
    process_reports (S fuel) rs ids n s = Some (Ok (ids', n'), s').
Proof.
  revert ids n s. induction rs as [|r rs IH]; intros ids n s.
  { cbn. unfold ret. eauto. }
  rewrite process_reports_cons. destruct (decide (id r ∈ ids)); [apply IH|].
  destruct (processReport_paged fuel r s) as ([|] & s1 & ->); apply IH.
Qed.

Lemma page_turn_paged (fuel : nat) (df : string) (p : Z) (ids : gset string)
    (n : Z) (s : St) :
  exists ids' n' s',
    page_turn (S fuel) df p ids n s
    = Some (Ok (if total <=? pn p then inl n' else inr (p + 1, ids', n')), s') /\
    page_requests (trace s') = page_requests (trace s) ++ [p].
Proof.
  destruct Hpaged as (Htok & Hax & Hstream).
  destruct (authRequest_answered
              (fun b => (exists rs, data b = DataArray rs) /\
                        page_number b = Some (pn p) /\ total_pages b = Some total)
              fuel (GetReports df 50 p) s Htok)
    as (b & s1 & Hb & ([rs Hrs] & Hpn & Htp) & _ & Hreq).
  { intros tok w. destruct (Hax {| request := GetReports df 50 p; authorization := tok |} w)
      as (b & w' & Hb & Hshape). exists b, w'. split; [exact Hb|]. by eapply Hshape. }
  destruct (process_reports_paged fuel rs ids n s1) as (ids' & n' & s2 & Hp).
  exists ids', n', (flushed s2). split.
  - rewrite page_turn_run. unfold fetchReportPage. unfold bind at 1.
    rewrite Hb, Hrs. unfold ret. cbn [reports pageNumber totalPages].
    rewrite Hp, Hpn, Htp. reflexivity.
  - cbn [flushed trace set_logFile emit]. rewrite page_requests_cons. cbn.
    rewrite app_nil_r. apply process_reports_pages in Hp. by rewrite Hp, Hreq.
Qed.

Lemma main_loop_paged (pages fuel : nat) (df : string) (p last : Z)
    (ids : gset string) (n : Z) (s : St) :
  p <= last ->
  total <= pn last ->
  (forall j, p <= j < last -> pn j < total) ->
  last - p + 1 <= Z.of_nat pages ->
  exists n' s',
    main_loop pages (S fuel) df p ids n s = Some (Ok n', s') /\
    page_requests (trace s') = page_requests (trace s) ++ seqZ p (last - p + 1).
Proof.
  revert p ids n s. induction pages as [|pages IH]; intros p ids n s Hle Hlast Hbefore Hpages;
    [lia|].
  rewrite main_loop_step.
  destruct (page_turn_paged fuel df p ids n s) as (ids' & n' & s1 & -> & Hreq).
  destruct (Z.leb_spec total (pn p)) as [Hstop|Hgo].
  - assert (p = last) as ->.
    { destruct (decide (p = last)) as [|Hne]; [done|].
      specialize (Hbefore p ltac:(lia)). lia. }
    exists n', s1. split; [reflexivity|].
    rewrite Hreq. by replace (last - last + 1) with 1 by lia.
  - assert (p < last).
    { destruct (decide (p = last)) as [->|Hne]; lia. }
    destruct (IH (p + 1) ids' n' s1) as (n2 & s2 & Hrun & Hreq2); try lia.
    { intros j Hj. apply Hbefore. lia. }
    exists n2, s2. split; [exact Hrun|].
    rewrite Hreq2, Hreq, <- app_assoc. f_equal.
    rewrite (seqZ_cons p (last - p + 1)) by lia. cbn. f_equal. f_equal; lia.
Qed.

End Paged.

(** C3, as amended.  Against a remote where every token exchange, every
    request and every transfer succeeds at its first attempt and that
    reports the same [total_pages] on every page, a run that can read its
    ledger file asks for page 1 first and then for the pages that follow
    one by one, up to and including the first page [last] whose reported
    [page_number] is at least [total_pages], and completes there.  When
    the reported page number is the one asked for and [total_pages] is 3,
    the requests are for the pages 1, 2 and 3. *)
Theorem pagination_walk (pn : Z -> Z) (total last : Z) (pages fuel : nat) (s : St) :
  paged pn total ->
  1 <= last ->
  total <= pn last ->
  (forall j, 1 <= j < last -> pn j < total) ->
  last <= Z.of_nat pages ->
  logFile s <> LogMalformed ->
  exists n s',
    main pages (S fuel) s = Some (Ok (Completed n), s') /\
    page_requests (trace s') = page_requests (trace s) ++ seqZ 1 last /\
    ((forall j, pn j = j) -> total = 3 ->
     page_requests (trace s') = page_requests (trace s) ++ [1; 2; 3]).
Proof.
  intros Hpaged Hlast Hstop Hbefore Hpages Hlog.
  pose proof Hpaged as (Htok & _).
  destruct (getValidToken_granted s Htok) as (t & s1 & Hg).
  pose proof Hg as Hg'. apply getValidToken_effect in Hg' as [(_ & _ & Hlf & _) Hgrow].
  assert (Hreq1 : page_requests (trace s1) = page_requests (trace s)).
  { apply page_requests_grows. eapply grows_by_mono; [|exact Hgrow]. by intros e [a ->]. }
  assert (Hloop : forall l : gmap string Entry, exists n s',
    main_loop pages (S fuel) (date_from (now (world s1))) 1 (dom l) 0
      (loaded l s1) = Some (Ok n, s') /\
    page_requests (trace s') = page_requests (trace s) ++ seqZ 1 last).
  { intros l.
    destruct (main_loop_paged pn total Hpaged pages fuel (date_from (now (world s1)))
                1 last (dom l) 0 (loaded l s1))
      as (n & s' & Hrun & Hreq); try done; try lia.
    exists n, s'. split; [exact Hrun|].
    rewrite Hreq. cbn [trace loaded set_logProto set_downloadLog]. rewrite Hreq1.
    by replace (last - 1 + 1) with last by lia. }
  assert (Hmain : exists n s',
    main pages (S fuel) s = Some (Ok (Completed n), s') /\
    page_requests (trace s') = page_requests (trace s) ++ seqZ 1 last).
  { rewrite main_run, sweep_run, Hg, Hlf.
    destruct (logFile s) as [| |l]; [|done|].
    - destruct (Hloop ∅) as (n & s' & -> & Hreq). eauto.
    - destruct (Hloop l) as (n & s' & -> & Hreq). eauto. }
  destruct Hmain as (n & s' & Hrun & Hreq).
  exists n, s'. split; [exact Hrun|]. split; [exact Hreq|].
  intros Hecho ->. rewrite Hecho in Hstop.
  assert (last = 3) as ->.
  { destruct (decide (last <= 3)) as [|Hgt]; [lia|].
    specialize (Hbefore 3 ltac:(lia)). rewrite Hecho in Hbefore. lia. }
  exact Hreq.
Qed.

(** ** A second run against an unchanged remote *)


Section Steady.
Variables (listing : Z -> Body) (detail : string -> Body).
Hypothesis Hsteady : steady listing detail.

Lemma steady_request (fuel : nat) (req : Request) (s : St) :
  exists s',
    authRequest (S fuel) req s = Some (Ok (answer listing detail req), s') /\
    same_disk s s' /\
    grows_by (fun e => writes_file e = false) (trace s) (trace s').
Proof.
  destruct Hsteady as [Htok Hax].
  destruct (authRequest_answered
              (fun b => b = answer listing detail req) fuel req s Htok)
    as (b & s' & Hrun & -> & Hdisk & _).
  { intros tok w. destruct (Hax {| request := req; authorization := tok |} w) as [w' Hw].
    eauto. }
  exists s'. split; [exact Hrun|]. split; [exact Hdisk|].
  apply authRequest_effect in Hrun as [_ Hg].
  eapply grows_by_mono; [|exact Hg]. by intros [a|c|ms|u d|src dst|l].
Qed.

(** In a run that got its answers, [processReport] returns false for a
    report for which the ledger object gives nothing only when the detail
    has no url. *)
Lemma processReport_false_steady (fuel : nat) (r : Report) (s s1 : St) :
  processReport fuel r s = Some (Ok false, s1) ->
  ledger_hash s (id r) = None ->
  truthy_str (detail_url (detail (id r))) = false.
Proof.
  destruct fuel as [|fuel]; [by rewrite processReport_run|].
  rewrite processReport_run. unfold getReportDetail.
  destruct (steady_request fuel (GetReport (id r)) s) as (s0 & -> & Hdisk & _).
  cbn [answer]. destruct (truthy_str (detail_url (detail (id r)))); [|done].
  destruct (up_to_date s0 (id r)) eqn:Hup.
  - intros _ Hnot. rewrite (up_to_date_same_disk s s0 _ Hdisk) in Hup.
    apply up_to_date_spec in Hup as (h & c & He & _). congruence.
  - rewrite download_and_record_run. by destruct (get_stream _ _) as [[c|e|] w].
Qed.

(** After the loop over a page has run to its end, every report of the
    page is in [downloadedIds] or has no url. *)
Lemma process_reports_settles (fuel : nat) (rs : list Report) (ids ids' : gset string)
    (n n' : Z) (s s' : St) :
  process_reports fuel rs ids n s = Some (Ok (ids', n'), s') ->
  tracked ids s ->
  forall r, r ∈ rs ->
    id r ∈ ids' \/ truthy_str (detail_url (detail (id r))) = false.
Proof.
  revert ids n s. induction rs as [|r rs IH]; intros ids n s Hrun Hids r0 Hr0.
  { by apply elem_of_nil in Hr0. }
  rewrite process_reports_cons in Hrun.
  apply elem_of_cons in Hr0.
  destruct (decide (id r ∈ ids)) as [Hin|Hin].
  { destruct Hr0 as [->|Hr0]; [|by eapply IH].
    left. apply process_reports_effect in Hrun as (_ & _ & _ & Hres).
    destruct (Hres _ _ eq_refl) as [Hsub _]. by apply Hsub. }
  destruct (processReport fuel r s) as [[[[|]|e] s1]|] eqn:Hp; [| |done|done].
  - destruct (processReport_tracked _ _ _ _ _ Hp Hids Hin) as (Hids1 & _).
    destruct Hr0 as [->|Hr0]; [|by eapply IH].
    left. apply process_reports_effect in Hrun as (_ & _ & _ & Hres).
    destruct (Hres _ _ eq_refl) as [Hsub _]. apply Hsub.
    apply elem_of_union_l. by apply elem_of_singleton.
  - pose proof Hp as Hp'.
    apply processReport_effect in Hp' as (_ & _ & _ & _ & Hsame & _ & _).
    destruct (Hsame ltac:(discriminate)) as [Hs1 Hs2].
    destruct Hr0 as [->|Hr0].
    + right. eapply processReport_false_steady; [exact Hp|].
      by destruct (tracked_absent _ _ _ Hids Hin) as (_ & ? & _).
    + eapply IH; [exact Hrun| |exact Hr0]. by apply (tracked_same ids s s1).
Qed.


Hypothesis Hplain :
  forall j rs r, data (listing j) = DataArray rs -> r ∈ rs -> id r <> "__proto__".


End Steady.


End Facts.

(** * The model at work *)

(** ** Token manager and request executor *)

Lemma getValidToken_never_expired_witness :
  exists (t : option string) (s' : @St demo_env),
    @getValidToken demo_env (demo_boot []) = Some (Ok t, s') /\
    t = Some "bearer-1" /\
    cachedToken s' = t /\
    tokenExpiresAt s' = Some (1700000000000 + 240000) /\
    js_ge (Some (@now demo_env (world s'))) (tokenExpiresAt s') = false.
Proof.
  eexists _, _. split; [vm_compute; reflexivity|].
  split; [reflexivity|].
  pose proof (@getValidToken_never_expired demo_env (demo_boot []) _ _ eq_refl)
    as (Hc & _ & Hge & _ & Hfresh & _).
  split; [exact Hc|]. split; [|exact Hge].
  destruct (Hfresh eq_refl) as [_ He]. exact He.
Defined.

Lemma authRequest_expired_retry_witness :
  exists (b : Body) (s2 : @St demo_env),
    @authRequest demo_env 2 (GetReport "2002") (demo_boot [Some expired_error])
    = Some (Ok b, s2) /\
    b = demo_detail "2002" /\
    filter (fun e => is_sleep e = true) (trace s2) = [].
Proof.
  destruct (@authRequest_expired_retry demo_env 0 (GetReport "2002")
              (demo_boot [Some expired_error]) _ expired_error eq_refl eq_refl)
    as (_ & _ & _ & _ & _ & Hnext).
  destruct (Hnext _ _ eq_refl) as [Hrun _].
  eexists _, _. split; [exact Hrun|]. split; reflexivity.
Defined.



(** ** Report processor *)

(** C2 as stated fails: for a report without a url the processor returns
    false and leaves the ledger alone although the id has no ledger entry
    and no final file exists, and nothing is downloaded. *)
Lemma processReport_false_without_entry :
  exists (s1 : @St demo_calm),
    @processReport demo_calm 1 {| id := "1001" |} calm_boot = Some (Ok false, s1) /\
    downloadLog s1 !! "1001" = downloadLog calm_boot !! "1001" /\
    downloadLog calm_boot !! "1001" = None /\
    ledger_hash calm_boot "1001" = None /\
    files calm_boot !! @finalPath demo_calm "1001" = None /\
    ~ recorded_unchanged calm_boot "1001" /\
    files s1 !! @finalPath demo_calm "1001" = None /\
    filter (fun e => writes_file e = true) (trace s1) = [].
Proof.
  eexists. split; [vm_compute; reflexivity|].
  repeat split; try reflexivity.
  intros (h & c & He & _). discriminate He.
Qed.

Lemma processReport_skip_rule_witness :
  (exists (s1 : @St demo_calm),
     @processReport demo_calm 1 {| id := "2002" |} kept_2002 = Some (Ok false, s1) /\
     downloadLog s1 = downloadLog kept_2002 /\ files s1 = files kept_2002) /\
  (exists (s1 : @St demo_calm),
     @processReport demo_calm 1 {| id := "2002" |} calm_boot = Some (Ok true, s1) /\
     files s1 !! @finalPath demo_calm "2002"
     = Some (demo_artifact "https://files.example/2002")).
Proof.
  split.
  - destruct (@processReport_skip_rule demo_calm 1 {| id := "2002" |} kept_2002 _ _
                eq_refl eq_refl) as (_ & Hskip & _).
    eexists. destruct Hskip as (Hrun & Hl & _ & Hf).
    + exists (demo_artifact "https://files.example/2002"),
             (demo_artifact "https://files.example/2002").
      repeat split; reflexivity.
    + split; [exact Hrun|]. split; [exact Hl|exact Hf].
  - destruct (@processReport_skip_rule demo_calm 1 {| id := "2002" |} calm_boot _ _
                eq_refl eq_refl) as (_ & _ & Hload).
    destruct (Hload ltac:(left; reflexivity)) as (_ & _ & Hdone).
    destruct (Hdone _ _ eq_refl) as [Hrun Hfile].
    eexists. split; [exact Hrun|exact Hfile].
Defined.

Lemma processReport_without_url_witness :
  exists (s1 : @St demo_calm),
    @processReport demo_calm 1 {| id := "1001" |} calm_boot = Some (Ok false, s1) /\
    files s1 = files calm_boot /\
    downloadLog s1 = downloadLog calm_boot /\
    @process_reports demo_calm 1 [{| id := "1001" |}; {| id := "2002" |}] ∅ 0 calm_boot
    = @process_reports demo_calm 1 [{| id := "2002" |}] ∅ 0 s1.
Proof.
  destruct (@processReport_without_url demo_calm 1 {| id := "1001" |}
              [{| id := "2002" |}] ∅ 0 calm_boot _ _ eq_refl eq_refl)
    as (Hp & Hf & Hl & _ & _ & Hnext).
  eexists. split; [exact Hp|]. split; [exact Hf|]. split; [exact Hl|].
  apply Hnext. apply not_elem_of_empty.
Defined.



(** ** Sweep *)

Lemma calm_env_steady (listing : Z -> Body) (detail : string -> Body)
    (artifact : string -> Content) :
  @steady (calm_env listing detail artifact) listing detail.
Proof.
  split.
  - intros a w. by eexists _, _.
  - intros c w. by eexists.
Qed.

Lemma demo_calm_paged : @paged demo_calm (fun j => j) 3.
Proof.
  split; [|split].
  - intros a w. by eexists _, _.
  - intros c w. eexists _, _. split; [reflexivity|].
    intros df sz n Hc. cbn. rewrite Hc. cbn. split; [by eexists|]. done.
  - intros u w. by eexists _, _.
Qed.

Lemma demo_calm_steady : @steady demo_calm demo_listing demo_detail.
Proof. apply calm_env_steady. Qed.

Lemma demo_listing_ids (j : Z) (rs : list Report) (r : Report) :
  data (demo_listing j) = DataArray rs -> r ∈ rs -> demo_id (id r).
Proof.
  unfold demo_listing, listing_of, demo_id. cbn.
  destruct (j =? 1); [|destruct (j =? 2)]; intros [= <-] Hr.
  - apply elem_of_cons in Hr as [->|Hr]; [by left|].
    apply list_elem_of_singleton in Hr as ->. right. by left.
  - apply list_elem_of_singleton in Hr as ->. right. right. by left.
  - apply list_elem_of_singleton in Hr as ->. right. right. by right.
Qed.


(** C1: the run at the failing input.  The ledger file records report
    2002, whose final file has been deleted; the remote still lists the
    report and serves its file.  The run completes, downloads the two
    reports it did not know, sends no request for 2002 and leaves its
    final file missing.  [processReport], had it been called on the
    loaded ledger, would have downloaded the file. *)
Theorem deleted_file_is_not_restored :
  is_Some (ledger_2002 !! "2002") /\
  files boot_2002_deleted !! report_filename "2002" = None /\
  (exists (s' : @St demo_calm),
     @main demo_calm 3 1 boot_2002_deleted = Some (Ok (Completed 2), s') /\
     files s' !! report_filename "2002" = None /\
     stored_entry (logFile s') "2002" = ledger_2002 !! "2002" /\
     Forall (fun e => ~ concerns "2002" e) (trace s')) /\
  (exists (s' : @St demo_calm),
     @processReport demo_calm 1 {| id := "2002" |}
       (set_downloadLog ledger_2002 boot_2002_deleted) = Some (Ok true, s') /\
     files s' !! report_filename "2002"
     = Some (demo_artifact "https://files.example/2002")).
Proof.
  split; [by eexists|]. split; [reflexivity|]. split.
  - assert (Hrun : exists s' : @St demo_calm,
              @main demo_calm 3 1 boot_2002_deleted = Some (Ok (Completed 2), s') /\
              files s' !! report_filename "2002" = None).
    { eexists. split; vm_compute; reflexivity. }
    destruct Hrun as (s' & Hrun & Hgone). exists s'. split; [exact Hrun|].
    destruct (@main_skips_ledger_ids demo_calm 3 1 boot_2002_deleted s' ledger_2002
                "2002" _ eq_refl ltac:(by eexists) Hrun) as (Hst & Hg).
    split; [exact Hgone|]. split; [exact Hst|]. by apply grows_by_nil.
  - eexists. split; [vm_compute; reflexivity|]. reflexivity.
Qed.

Lemma pagination_walk_witness :
  exists (n : Z) (s' : @St demo_calm),
    @main demo_calm 3 1 calm_boot = Some (Ok (Completed n), s') /\
    page_requests (trace s') = [1; 2; 3].
Proof.
  destruct (@pagination_walk demo_calm (fun j => j) 3 3 3 0 calm_boot demo_calm_paged
              ltac:(lia) ltac:(lia) ltac:(intros; lia) ltac:(lia) ltac:(discriminate))
    as (n & s' & Hrun & _ & Hthree).
  exists n, s'. split; [exact Hrun|]. exact (Hthree (fun _ => eq_refl) eq_refl).
Defined.

(** C3 as stated fails in two ways, with [total_pages] = 3 on every page.
    When the first listing request is answered with a rate-limit error,
    it is sent again: four page requests are issued, for the pages 1, 1,
    2 and 3.  And when the remote numbers its pages from 0, the reported
    page number never reaches 3: after the requests for the pages 1 to 4
    the walker is at the head of the turn for page 5. *)
Lemma walk_repeats_a_page :
  (forall n, total_pages (demo_listing n) = Some 3) /\
  (exists (s' : @St demo_env),
     @main demo_env 3 2 (demo_boot [Some (rate_error "retry in 1 seconds")])
     = Some (Ok (Completed 3), s') /\
     page_requests (trace s') = [1; 1; 2; 3]) /\
  (forall n, total_pages (zero_based_listing n) = Some 3) /\
  (exists (s0 : @St zero_based) (ids : gset string) (n : Z) (s' : @St zero_based),
     @getValidToken zero_based (@boot zero_based ∅ LogMissing 1700000000000)
     = Some (Ok (Some "bearer-1"), s0) /\
     @turns_to zero_based 1 "2024-01-01" (1, ∅, 0, loaded ∅ s0) (5, ids, n, s') /\
     page_requests (trace s') = [1; 2; 3; 4]).
Proof.
  split; [reflexivity|]. split.
  { eexists. split; vm_compute; reflexivity. }
  split; [reflexivity|].
  eexists _, _, _, _. split; [vm_compute; reflexivity|]. split.
  - eapply turns_next; [vm_compute; reflexivity|].
    eapply turns_next; [vm_compute; reflexivity|].
    eapply turns_next; [vm_compute; reflexivity|].
    eapply turns_next; [vm_compute; reflexivity|].
    apply turns_here.
  - vm_compute. reflexivity.
Qed.




(** * Further properties *)

(** ** Texts *)

Lemma append_cons (x : ascii) (a b : string) : String x a +:+ b = String x (a +:+ b).
Proof. reflexivity. Qed.

Lemma append_nil (b : string) : "" +:+ b = b.
Proof. reflexivity. Qed.

Lemma toLowerCase_app (a b : string) :
  toLowerCase (a +:+ b) = toLowerCase a +:+ toLowerCase b.
Proof.
  induction a as [|c a IH]; [reflexivity|].
  rewrite append_cons. simpl. by rewrite IH, append_cons.
Qed.

Lemma startsWith_app (p r : string) : startsWith p (p +:+ r) = true.
Proof.
  induction p as [|c p IH]; simpl; [reflexivity|]. by rewrite Ascii.eqb_refl.
Qed.

(** A prefix of the lower-cased text is the lower-cased form of a prefix of
    the text. *)
Lemma lower_prefix (p s : string) :
  startsWith p (toLowerCase s) = true ->
  exists kw r, s = kw +:+ r /\ toLowerCase kw = p /\ drop_str (String.length p) s = r.
Proof.
  revert s. induction p as [|c p IH]; intros s; simpl.
  - intros _. by exists "", s.
  - destruct s as [|d s]; [done|]. simpl.
    destruct (Ascii.eqb c (lower_ascii d)) eqn:Hcd; [|done].
    apply Ascii.eqb_eq in Hcd as ->. intros H.
    destruct (IH s H) as (kw & r & Hs & Hkw & Hr). exists (String d kw), r.
    rewrite append_cons, <- Hs. simpl. by rewrite Hkw.
Qed.

Lemma span_digits_spec (s ds r : string) :
  span_digits s = (ds, r) -> s = ds +:+ r /\ all_digits ds = true.
Proof.
  revert ds r. induction s as [|c s IH]; intros ds r; simpl.
  - by intros [= <- <-].
  - destruct (is_digit c) eqn:Hc.
    + destruct (span_digits s) as [ds' r']. intros [= <- <-].
      destruct (IH _ _ eq_refl) as [-> Hd]. simpl. by rewrite Hc, Hd.
    + by intros [= <- <-].
Qed.

Lemma span_digits_app (ds r : string) :
  all_digits ds = true ->
  match r with String c _ => is_digit c = false | EmptyString => True end ->
  span_digits (ds +:+ r) = (ds, r).
Proof.
  intros Hd Hr. induction ds as [|c ds IH]; simpl.
  - destruct r as [|c r]; [reflexivity|]. simpl. by rewrite Hr.
  - simpl in Hd. apply andb_true_iff in Hd as [Hc Hd]. by rewrite Hc, IH.
Qed.

Lemma lower_ascii_space (c : ascii) : lower_ascii c = " "%char -> c = " "%char.
Proof.
  destruct c as [[] [] [] [] [] [] [] []]; vm_compute; intros H;
    first [reflexivity | discriminate H].
Qed.

Lemma retry_here_sound (s ds : string) :
  match_retry_here s = Some ds ->
  exists kw sec post,
    s = kw +:+ ds +:+ sec +:+ post /\
    toLowerCase kw = "retry in " /\ ds <> "" /\ all_digits ds = true /\
    toLowerCase sec = " second".
Proof.
  unfold match_retry_here.
  destruct (startsWith "retry in " (toLowerCase s)) eqn:Hkw; [|done].
  apply lower_prefix in Hkw as (kw & r & -> & Hkw & Hr). simpl String.length in Hr.
  rewrite Hr. destruct (span_digits r) as [d rest] eqn:Hspan.
  apply span_digits_spec in Hspan as [-> Hd].
  destruct d as [|c d]; [done|].
  destruct (startsWith " second" (toLowerCase rest)) eqn:Hsec; [|done].
  apply lower_prefix in Hsec as (sec & post & -> & Hsec & _).
  intros [= <-]. exists kw, sec, post. repeat split; try done.
Qed.

Lemma retry_here_complete (kw ds sec post : string) :
  toLowerCase kw = "retry in " -> ds <> "" -> all_digits ds = true ->
  toLowerCase sec = " second" ->
  match_retry_here (kw +:+ ds +:+ sec +:+ post) = Some ds.
Proof.
  intros Hkw Hne Hd Hsec. unfold match_retry_here.
  assert (Hlen : forall x, String.length (toLowerCase x) = String.length x).
  { induction x as [|c x IH]; simpl; [reflexivity | by rewrite IH]. }
  assert (Hdrop : forall x y, drop_str (String.length x) (x +:+ y) = y).
  { induction x as [|c x IH]; intros y; [reflexivity|]. rewrite append_cons. simpl. apply IH. }
  rewrite toLowerCase_app, Hkw, startsWith_app.
  replace 9%nat with (String.length kw) by (rewrite <- Hlen, Hkw; reflexivity).
  rewrite Hdrop.
  destruct sec as [|c sec]; [done|].
  assert (c = " "%char) as ->.
  { simpl in Hsec. injection Hsec as Hc _. by apply lower_ascii_space. }
  rewrite span_digits_app by done.
  destruct ds as [|d ds]; [done|].
  by rewrite toLowerCase_app, Hsec, startsWith_app.
Qed.

Lemma match_retry_sound (s ds : string) :
  match_retry s = Some ds -> retry_text s ds.
Proof.
  induction s as [|c s IH].
  - intros H. vm_compute in H. discriminate H.
  - simpl. destruct (match_retry_here (String c s)) eqn:H.
    + intros [= ->]. apply retry_here_sound in H as (kw & sec & post & Hs & Hrest).
      by exists "", kw, sec, post.
    + intros Hm. destruct (IH Hm) as (pre & kw & sec & post & -> & Hrest).
      by exists (String c pre), kw, sec, post.
Qed.

Lemma match_retry_unfold (s : string) :
  match_retry s =
    match match_retry_here s with
    | Some ds => Some ds
    | None => match s with
              | EmptyString => None
              | String _ s' => match_retry s'
              end
    end.
Proof. by destruct s. Qed.

Lemma match_retry_complete (s ds : string) :
  retry_text s ds -> is_Some (match_retry s).
Proof.
  intros (pre & kw & sec & post & -> & Hkw & Hne & Hd & Hsec).
  induction pre as [|c pre IH].
  - rewrite append_nil.
    assert (H := retry_here_complete kw ds sec post Hkw Hne Hd Hsec).
    rewrite match_retry_unfold, H. by eexists.
  - rewrite append_cons, match_retry_unfold.
    destruct (match_retry_here _); [by eexists|exact IH].
Qed.

(** What [match_retry] finds is a text of the pattern, and it finds
    nothing only when the description holds no such text anywhere. *)
Theorem match_retry_follows_pattern (s : string) :
  (forall ds, match_retry s = Some ds -> retry_text s ds) /\
  (match_retry s = None <-> forall ds, ~ retry_text s ds).
Proof.
  split; [intros ds; apply match_retry_sound|]. split.
  - intros Hnone ds Htext. apply match_retry_complete in Htext as [x Hx]. congruence.
  - intros Hno. destruct (match_retry s) as [ds|] eqn:Hm; [|reflexivity].
    exfalso. by apply (Hno ds), match_retry_sound.
Qed.

Lemma parseInt_acc_nonneg (ds : string) (acc : Z) :
  all_digits ds = true -> 0 <= acc -> 0 <= parseInt_acc acc ds.
Proof.
  revert acc. induction ds as [|c ds IH]; intros acc Hd Hacc; simpl; [exact Hacc|].
  simpl in Hd. apply andb_true_iff in Hd as [Hc Hd]. apply IH; [exact Hd|].
  unfold is_digit in Hc. apply andb_true_iff in Hc as [Hc _]. apply Nat.leb_le in Hc. lia.
Qed.

(** The wait is never negative, nor is the delay handed to the timer. *)
Theorem waitSeconds_nonneg (d : option ErrBody) :
  0 <= waitSeconds d /\ 0 <= waitSeconds d * 1000.
Proof.
  assert (H : 0 <= waitSeconds d); [|split; [exact H|lia]].
  unfold waitSeconds. destruct (match_retry _) as [ds|] eqn:Hm; [|lia].
  apply match_retry_sound in Hm as (_ & _ & _ & _ & _ & _ & _ & Hd & _).
  by apply parseInt_acc_nonneg.
Qed.

Section More.
Context `{E : Env}.

(** An error that [authRequest] throws is never one of the two it
    handles: it says neither that the token expired nor that the rate
    limit was hit, and it is the error of the last attempt. *)
Theorem authRequest_throws_only_other (fuel : nat) (req : Request) (s s' : St)
    (err : JsError) :
  authRequest fuel req s = Some (Throw err, s') ->
  isExpired (response_data err) = false /\
  isRateLimit (response_data err) = false /\
  exists s0, attempt req s0 = Some (Throw err, s').
Proof.
  revert s. induction fuel as [|fuel IH]; intros s; [done|].
  rewrite authRequest_step.
  destruct (attempt req s) as [[[b|e] s1]|] eqn:Ha; [done| |done].
  destruct (isExpired (response_data e)) eqn:Hx; [apply IH|].
  destruct (isRateLimit (response_data e)) eqn:Hr; [apply IH|].
  intros [= <- <-]. eauto.
Qed.

(** There is no cap on the retries: if every attempt for a request fails
    with an expired token or a rate limit, [authRequest] returns for no
    budget at all. *)
Theorem authRequest_retries_forever (req : Request) :
  (forall s, exists err s1,
     attempt req s = Some (Throw err, s1) /\
     isExpired (response_data err) || isRateLimit (response_data err) = true) ->
  forall fuel s, authRequest fuel req s = None.
Proof.
  intros Hfail fuel. induction fuel as [|fuel IH]; intros s; [reflexivity|].
  rewrite authRequest_step. destruct (Hfail s) as (err & s1 & -> & Hor).
  destruct (isExpired (response_data err)); [apply IH|].
  simpl in Hor. rewrite Hor. apply IH.
Qed.

(** The first [getValidToken] of [main] stands outside [authRequest]: if
    the token exchange fails, with whatever error, the run ends there with
    that error.  One exchange was tried; files, ledger file and token
    cache are as before. *)
Theorem main_token_failure (pages fuel : nat) (s : St) (err : JsError) (w : World) :
  needsRefresh s = true ->
  post_token (jwt_sign (now (world s))) (world s) = (Throw err, w) ->
  exists s',
    main pages fuel s = Some (Ok (Failed err), s') /\
    trace s' = EvToken (jwt_sign (now (world s))) :: trace s /\
    files s' = files s /\ logFile s' = logFile s /\
    cachedToken s' = cachedToken s /\ tokenExpiresAt s' = tokenExpiresAt s.
Proof.
  intros Hn Hp. eexists. rewrite main_run, sweep_run, getValidToken_run, Hn. cbn.
  rewrite Hp. split; [reflexivity|]. by repeat split.
Qed.

(** A ledger file that cannot be read ends the run right after the token
    was obtained: no request to the report API is made, and the file is
    not written over. *)
Theorem main_malformed_ledger (pages fuel : nat) (s s1 : St) (t : option string) :
  logFile s = LogMalformed ->
  getValidToken s = Some (Ok t, s1) ->
  main pages fuel s = Some (Ok (Failed malformed_log), s1) /\
  logFile s1 = LogMalformed /\
  files s1 = files s /\
  grows_by (fun e => exists a, e = EvToken a) (trace s) (trace s1).
Proof.
  intros Hlf Hg. pose proof Hg as Hg'.
  apply getValidToken_effect in Hg' as [(_ & Hf & Hlf1 & _) Hgrow].
  rewrite main_run, sweep_run, Hg, Hlf1, Hlf. by repeat split; try congruence.
Qed.

Lemma proto_ids_size (s : St) : (size (proto_ids s) <= 1)%nat.
Proof.
  unfold proto_ids. destruct (logProto s).
  - by rewrite size_singleton.
  - rewrite size_empty. lia.
Qed.

(** A run never drops or changes an entry of the ledger file: the file
    is left as it was or holds a ledger that contains the one the run
    started from.  When the run completes, the entries the ledger file
    has gained and the id the ledger object has recorded as its
    prototype, if any, are as many as the downloads the run reports. *)
Theorem ledger_only_grows (pages fuel : nat) (s s' : St) (out : Outcome) :
  main pages fuel s = Some (Ok out, s') ->
  (logFile s' = logFile s \/
   exists l', logFile s' = LogStored l' /\ ledger_of (logFile s) ⊆ l') /\
  forall n, out = Completed n ->
    exists l', logFile s' = LogStored l' /\
               ledger_of (logFile s) ⊆ l' /\
               Z.of_nat (size l') + Z.of_nat (size (proto_ids s'))
               = Z.of_nat (size (ledger_of (logFile s))) + n /\
               (size (proto_ids s') <= 1)%nat.
Proof.
  rewrite main_run, sweep_run.
  destruct (getValidToken s) as [[[t|e] s0]|] eqn:Hg; [| |done].
  2:{ apply getValidToken_effect in Hg as [(_ & _ & Hlf & _) _].
      intros [= <- <-]. split; [by left|done]. }
  apply getValidToken_effect in Hg as [(_ & _ & Hlf & _) _]. rewrite Hlf.
  assert (Hloop : forall l : gmap string Entry, l = ledger_of (logFile s) ->
    match main_loop pages fuel (date_from (now (world s0))) 1 (dom l) 0
            (loaded l s0) with
    | Some (Ok total, s') => Some (Ok (Completed total), s')
    | Some (Throw e, s') => Some (Ok (Failed e), s')
    | None => None
    end = Some (Ok out, s') ->
    (logFile s' = logFile s \/
     exists l', logFile s' = LogStored l' /\ ledger_of (logFile s) ⊆ l') /\
    forall n, out = Completed n ->
      exists l', logFile s' = LogStored l' /\
                 ledger_of (logFile s) ⊆ l' /\
                 Z.of_nat (size l') + Z.of_nat (size (proto_ids s'))
                 = Z.of_nat (size (ledger_of (logFile s))) + n /\
                 (size (proto_ids s') <= 1)%nat).
  { intros l Hl0.
    destruct (main_loop _ _ _ _ _ _ _) as [[[total|e] s2]|] eqn:Hm; [| |done].
    - apply main_loop_grows in Hm as (Hsub & Hlf2 & Hres); [|apply loaded_tracked].
      cbn in Hsub, Hlf2. destruct (Hres _ eq_refl) as [Hst Hsz].
      assert (Hz : size (proto_ids (loaded l s0)) = 0%nat)
        by (unfold proto_ids; cbn; apply size_empty).
      rewrite Hz in Hsz. cbn [loaded set_logProto set_downloadLog downloadLog] in Hsz.
      intros [= <- <-]. rewrite <- Hl0. split.
      + right. eauto.
      + intros n [= <-]. exists (downloadLog s2). split; [done|]. split; [done|].
        split; [lia|apply proto_ids_size].
    - apply main_loop_grows in Hm as (Hsub & Hlf2 & _); [|apply loaded_tracked].
      cbn in Hsub, Hlf2. intros [= <- <-]. rewrite <- Hl0. split; [|done].
      destruct Hlf2 as [-> | Hst]; [left; congruence | by right]. }
  destruct (logFile s) as [| |l] eqn:Hs.
  - by apply Hloop.
  - intros [= <- <-]. split; [left; congruence|done].
  - by apply Hloop.
Qed.

(** The final file changes only with a download that went through.  For
    a report whose temporary path is not its final path: after a call
    that returns true the temporary file is gone and the final file
    matches what the ledger object gives for the id; after any other
    outcome the final file and the ledger object are as before, and among
    the files at most the temporary one has changed. *)
Theorem processReport_atomic (fuel : nat) (r : Report) (s s' : St)
    (res : Result bool) :
  tempPath (id r) <> finalPath (id r) ->
  processReport fuel r s = Some (res, s') ->
  (res = Ok true ->
   files s' !! tempPath (id r) = None /\ recorded_unchanged s' (id r)) /\
  (res <> Ok true ->
   files s' !! finalPath (id r) = files s !! finalPath (id r) /\
   downloadLog s' = downloadLog s /\ logProto s' = logProto s /\
   forall p, p <> tempPath (id r) -> files s' !! p = files s !! p).
Proof.
  intros Hpaths Hrun. rewrite processReport_run in Hrun.
  destruct (getReportDetail fuel (id r) s) as [[[d|e] s1]|] eqn:Hd; [| |done].
  2:{ apply getReportDetail_effect in Hd as [(Hl & Hf & _ & Hp) _].
      injection Hrun as <- <-. rewrite Hl, Hf, Hp. done. }
  apply getReportDetail_effect in Hd as [(Hl & Hf & _ & Hp) _].
  assert (Hskip : Some (Ok false, s1) = Some (res, s') ->
    (res = Ok true ->
     files s' !! tempPath (id r) = None /\ recorded_unchanged s' (id r)) /\
    (res <> Ok true ->
     files s' !! finalPath (id r) = files s !! finalPath (id r) /\
     downloadLog s' = downloadLog s /\ logProto s' = logProto s /\
     forall p, p <> tempPath (id r) -> files s' !! p = files s !! p)).
  { intros [= <- <-]. rewrite Hl, Hf, Hp. done. }
  destruct (truthy_str (detail_url d)); [|by apply Hskip].
  destruct (up_to_date s1 (id r)); [by apply Hskip|].
  rewrite download_and_record_run in Hrun.
  destruct (get_stream _ _) as [[c|e|] w]; [| |done]; injection Hrun as <- <-.
  - split; [|done]. intros _.
    destruct (downloaded_state (id r) (or_empty (detail_url d)) c w s1)
      as (Hfin & _ & Htmp & Hself & _).
    split; [by apply Htmp|]. by exists (sha256_hex c), c.
  - split; [done|]. intros _. cbn. rewrite Hl, Hf, Hp. split; [|split; [done|split; [done|]]].
    + apply lookup_insert_ne. done.
    + intros p Hne. by apply lookup_insert_ne.
Qed.

(** The state in which a call that returned true leaves the report. *)
Lemma processReport_records (fuel : nat) (r : Report) (s s' : St) :
  processReport fuel r s = Some (Ok true, s') -> recorded_unchanged s' (id r).
Proof.
  intros H. apply processReport_effect in H as (_ & _ & _ & _ & _ & _ & Hnew).
  destruct (Hnew eq_refl) as (c & _ & Hc & Hh & _). by exists (sha256_hex c), c.
Qed.

(** Called again on a report it has just downloaded, [processReport]
    skips it when the detail has a url: it compares the final file with
    the ledger and does not ask the artifact host, whatever that would
    serve now. *)
Theorem processReport_then_skip (fuel : nat) (r : Report) (s s1 s2 : St) (d : Body) :
  processReport fuel r s = Some (Ok true, s1) ->
  getReportDetail fuel (id r) s1 = Some (Ok d, s2) ->
  truthy_str (detail_url d) = true ->
  processReport fuel r s1 = Some (Ok false, s2) /\
  files s2 = files s1 /\
  downloadLog s2 = downloadLog s1 /\
  grows_by (fun e => writes_file e = false) (trace s1) (trace s2).
Proof.
  intros Hfirst Hd Hu.
  apply processReport_records in Hfirst.
  assert (Hup : up_to_date s1 (id r) = true) by by apply up_to_date_spec.
  pose proof Hd as Hd'. apply authRequest_effect in Hd' as [Hdisk Hg].
  rewrite processReport_run, Hd, Hu, (up_to_date_same_disk s1 s2 _ Hdisk), Hup.
  destruct Hdisk as (Hl & Hf & _). repeat split; try done.
  eapply grows_by_mono; [|exact Hg]. by intros [a|c0|ms|u x|src dst|l].
Qed.

(** At the head of every turn of the loop [downloadedIds] is in step
    with the ledger object: it holds the keys of [downloadLog] and, once
    a report with the id "__proto__" has been recorded as the prototype,
    that id.  It only grows, and the page number does not go down. *)
Theorem downloadedIds_are_ledger_keys (fuel : nat) (df : string) (p p' : Z)
    (ids ids' : gset string) (n n' : Z) (s s' : St) :
  turns_to fuel df (p, ids, n, s) (p', ids', n', s') ->
  ids = dom (downloadLog s) ∪ proto_ids s ->
  ids' = dom (downloadLog s') ∪ proto_ids s' /\ ids ⊆ ids' /\ p <= p'.
Proof.
  intros Hto. remember (p, ids, n, s) as x eqn:Hx. remember (p', ids', n', s') as y eqn:Hy.
  revert p ids n s Hx. induction Hto as [x|q i m t q' i' m' t1 y Ht Hrest IH];
    intros p ids n s Hx Hids.
  - assert ((p, ids, n, s) = (p', ids', n', s')) as [= -> -> -> ->] by congruence.
    split; [done|]. split; [done|lia].
  - injection Hx as -> -> -> ->.
    apply page_turn_effect in Ht as [_ (_ & _ & Hp & Hsub & Hdom)].
    destruct (IH Hy _ _ _ _ eq_refl (Hdom Hids)) as (Hd & Hs & Hle).
    split; [exact Hd|]. split; [by etrans|lia].
Qed.

(** When the reported page number stays below [total_pages] on every page
    from [p] on, the loop started at page [p] does not end, however many
    turns it is given. *)
Theorem main_loop_never_stops (pn : Z -> Z) (total : Z) (pages fuel : nat)
    (df : string) (p : Z) (ids : gset string) (n : Z) (s : St) :
  paged pn total ->
  (forall j, p <= j -> pn j < total) ->
  main_loop pages (S fuel) df p ids n s = None.
Proof.
  intros Hpaged. revert p ids n s.
  induction pages as [|pages IH]; intros p ids n s Hlow; [reflexivity|].
  rewrite main_loop_step.
  destruct (page_turn_paged pn total Hpaged fuel df p ids n s) as (ids' & n' & s1 & -> & _).
  destruct (Z.leb_spec total (pn p)) as [Hstop|_].
  - specialize (Hlow p ltac:(lia)). lia.
  - apply IH. intros j Hj. apply Hlow. lia.
Qed.

(** A token that [getValidToken] returned is returned again, with no
    exchange and no change of state, by any later call made while the
    cache is untouched and the clock is before the cached expiry. *)
Theorem token_reused_within_ttl (s s1 s2 : St) (t : option string) :
  getValidToken s = Some (Ok t, s1) ->
  truthy_str t = true ->
  0 <= now (world s1) ->
  cachedToken s2 = cachedToken s1 ->
  tokenExpiresAt s2 = tokenExpiresAt s1 ->
  (forall e, tokenExpiresAt s1 = Some e -> now (world s2) < e) ->
  getValidToken s2 = Some (Ok t, s2).
Proof.
  intros Hrun Ht Hpos Hc He Hnow.
  rewrite getValidToken_run in Hrun.
  assert (Hfacts : cachedToken s1 = t /\ truthy_num (tokenExpiresAt s1) = true).
  { destruct (needsRefresh s) eqn:Hn; cbn in Hrun.
    - destruct (post_token _ _) as [[t0|e] w]; [|done]. injection Hrun as <- <-.
      cbn in Hpos. cbn. split; [done|].
      apply negb_true_iff, Z.eqb_neq. unfold TOKEN_TTL_MS. lia.
    - injection Hrun as <- <-. unfold needsRefresh in Hn.
      apply orb_false_iff in Hn as [Hn Hge]. apply orb_false_iff in Hn as [_ Hx].
      apply negb_false_iff in Hx. done. }
  destruct Hfacts as (Hc1 & Hnum).
  rewrite getValidToken_run.
  assert (Hn2 : needsRefresh s2 = false).
  { unfold needsRefresh. rewrite Hc, He, Hc1, Ht, Hnum. cbn.
    destruct (tokenExpiresAt s1) as [e|]; [|done]. cbn.
    specialize (Hnow e eq_refl). apply Z.leb_gt. lia. }
  rewrite Hn2, Hc, Hc1. reflexivity.
Qed.

Lemma downloads_of_cons (rid : string) (e : Event) (t : list Event) :
  downloads_of rid (e :: t)
  = ((if is_download_of rid e then 1 else 0) + downloads_of rid t)%nat.
Proof.
  unfold downloads_of. rewrite filter_cons.
  destruct (is_download_of rid e); by case_decide.
Qed.

Lemma downloads_of_quiet (rid : string) (t t' : list Event) :
  grows_by (fun e => is_download_of rid e = false) t t' ->
  downloads_of rid t' = downloads_of rid t.
Proof.
  intros (evs & -> & H). induction H as [|e evs He _ IH]; [reflexivity|].
  cbn [app]. by rewrite downloads_of_cons, He, IH.
Qed.

Lemma not_concerns_quiet (rid : string) (e : Event) :
  ~ concerns rid e -> is_download_of rid e = false.
Proof.
  destruct e as [a|c|ms|u d|src dst|l]; cbn; try done.
  intros H. apply not_true_is_false. intros Heq. apply H. by apply String.eqb_eq.
Qed.

Lemma of_request_quiet (rid : string) (req : Request) (e : Event) :
  of_request req e -> is_download_of rid e = false.
Proof. by destruct e. Qed.

Lemma processReport_downloads (fuel : nat) (r : Report) (s s' : St)
    (res : Result bool) (rid : string) :
  processReport fuel r s = Some (res, s') ->
  (id r <> rid -> downloads_of rid (trace s') = downloads_of rid (trace s)) /\
  (res = Ok false -> downloads_of rid (trace s') = downloads_of rid (trace s)) /\
  (downloads_of rid (trace s') <= downloads_of rid (trace s) + 1)%nat.
Proof.
  intros Hrun. split.
  { intros Hne. apply processReport_effect in Hrun as (_ & Hg & _).
    apply downloads_of_quiet. eapply grows_by_mono; [|exact Hg].
    intros e He. by eapply not_concerns_quiet, of_report_other. }
  rewrite processReport_run in Hrun.
  destruct (getReportDetail fuel (id r) s) as [[[d|e] s1]|] eqn:Hd; [| |done].
  2:{ apply authRequest_effect in Hd as [_ Hg]. injection Hrun as <- <-.
      assert (Heq : downloads_of rid (trace s1) = downloads_of rid (trace s)).
      { apply downloads_of_quiet. eapply grows_by_mono; [|exact Hg].
        intros e0. apply of_request_quiet. }
      split; [done|lia]. }
  apply authRequest_effect in Hd as [_ Hg].
  assert (Heq : downloads_of rid (trace s1) = downloads_of rid (trace s)).
  { apply downloads_of_quiet. eapply grows_by_mono; [|exact Hg].
    intros e0. apply of_request_quiet. }
  assert (Hskip : Some (Ok false, s1) = Some (res, s') ->
    (res = Ok false -> downloads_of rid (trace s') = downloads_of rid (trace s)) /\
    (downloads_of rid (trace s') <= downloads_of rid (trace s) + 1)%nat).
  { intros [= <- <-]. split; [done|lia]. }
  destruct (truthy_str (detail_url d)); [|by apply Hskip].
  destruct (up_to_date s1 (id r)); [by apply Hskip|].
  rewrite download_and_record_run in Hrun.
  destruct (get_stream _ _) as [[c|e|] w]; [| |done]; injection Hrun as <- <-;
    (split; [done|]).
  - destruct (downloaded_state (id r) (or_empty (detail_url d)) c w s1)
      as (_ & _ & _ & _ & _ & _ & ->).
    rewrite !downloads_of_cons, Heq. cbn [is_download_of]. destruct (String.eqb _ _); lia.
  - cbn [download_failed trace set_world set_files emit].
    rewrite !downloads_of_cons, Heq. cbn [is_download_of]. destruct (String.eqb _ _); lia.
Qed.

Lemma process_reports_downloads (fuel : nat) (rs : list Report) (ids : gset string)
    (n : Z) (s s' : St) (res : Result (gset string * Z)) (rid : string) :
  process_reports fuel rs ids n s = Some (res, s') ->
  (rid ∈ ids -> downloads_of rid (trace s') = downloads_of rid (trace s)) /\
  (downloads_of rid (trace s') <= downloads_of rid (trace s) + 1)%nat /\
  (forall ids' n', res = Ok (ids', n') ->
     downloads_of rid (trace s') = (downloads_of rid (trace s) + 1)%nat -> rid ∈ ids').
Proof.
  intros Hrun. split.
  { intros Hin. apply process_reports_effect in Hrun as (_ & _ & Hprot & _).
    destruct (Hprot rid Hin) as (_ & _ & Hg). apply downloads_of_quiet.
    eapply grows_by_mono; [|exact Hg]. apply not_concerns_quiet. }
  revert ids n s Hrun. induction rs as [|r rs IH]; intros ids n s.
  { cbn. intros [= <- <-]. split; [lia|]. intros ids' n' _ H. lia. }
  rewrite process_reports_cons. destruct (decide (id r ∈ ids)) as [Hin|Hin]; [apply IH|].
  destruct (processReport fuel r s) as [[[[|]|e] s1]|] eqn:Hp; [| | |done].
  - apply (processReport_downloads _ _ _ _ _ rid) in Hp as (Hother & _ & Hone).
    intros Hrun. destruct (decide (id r = rid)) as [Heq|Hne].
    + pose proof Hrun as Hrun'.
      apply process_reports_effect in Hrun' as (_ & _ & Hprot & Hres).
      destruct (Hprot rid) as (_ & _ & Hg).
      { apply elem_of_union_l, elem_of_singleton. done. }
      assert (Hsame : downloads_of rid (trace s') = downloads_of rid (trace s1)).
      { apply downloads_of_quiet. eapply grows_by_mono; [|exact Hg].
        apply not_concerns_quiet. }
      split; [lia|]. intros ids' n' Hok _. destruct (Hres _ _ Hok) as [Hsub _].
      apply Hsub, elem_of_union_l, elem_of_singleton. done.
    + rewrite <- (Hother Hne). by apply IH in Hrun.
  - apply (processReport_downloads _ _ _ _ _ rid) in Hp as (_ & Hfalse & _).
    rewrite <- (Hfalse eq_refl). apply IH.
  - apply (processReport_downloads _ _ _ _ _ rid) in Hp as (_ & _ & Hone).
    intros [= <- <-]. done.
Qed.

Lemma main_loop_downloads (pages fuel : nat) (df : string) (p : Z) (ids : gset string)
    (n : Z) (s s' : St) (res : Result Z) (rid : string) :
  main_loop pages fuel df p ids n s = Some (res, s') ->
  (downloads_of rid (trace s') <= downloads_of rid (trace s) + 1)%nat.
Proof.
  revert p ids n s. induction pages as [|pages IH]; intros p ids n s; [done|].
  rewrite main_loop_step, page_turn_run.
  destruct (fetchReportPage fuel df p s) as [[[page|e] s0]|] eqn:Hf; [| |done].
  2:{ apply fetchReportPage_effect in Hf as [_ Hg]. intros [= <- <-].
      rewrite (downloads_of_quiet rid (trace s) (trace s0)); [lia|].
      eapply grows_by_mono; [|exact Hg]. intros e0. apply of_request_quiet. }
  apply fetchReportPage_effect in Hf as [_ Hg].
  assert (H0 : downloads_of rid (trace s0) = downloads_of rid (trace s)).
  { apply downloads_of_quiet. eapply grows_by_mono; [|exact Hg].
    intros e0. apply of_request_quiet. }
  destruct (process_reports _ _ _ _ _) as [[[[ids1 n1]|e] s1]|] eqn:Hp; [| |done].
  2:{ apply (process_reports_downloads _ _ _ _ _ _ _ rid) in Hp as (_ & Hone & _).
      intros [= <- <-]. lia. }
  apply (process_reports_downloads _ _ _ _ _ _ _ rid) in Hp as (_ & Hone & Hin).
  specialize (Hin _ _ eq_refl).
  assert (Hfl : downloads_of rid (trace (flushed s1)) = downloads_of rid (trace s1)).
  { unfold flushed. cbn [trace set_logFile emit]. by rewrite downloads_of_cons. }
  destruct (js_ge _ _).
  - intros [= <- <-]. lia.
  - intros Hrun.
    destruct (decide (downloads_of rid (trace s1) = (downloads_of rid (trace s0) + 1)%nat))
      as [Hmore|Hsame].
    + apply (main_loop_protects _ _ _ _ _ _ _ _ _ rid) in Hrun as (_ & _ & Hg2 & _);
        [|by apply Hin].
      rewrite (downloads_of_quiet rid (trace (flushed s1)) (trace s')); [lia|].
      eapply grows_by_mono; [|exact Hg2]. apply not_concerns_quiet.
    + apply IH in Hrun. lia.
Qed.

(** In one run there is at most one transfer per report id, also when
    the listing shows the id more than once. *)
Theorem at_most_one_download (pages fuel : nat) (s s' : St) (res : Result Outcome)
    (rid : string) :
  main pages fuel s = Some (res, s') ->
  (downloads_of rid (trace s') <= downloads_of rid (trace s) + 1)%nat.
Proof.
  rewrite main_run, sweep_run.
  destruct (getValidToken s) as [[[t|e] s0]|] eqn:Hg; [| |done].
  all: apply getValidToken_effect in Hg as [(_ & _ & Hlf & _) Hgrow].
  all: assert (H0 : downloads_of rid (trace s0) = downloads_of rid (trace s))
         by (apply downloads_of_quiet; eapply grows_by_mono; [|exact Hgrow];
             by intros e0 [a ->]).
  2:{ intros [= <- <-]. lia. }
  destruct (logFile s0).
  - destruct (main_loop _ _ _ _ _ _ _) as [[[total|e] s2]|] eqn:Hm; [| |done].
    all: apply (main_loop_downloads _ _ _ _ _ _ _ _ _ rid) in Hm;
      cbn [trace loaded set_logProto set_downloadLog] in Hm.
    all: intros [= <- <-]; lia.
  - intros [= <- <-]. lia.
  - destruct (main_loop _ _ _ _ _ _ _) as [[[total|e] s2]|] eqn:Hm; [| |done].
    all: apply (main_loop_downloads _ _ _ _ _ _ _ _ _ rid) in Hm;
      cbn [trace loaded set_logProto set_downloadLog] in Hm.
    all: intros [= <- <-]; lia.
Qed.

Lemma of_report_listing (df rid : string) (e : Event) :
  of_report rid e -> listing_request_of df e.
Proof. destruct e as [a|c|ms|u d|src dst|l]; cbn; try done. by intros ->. Qed.

Lemma process_reports_listing (fuel : nat) (rs : list Report) (ids : gset string)
    (n : Z) (s s' : St) (res : Result (gset string * Z)) (df : string) :
  process_reports fuel rs ids n s = Some (res, s') ->
  grows_by (listing_request_of df) (trace s) (trace s').
Proof.
  revert ids n s. induction rs as [|r rs IH]; intros ids n s.
  { cbn. intros [= <- <-]. apply grows_by_refl. }
  rewrite process_reports_cons. destruct (decide (id r ∈ ids)); [apply IH|].
  destruct (processReport fuel r s) as [[[[|]|e] s1]|] eqn:Hp; [| | |done].
  all: apply processReport_effect in Hp as (_ & Hg & _).
  all: assert (Hg1 : grows_by (listing_request_of df) (trace s) (trace s1))
         by (eapply grows_by_mono; [|exact Hg]; apply of_report_listing).
  - intros H. apply IH in H. by eapply grows_by_trans.
  - intros H. apply IH in H. by eapply grows_by_trans.
  - by intros [= <- <-].
Qed.

Lemma main_loop_listing (pages fuel : nat) (df : string) (p : Z) (ids : gset string)
    (n : Z) (s s' : St) (res : Result Z) :
  main_loop pages fuel df p ids n s = Some (res, s') ->
  1 <= p ->
  grows_by (listing_request_of df) (trace s) (trace s').
Proof.
  revert p ids n s. induction pages as [|pages IH]; intros p ids n s; [done|].
  rewrite main_loop_step, page_turn_run. intros Hrun Hp.
  destruct (fetchReportPage fuel df p s) as [[[page|e] s0]|] eqn:Hf; [| |done].
  all: apply fetchReportPage_effect in Hf as [_ Hg].
  all: assert (Hg0 : grows_by (listing_request_of df) (trace s) (trace s0))
         by (eapply grows_by_mono; [|exact Hg];
             intros [a|c|ms|u d|src dst|l]; cbn; try done; by intros ->).
  2:{ by injection Hrun as <- <-. }
  destruct (process_reports _ _ _ _ _) as [[[[ids1 n1]|e] s1]|] eqn:Hpr; [| |done].
  all: apply (process_reports_listing _ _ _ _ _ _ _ df) in Hpr.
  2:{ injection Hrun as <- <-. by eapply grows_by_trans. }
  assert (Hg1 : grows_by (listing_request_of df) (trace s) (trace (flushed s1))).
  { unfold flushed. cbn [trace set_logFile emit]. apply grows_by_cons; [done|].
    by eapply grows_by_trans. }
  destruct (js_ge _ _).
  - by injection Hrun as <- <-.
  - apply IH in Hrun; [|lia]. by eapply grows_by_trans.
Qed.

(** All listing requests of a run carry the date filter computed once at
    its start, the page size 50 and a page number of at least 1. *)
Theorem listing_requests_uniform (pages fuel : nat) (s s0 s' : St)
    (t : option string) (res : Result Outcome) :
  getValidToken s = Some (Ok t, s0) ->
  main pages fuel s = Some (res, s') ->
  grows_by (listing_request_of (date_from (now (world s0)))) (trace s) (trace s').
Proof.
  intros Hg. rewrite main_run, sweep_run, Hg.
  apply getValidToken_effect in Hg as [_ Hgrow].
  assert (Hg0 : grows_by (listing_request_of (date_from (now (world s0))))
                  (trace s) (trace s0)).
  { eapply grows_by_mono; [|exact Hgrow]. by intros e [a ->]. }
  destruct (logFile s0).
  - destruct (main_loop _ _ _ _ _ _ _) as [[[total|e] s2]|] eqn:Hm; [| |done].
    all: apply main_loop_listing in Hm; [|lia].
    all: intros [= <- <-]; by eapply grows_by_trans.
  - by intros [= <- <-].
  - destruct (main_loop _ _ _ _ _ _ _) as [[[total|e] s2]|] eqn:Hm; [| |done].
    all: apply main_loop_listing in Hm; [|lia].
    all: intros [= <- <-]; by eapply grows_by_trans.
Qed.

(** The ids the ledger object has recorded, as a key or as its
    prototype, are those for which it gives an entry. *)
Lemma recorded_ids_spec (s : St) (rid : string) :
  rid ∈ dom (downloadLog s) ∪ proto_ids s <-> is_Some (ledger_hash s rid).
Proof.
  unfold proto_ids. destruct (downloadLog s !! rid) as [e|] eqn:He.
  - rewrite (ledger_hash_own s rid e He). split; [by eexists|].
    intros _. apply elem_of_union_l, elem_of_dom. by eexists.
  - rewrite (ledger_hash_missing s rid He).
    apply not_elem_of_dom in He.
    destruct (String.eqb rid "__proto__") eqn:Heq.
    + apply String.eqb_eq in Heq as ->. destruct (logProto s) as [e|]; cbn.
      * split; [by eexists|]. intros _. by apply elem_of_union_r, elem_of_singleton.
      * split; [|by intros [? ?]].
        intros [H|H]%elem_of_union; [done|by apply elem_of_empty in H].
    + apply String.eqb_neq in Heq. split; [|by intros [? ?]].
      intros [H|H]%elem_of_union; [done|]. destruct (logProto s).
      * by apply elem_of_singleton in H.
      * by apply elem_of_empty in H.
Qed.

Section Covered.
Variables (listing : Z -> Body) (detail : string -> Body).
Hypothesis Hsteady : steady listing detail.

Lemma main_loop_covers (pages fuel : nat) (df : string) (p : Z) (ids : gset string)
    (n total : Z) (s s' : St) :
  main_loop pages fuel df p ids n s = Some (Ok total, s') ->
  tracked ids s ->
  exists last,
    p <= last /\
    js_ge (page_number (listing last)) (total_pages (listing last)) = true /\
    (forall j, p <= j < last ->
       js_ge (page_number (listing j)) (total_pages (listing j)) = false) /\
    forall j, p <= j <= last ->
      exists rs, data (listing j) = DataArray rs /\
        forall r, r ∈ rs ->
          id r ∈ dom (downloadLog s') ∪ proto_ids s' \/
          truthy_str (detail_url (detail (id r))) = false.
Proof.
  revert p ids n s. induction pages as [|pages IH]; intros p ids n s; [done|].
  destruct fuel as [|fuel].
  { rewrite main_loop_step, page_turn_run. unfold fetchReportPage. unfold bind at 1.
    done. }
  rewrite main_loop_step, page_turn_run. unfold fetchReportPage at 1. unfold bind at 1.
  destruct (steady_request listing detail Hsteady fuel (GetReports df 50 p) s)
    as (s0 & -> & Hdisk0 & _).
  cbn [answer]. destruct (data (listing p)) as [rs| |] eqn:Hdata; [|done|done].
  unfold ret. cbn [reports pageNumber totalPages].
  destruct (process_reports (S fuel) rs ids n s0) as [[[[ids1 n1]|e] s1]|] eqn:Hp;
    [|done|done].
  intros Hrun Hids.
  assert (Hids0 : tracked ids s0).
  { destruct Hdisk0 as (? & _ & _ & ?). by apply (tracked_same ids s s0). }
  pose proof (process_reports_settles listing detail Hsteady _ _ _ _ _ _ _ _ Hp Hids0)
    as Hsettled.
  apply process_reports_grows in Hp as [_ Hres]; [|exact Hids0].
  destruct (Hres _ _ eq_refl) as [Hids1 _].
  destruct (js_ge (page_number (listing p)) (total_pages (listing p))) eqn:Hge.
  - injection Hrun as <- <-. exists p. split; [lia|]. split; [exact Hge|].
    split; [intros j Hj; lia|]. intros j Hj. assert (j = p) as -> by lia.
    exists rs. split; [exact Hdata|]. intros r Hr.
    destruct (Hsettled r Hr) as [Hin|Hno]; [left|by right].
    unfold tracked in Hids1. unfold proto_ids in *. cbn. by rewrite <- Hids1.
  - pose proof Hrun as Hrun'.
    apply IH in Hrun as (last & Hle & Hstop & Hbefore & Hall);
      [|by apply (tracked_same ids1 s1 (flushed s1))].
    exists last. split; [lia|]. split; [exact Hstop|]. split.
    + intros j Hj. destruct (decide (j = p)) as [->|Hne]; [exact Hge|].
      apply Hbefore. lia.
    + intros j Hj. destruct (decide (j = p)) as [->|Hne]; [|apply Hall; lia].
      exists rs. split; [exact Hdata|]. intros r Hr.
      destruct (Hsettled r Hr) as [Hin|Hno]; [left|by right].
      apply (main_loop_protects _ _ _ _ _ _ _ _ _ (id r)) in Hrun' as (_ & Hh & _);
        [|exact Hin].
      apply recorded_ids_spec. rewrite Hh.
      rewrite (ledger_hash_same s1 (flushed s1)) by done.
      apply recorded_ids_spec. unfold tracked in Hids1. by rewrite <- Hids1.
Qed.

End Covered.

(** When a run completes against a remote that answers every request the
    same way at any time, it has walked the pages 1 to the first one whose
    page number reaches [total_pages], and every report listed on them
    either has no url or is recorded in the ledger object: as a key,
    which is then in the ledger file, or, for the id "__proto__", as the
    prototype. *)
Theorem completed_run_covers_listing (listing : Z -> Body) (detail : string -> Body)
    (pages fuel : nat) (s s' : St) (n : Z) :
  steady listing detail ->
  main pages fuel s = Some (Ok (Completed n), s') ->
  logFile s' = LogStored (downloadLog s') /\
  exists last,
    1 <= last /\
    js_ge (page_number (listing last)) (total_pages (listing last)) = true /\
    (forall j, 1 <= j < last ->
       js_ge (page_number (listing j)) (total_pages (listing j)) = false) /\
    forall j, 1 <= j <= last ->
      exists rs, data (listing j) = DataArray rs /\
        forall r, r ∈ rs ->
          id r ∈ dom (downloadLog s') ∪ proto_ids s' \/
          truthy_str (detail_url (detail (id r))) = false.
Proof.
  intros Hst. rewrite main_run, sweep_run.
  destruct (getValidToken s) as [[[t|e] s0]|]; [|done|done].
  assert (Hloop : forall (l : gmap string Entry) total s2,
    main_loop pages fuel (date_from (now (world s0))) 1 (dom l) 0 (loaded l s0)
    = Some (Ok total, s2) ->
    logFile s2 = LogStored (downloadLog s2) /\
    exists last,
      1 <= last /\
      js_ge (page_number (listing last)) (total_pages (listing last)) = true /\
      (forall j, 1 <= j < last ->
         js_ge (page_number (listing j)) (total_pages (listing j)) = false) /\
      forall j, 1 <= j <= last ->
        exists rs, data (listing j) = DataArray rs /\
          forall r, r ∈ rs ->
            id r ∈ dom (downloadLog s2) ∪ proto_ids s2 \/
            truthy_str (detail_url (detail (id r))) = false).
  { intros l total s2 Hm. split.
    - apply main_loop_grows in Hm as (_ & _ & Hres); [|apply loaded_tracked].
      by destruct (Hres _ eq_refl).
    - apply (main_loop_covers listing detail Hst) in Hm; [exact Hm|apply loaded_tracked]. }
  destruct (logFile s0).
  - destruct (main_loop _ _ _ _ _ _ _) as [[[total|e] s2]|] eqn:Hm; [|done|done].
    intros [= _ <-]. by eapply Hloop.
  - done.
  - destruct (main_loop _ _ _ _ _ _ _) as [[[total|e] s2]|] eqn:Hm; [|done|done].
    intros [= _ <-]. by eapply Hloop.
Qed.

Section Backed.
Variable P : string -> Prop.
Hypothesis Hseparate : separate_paths P.

Lemma recorded_unchanged_transfer (s s' : St) (rid : string) :
  files s' !! finalPath rid = files s !! finalPath rid ->
  ledger_hash s' rid = ledger_hash s rid ->
  recorded_unchanged s rid -> recorded_unchanged s' rid.
Proof.
  intros Hf Hl (h & c & He & Hc & Hh). exists h, c. by rewrite Hf, Hl.
Qed.

Lemma process_reports_backed (fuel : nat) (rs : list Report) (ids : gset string)
    (n : Z) (s s' : St) (res : Result (gset string * Z)) :
  (forall r, r ∈ rs -> P (id r)) ->
  process_reports fuel rs ids n s = Some (res, s') ->
  tracked ids s ->
  forall rid, rid ∈ dom (downloadLog s') ∪ proto_ids s' -> rid ∉ ids ->
              recorded_unchanged s' rid /\ P rid.
Proof.
  revert ids n s. induction rs as [|r rs IH]; intros ids n s HP.
  { cbn. intros [= <- <-] Ht rid Hin Hnot. unfold tracked in Ht. by rewrite Ht in Hnot. }
  assert (HPr : P (id r)) by (apply HP; by apply elem_of_cons; left).
  assert (HPrs : forall r0, r0 ∈ rs -> P (id r0)).
  { intros r0 Hr0. apply HP. by apply elem_of_cons; right. }
  rewrite process_reports_cons. destruct (decide (id r ∈ ids)) as [Hin|Hin]; [by apply IH|].
  destruct (processReport fuel r s) as [[[[|]|e] s1]|] eqn:Hp; [| | |done].
  - pose proof (processReport_records _ _ _ _ Hp) as Hrec.
    intros Hrun Hids rid Hrid Hnot.
    destruct (processReport_tracked _ _ _ _ _ Hp Hids Hin) as (Hids1 & _).
    destruct (decide (rid = id r)) as [->|Hne].
    + split; [|exact HPr].
      pose proof Hrun as Hrun'.
      apply process_reports_effect in Hrun as (_ & _ & Hprot & _).
      destruct (Hprot (id r)) as (_ & Hh & _).
      { apply elem_of_union_l, elem_of_singleton. done. }
      eapply recorded_unchanged_transfer; [|exact Hh|exact Hrec].
      apply (process_reports_files _ _ _ _ _ _ _ _ Hrun').
      intros r0 Hr0 Hnot0.
      assert (Hne0 : id r0 <> id r).
      { intros Heq. apply Hnot0. rewrite Heq.
        apply elem_of_union_l, elem_of_singleton. done. }
      destruct (Hseparate (id r0) (id r) (HPrs r0 Hr0) HPr Hne0) as [H1 H2].
      split; intros Heq; [by apply H1|by apply H2].
    + eapply IH; [exact HPrs|exact Hrun|exact Hids1|exact Hrid|].
      intros [Heq|Hin']%elem_of_union; [|done]. by apply elem_of_singleton in Heq.
  - apply processReport_effect in Hp as (_ & _ & _ & _ & Hsame & _ & _).
    destruct (Hsame ltac:(discriminate)) as [Hs1 Hs2]. intros Hrun Hids.
    apply (IH _ _ _ HPrs Hrun). by apply (tracked_same ids s s1).
  - apply processReport_effect in Hp as (_ & _ & _ & _ & Hsame & _ & _).
    destruct (Hsame ltac:(discriminate)) as [Hs1 Hs2].
    intros [= <- <-] Hids rid Hrid Hnot. exfalso. apply Hnot.
    unfold tracked, proto_ids in *. by rewrite Hids, <- Hs1, <- Hs2.
Qed.

Hypothesis Hlisted : lists_only P.

Lemma main_loop_backed (pages fuel : nat) (df : string) (p : Z) (ids : gset string)
    (n : Z) (s s' : St) (res : Result Z) :
  main_loop pages fuel df p ids n s = Some (res, s') ->
  tracked ids s ->
  forall rid, rid ∈ dom (downloadLog s') ∪ proto_ids s' -> rid ∉ ids ->
              recorded_unchanged s' rid /\ P rid.
Proof.
  revert p ids n s. induction pages as [|pages IH]; intros p ids n s; [done|].
  rewrite main_loop_step, page_turn_run.
  destruct (fetchReportPage fuel df p s) as [[[page|e] s0]|] eqn:Hf; [| |done].
  2:{ apply fetchReportPage_effect in Hf as [(Hl & _ & _ & Hp) _].
      intros [= <- <-] Hids rid Hrid Hnot. exfalso. apply Hnot.
      unfold tracked, proto_ids in *. by rewrite Hids, <- Hl, <- Hp. }
  pose proof (fetchReportPage_listed P _ _ _ _ _ _ Hlisted Hf) as HPpage.
  apply fetchReportPage_effect in Hf as [(Hl & _ & _ & Hpr) _].
  destruct (process_reports _ _ _ _ _) as [[[[ids1 n1]|e] s1]|] eqn:Hp; [| |done].
  2:{ intros [= <- <-] Hids. apply (process_reports_backed _ _ _ _ _ _ _ HPpage Hp).
      by apply (tracked_same ids s s0). }
  intros Hrun Hids.
  assert (Hids0 : tracked ids s0) by by apply (tracked_same ids s s0).
  pose proof (process_reports_backed _ _ _ _ _ _ _ HPpage Hp Hids0) as Hback.
  apply process_reports_grows in Hp as [_ Hres]; [|exact Hids0].
  destruct (Hres _ _ eq_refl) as [Hids1 _].
  destruct (js_ge _ _).
  - injection Hrun as <- <-. exact Hback.
  - intros rid Hrid Hnot. destruct (decide (rid ∈ ids1)) as [Hin1|Hnot1].
    + destruct (Hback rid) as [Hrec HPrid]; [by rewrite <- Hids1|exact Hnot|].
      split; [|exact HPrid].
      pose proof Hrun as Hrun'.
      apply (main_loop_protects _ _ _ _ _ _ _ _ _ rid) in Hrun as (_ & Hh & _);
        [|exact Hin1].
      eapply recorded_unchanged_transfer; [|exact Hh|exact Hrec].
      apply (main_loop_files P _ _ _ _ _ _ _ _ _ _ Hlisted Hrun').
      intros a Ha Hnota.
      assert (Hne : a <> rid) by (intros ->; done).
      destruct (Hseparate a rid Ha HPrid Hne) as [H1 H2].
      split; intros Heq; [by apply H1|by apply H2].
    + eapply IH; [exact Hrun| |exact Hrid|exact Hnot1].
      by apply (tracked_same ids1 s1 (flushed s1)).
Qed.

End Backed.

(** Every id a run has recorded is backed by its file, when the reports
    the listing shows do not share files: at the end of a completed run,
    each id that is a key of the ledger (which is in the ledger file now)
    or its recorded prototype, and was not in the ledger the run started
    from, has its final file on disk, with the digest recorded for it. *)
Theorem new_entries_are_backed (P : string -> Prop) (pages fuel : nat) (s s' : St)
    (n : Z) :
  lists_only P ->
  separate_paths P ->
  main pages fuel s = Some (Ok (Completed n), s') ->
  logFile s' = LogStored (downloadLog s') /\
  forall rid, rid ∈ dom (downloadLog s') ∪ proto_ids s' ->
              rid ∉ dom (ledger_of (logFile s)) ->
              recorded_unchanged s' rid.
Proof.
  intros Hlisted Hsep. rewrite main_run, sweep_run.
  destruct (getValidToken s) as [[[t|e] s0]|] eqn:Hg; [|done|done].
  apply getValidToken_effect in Hg as [(_ & _ & Hlf & _) _]. rewrite Hlf.
  assert (Hloop : forall (l : gmap string Entry) total s2,
    main_loop pages fuel (date_from (now (world s0))) 1 (dom l) 0 (loaded l s0)
    = Some (Ok total, s2) ->
    logFile s2 = LogStored (downloadLog s2) /\
    forall rid, rid ∈ dom (downloadLog s2) ∪ proto_ids s2 -> rid ∉ dom l ->
                recorded_unchanged s2 rid).
  { intros l total s2 Hm. split.
    - apply main_loop_grows in Hm as (_ & _ & Hres); [|apply loaded_tracked].
      by destruct (Hres _ eq_refl).
    - intros rid Hrid Hnot.
      by destruct (main_loop_backed P Hsep Hlisted _ _ _ _ _ _ _ _ _ Hm
                     (loaded_tracked l s0) rid Hrid Hnot). }
  destruct (logFile s) as [| |l].
  - destruct (main_loop _ _ _ _ _ _ _) as [[[total|e] s2]|] eqn:Hm; [|done|done].
    intros [= _ <-]. by eapply Hloop.
  - done.
  - destruct (main_loop _ _ _ _ _ _ _) as [[[total|e] s2]|] eqn:Hm; [|done|done].
    intros [= _ <-]. by eapply Hloop.
Qed.

(** A run writes to the final and the temporary paths of reports the
    listing shows and to nothing else: a file at any other path is at the
    end what it was at the start. *)
Theorem run_touches_only_report_files (P : string -> Prop) (pages fuel : nat)
    (s s' : St) (res : Result Outcome) (path : string) :
  lists_only P ->
  main pages fuel s = Some (res, s') ->
  (forall rid, P rid -> path <> finalPath rid /\ path <> tempPath rid) ->
  files s' !! path = files s !! path.
Proof.
  intros Hlisted. rewrite main_run, sweep_run. intros Hrun Hpath.
  destruct (getValidToken s) as [[[t|e] s0]|] eqn:Hg; [| |done].
  all: apply getValidToken_effect in Hg as [(_ & Hf0 & _) _]; rewrite <- Hf0.
  2:{ by injection Hrun as <- <-. }
  destruct (logFile s0).
  - destruct (main_loop _ _ _ _ _ _ _) as [[[total|e] s2]|] eqn:Hm; [| |done].
    all: apply (main_loop_files P _ _ _ _ _ _ _ _ _ path Hlisted) in Hm;
      [|intros a Ha _; by apply Hpath].
    all: by injection Hrun as <- <-.
  - by injection Hrun as <- <-.
  - destruct (main_loop _ _ _ _ _ _ _) as [[[total|e] s2]|] eqn:Hm; [| |done].
    all: apply (main_loop_files P _ _ _ _ _ _ _ _ _ path Hlisted) in Hm;
      [|intros a Ha _; by apply Hpath].
    all: by injection Hrun as <- <-.
Qed.

End More.

(** ** The further properties at work *)

Lemma authRequest_throws_only_other_witness :
  exists (s' : @St demo_env),
    @authRequest demo_env 3 (GetReport "2002")
      (demo_boot [Some (rate_error "retry in 2 seconds"); Some server_error])
    = Some (Throw server_error, s') /\
    isExpired (response_data server_error) = false /\
    isRateLimit (response_data server_error) = false.
Proof.
  assert (Hrun : exists s' : @St demo_env,
            @authRequest demo_env 3 (GetReport "2002")
              (demo_boot [Some (rate_error "retry in 2 seconds"); Some server_error])
            = Some (Throw server_error, s')).
  { eexists. vm_compute. reflexivity. }
  destruct Hrun as [s' Hrun].
  destruct (@authRequest_throws_only_other demo_env _ _ _ _ _ Hrun) as (Hx & Hr & _).
  exists s'. split; [exact Hrun|]. split; [exact Hx|exact Hr].
Defined.

Lemma expired_forever_attempt (req : Request) (s : @St expired_forever) :
  exists err s1,
    @attempt expired_forever req s = Some (Throw err, s1) /\
    isExpired (response_data err) || isRateLimit (response_data err) = true.
Proof.
  rewrite attempt_run, getValidToken_run.
  destruct (needsRefresh s); cbn; eexists _, _; split; reflexivity.
Qed.

Lemma authRequest_retries_forever_witness :
  @authRequest expired_forever 40 (GetReport "2002")
    (@boot expired_forever ∅ LogMissing 1700000000000) = None.
Proof.
  apply (@authRequest_retries_forever expired_forever (GetReport "2002")
           (expired_forever_attempt (GetReport "2002"))).
Defined.

Lemma main_token_failure_witness :
  exists (s' : @St locked_out),
    @main locked_out 3 5 (@boot locked_out ∅ LogMissing 1700000000000)
    = Some (Ok (Failed (rate_error "retry in 5 seconds")), s') /\
    filter (fun e => is_sleep e = true) (trace s') = [] /\
    logFile s' = LogMissing.
Proof.
  destruct (@main_token_failure locked_out 3 5
              (@boot locked_out ∅ LogMissing 1700000000000)
              (rate_error "retry in 5 seconds") 1700000000000 eq_refl eq_refl)
    as (s' & Hrun & Htr & _ & Hlf & _).
  exists s'. split; [exact Hrun|]. split; [by rewrite Htr|exact Hlf].
Defined.

Lemma main_malformed_ledger_witness :
  exists (s1 : @St demo_calm),
    @main demo_calm 3 1 malformed_boot = Some (Ok (Failed malformed_log), s1) /\
    logFile s1 = LogMalformed /\
    page_requests (trace s1) = [].
Proof.
  assert (Hg : exists s1 : @St demo_calm,
            @getValidToken demo_calm malformed_boot = Some (Ok (Some "bearer-1"), s1) /\
            page_requests (trace s1) = []).
  { eexists. split; vm_compute; reflexivity. }
  destruct Hg as (s1 & Hg & Hreq).
  destruct (@main_malformed_ledger demo_calm 3 1 malformed_boot s1 _ eq_refl Hg)
    as (Hrun & Hlf & _).
  exists s1. split; [exact Hrun|]. split; [exact Hlf|exact Hreq].
Defined.

Lemma ledger_only_grows_witness :
  (exists (s' : @St demo_calm) (l' : gmap string Entry),
     @main demo_calm 3 1 boot_2002_deleted = Some (Ok (Completed 2), s') /\
     logFile s' = LogStored l' /\
     ledger_2002 ⊆ l' /\
     size l' = 3%nat) /\
  (exists (s' : @St proto_env) (l' : gmap string Entry),
     @main proto_env 3 1 proto_boot = Some (Ok (Completed 1), s') /\
     logFile s' = LogStored l' /\
     size l' = 0%nat).
Proof.
  split.
  - assert (Hrun : exists s' : @St demo_calm,
              @main demo_calm 3 1 boot_2002_deleted = Some (Ok (Completed 2), s') /\
              logProto s' = None).
    { eexists. split; vm_compute; reflexivity. }
    destruct Hrun as (s' & Hrun & Hproto).
    destruct (@ledger_only_grows demo_calm 3 1 boot_2002_deleted s' _ Hrun) as [_ Hdone].
    destruct (Hdone 2 eq_refl) as (l' & Hlf & Hsub & Hsz & _).
    exists s', l'. split; [exact Hrun|]. split; [exact Hlf|]. split; [exact Hsub|].
    change (ledger_of (logFile boot_2002_deleted)) with ledger_2002 in Hsz.
    assert (Hone : size ledger_2002 = 1%nat) by (unfold ledger_2002; apply map_size_singleton).
    unfold proto_ids in Hsz. rewrite Hone, Hproto, size_empty in Hsz. lia.
  - assert (Hrun : exists s' : @St proto_env,
              @main proto_env 3 1 proto_boot = Some (Ok (Completed 1), s') /\
              is_Some (logProto s')).
    { eexists. split; [vm_compute; reflexivity|]. vm_compute. by eexists. }
    destruct Hrun as (s' & Hrun & [e Hproto]).
    destruct (@ledger_only_grows proto_env 3 1 proto_boot s' _ Hrun) as [_ Hdone].
    destruct (Hdone 1 eq_refl) as (l' & Hlf & _ & Hsz & _).
    exists s', l'. split; [exact Hrun|]. split; [exact Hlf|].
    change (ledger_of (logFile proto_boot)) with (∅ : gmap string Entry) in Hsz.
    unfold proto_ids in Hsz. rewrite Hproto, size_singleton, map_size_empty in Hsz. lia.
Defined.

Lemma processReport_atomic_witness :
  (exists (s' : @St demo_calm),
     @processReport demo_calm 1 {| id := "2002" |} calm_boot = Some (Ok true, s') /\
     files s' !! @tempPath demo_calm "2002" = None /\
     recorded_unchanged s' "2002") /\
  (exists (s' : @St demo_calm),
     @processReport demo_calm 1 {| id := "1001" |} kept_2002 = Some (Ok false, s') /\
     files s' !! @finalPath demo_calm "1001" = files kept_2002 !! @finalPath demo_calm "1001" /\
     downloadLog s' = downloadLog kept_2002).
Proof.
  split.
  - assert (Hrun : exists s' : @St demo_calm,
              @processReport demo_calm 1 {| id := "2002" |} calm_boot = Some (Ok true, s')).
    { eexists. vm_compute. reflexivity. }
    destruct Hrun as [s' Hrun].
    destruct (@processReport_atomic demo_calm 1 {| id := "2002" |} calm_boot s' _
                ltac:(vm_compute; discriminate) Hrun)
      as [Hdone _].
    destruct (Hdone eq_refl) as [Ht Hrec].
    exists s'. split; [exact Hrun|]. split; [exact Ht|exact Hrec].
  - assert (Hrun : exists s' : @St demo_calm,
              @processReport demo_calm 1 {| id := "1001" |} kept_2002 = Some (Ok false, s')).
    { eexists. vm_compute. reflexivity. }
    destruct Hrun as [s' Hrun].
    destruct (@processReport_atomic demo_calm 1 {| id := "1001" |} kept_2002 s' _
                ltac:(vm_compute; discriminate) Hrun)
      as [_ Hkeep].
    destruct (Hkeep ltac:(discriminate)) as (Hf & Hl & _).
    exists s'. split; [exact Hrun|]. split; [exact Hf|exact Hl].
Defined.

Lemma processReport_then_skip_witness :
  exists (s1 s2 : @St demo_calm),
    @processReport demo_calm 1 {| id := "2002" |} calm_boot = Some (Ok true, s1) /\
    @processReport demo_calm 1 {| id := "2002" |} s1 = Some (Ok false, s2) /\
    files s2 = files s1.
Proof.
  assert (Hrun : exists s1 s2 : @St demo_calm,
            @processReport demo_calm 1 {| id := "2002" |} calm_boot = Some (Ok true, s1) /\
            @getReportDetail demo_calm 1 "2002" s1
            = Some (Ok (demo_detail "2002"), s2)).
  { eexists _, _. split; vm_compute; reflexivity. }
  destruct Hrun as (s1 & s2 & Hfirst & Hd).
  destruct (@processReport_then_skip demo_calm 1 {| id := "2002" |} calm_boot s1 s2 _
              Hfirst Hd eq_refl) as (Hskip & Hf & _).
  exists s1, s2. split; [exact Hfirst|]. split; [exact Hskip|exact Hf].
Defined.

Lemma downloadedIds_are_ledger_keys_witness :
  exists (ids' : gset string) (n' : Z) (s' : @St demo_calm),
    @turns_to demo_calm 1 "2024-01-01" (1, ∅, 0, calm_boot) (2, ids', n', s') /\
    ids' = dom (downloadLog s') ∪ proto_ids s' /\
    "2002" ∈ ids'.
Proof.
  assert (Hturn : exists (s' : @St demo_calm),
            @page_turn demo_calm 1 "2024-01-01" 1 ∅ 0 calm_boot
            = Some (Ok (inr (2, {["2002"]} ∪ ∅, 1)), s')).
  { eexists. vm_compute. reflexivity. }
  destruct Hturn as [s' Hturn].
  assert (Hto : @turns_to demo_calm 1 "2024-01-01" (1, ∅, 0, calm_boot)
                  (2, {["2002"]} ∪ ∅, 1, s')).
  { eapply turns_next; [exact Hturn|apply turns_here]. }
  assert (Hstart : (∅ : gset string) = dom (downloadLog calm_boot) ∪ proto_ids calm_boot).
  { unfold proto_ids. cbn. by rewrite dom_empty_L, union_empty_r_L. }
  destruct (@downloadedIds_are_ledger_keys demo_calm _ _ _ _ _ _ _ _ _ _ Hto Hstart)
    as (Hd & _ & _).
  eexists _, _, s'. split; [exact Hto|]. split; [exact Hd|].
  apply elem_of_union_l, elem_of_singleton. reflexivity.
Defined.

Lemma zero_based_paged : @paged zero_based (fun n => Z.min (n - 1) 2) 3.
Proof.
  split; [|split].
  - intros a w. by eexists _, _.
  - intros c w. eexists _, _. split; [reflexivity|].
    intros df sz n Hc. cbn. rewrite Hc. cbn. split; [by eexists|]. done.
  - intros u w. by eexists _, _.
Qed.

Lemma main_loop_never_stops_witness :
  @main_loop zero_based 30 1 "2024-01-01" 1 ∅ 0
    (@boot zero_based ∅ LogMissing 1700000000000) = None.
Proof.
  apply (@main_loop_never_stops zero_based (fun n => Z.min (n - 1) 2) 3 30 0
           "2024-01-01" 1 ∅ 0 _ zero_based_paged).
  intros j Hj. lia.
Defined.

Lemma token_reused_within_ttl_witness :
  exists (s1 : @St demo_calm),
    @getValidToken demo_calm calm_boot = Some (Ok (Some "bearer-1"), s1) /\
    @getValidToken demo_calm (@set_world demo_calm 1700000239999 s1)
    = Some (Ok (Some "bearer-1"), @set_world demo_calm 1700000239999 s1).
Proof.
  assert (Hg : exists s1 : @St demo_calm,
            @getValidToken demo_calm calm_boot = Some (Ok (Some "bearer-1"), s1) /\
            tokenExpiresAt s1 = Some (1700000000000 + 240000) /\
            @now demo_calm (world s1) = 1700000000000).
  { eexists. repeat split; vm_compute; reflexivity. }
  destruct Hg as (s1 & Hg & He & Hnow).
  exists s1. split; [exact Hg|].
  apply (@token_reused_within_ttl demo_calm calm_boot s1 _ _ Hg eq_refl).
  - rewrite Hnow. lia.
  - reflexivity.
  - reflexivity.
  - intros e. rewrite He. intros [= <-]. cbn. lia.
Defined.

Lemma at_most_one_download_witness :
  exists (s' : @St repeating),
    @main repeating 3 1 (@boot repeating ∅ LogMissing 1700000000000)
    = Some (Ok (Completed 1), s') /\
    (downloads_of "2002" (trace s') <= 1)%nat.
Proof.
  assert (Hrun : exists s' : @St repeating,
            @main repeating 3 1 (@boot repeating ∅ LogMissing 1700000000000)
            = Some (Ok (Completed 1), s')).
  { eexists. vm_compute. reflexivity. }
  destruct Hrun as [s' Hrun]. exists s'. split; [exact Hrun|].
  exact (@at_most_one_download repeating 3 1 _ s' _ "2002" Hrun).
Defined.

Lemma listing_requests_uniform_witness :
  exists (s' : @St demo_calm),
    @main demo_calm 3 1 calm_boot = Some (Ok (Completed 3), s') /\
    Forall (listing_request_of "2024-01-01") (trace s').
Proof.
  assert (Hrun : exists s0 s' : @St demo_calm,
            @getValidToken demo_calm calm_boot = Some (Ok (Some "bearer-1"), s0) /\
            @main demo_calm 3 1 calm_boot = Some (Ok (Completed 3), s')).
  { eexists _, _. split; vm_compute; reflexivity. }
  destruct Hrun as (s0 & s' & Hg & Hrun).
  exists s'. split; [exact Hrun|].
  apply grows_by_nil.
  exact (@listing_requests_uniform demo_calm 3 1 calm_boot s0 s' _ _ Hg Hrun).
Defined.

Lemma completed_run_covers_listing_witness :
  exists (s' : @St demo_calm) (last : Z),
    @main demo_calm 3 1 calm_boot = Some (Ok (Completed 3), s') /\
    1 <= last /\
    js_ge (page_number (demo_listing last)) (total_pages (demo_listing last)) = true /\
    logFile s' = LogStored (downloadLog s').
Proof.
  assert (Hrun : exists s' : @St demo_calm,
            @main demo_calm 3 1 calm_boot = Some (Ok (Completed 3), s')).
  { eexists. vm_compute. reflexivity. }
  destruct Hrun as [s' Hrun].
  destruct (@completed_run_covers_listing demo_calm demo_listing demo_detail 3 1
              calm_boot s' 3 demo_calm_steady Hrun)
    as (Hlf & last & Hle & Hstop & _).
  exists s', last. split; [exact Hrun|]. split; [exact Hle|]. split; [exact Hstop|exact Hlf].
Defined.

(** The demo remote lists the demo ids only, and their files are
    distinct. *)
Lemma demo_calm_lists : @lists_only demo_calm demo_id.
Proof.
  intros c w b w' rs Hax Hd r Hr. cbn in Hax. injection Hax as <- _.
  destruct (request c) as [df sz k|rid]; unfold answer in Hd.
  - exact (demo_listing_ids k rs r Hd Hr).
  - unfold demo_detail, detail_with in Hd.
    destruct (String.eqb rid "1001"); discriminate Hd.
Qed.

Lemma demo_calm_separate : @separate_paths demo_calm demo_id.
Proof.
  intros a b [-> | [-> | [-> | ->]]] [-> | [-> | [-> | ->]]] Hne;
    try done; split; vm_compute; discriminate.
Qed.

Lemma new_entries_are_backed_witness :
  exists (s' : @St demo_calm),
    @main demo_calm 3 1 boot_2002_deleted = Some (Ok (Completed 2), s') /\
    recorded_unchanged s' "3003".
Proof.
  assert (Hrun : exists s' : @St demo_calm,
            @main demo_calm 3 1 boot_2002_deleted = Some (Ok (Completed 2), s') /\
            is_Some (downloadLog s' !! "3003")).
  { eexists. split; [vm_compute; reflexivity|]. vm_compute. by eexists. }
  destruct Hrun as (s' & Hrun & Hin).
  destruct (@new_entries_are_backed demo_calm demo_id 3 1 boot_2002_deleted s' 2
              demo_calm_lists demo_calm_separate Hrun)
    as [_ Hback].
  exists s'. split; [exact Hrun|]. apply Hback.
  - by apply elem_of_union_l, elem_of_dom.
  - change (ledger_of (logFile boot_2002_deleted)) with ledger_2002.
    unfold ledger_2002. rewrite dom_singleton_L. intros H%elem_of_singleton.
    discriminate H.
Defined.

Lemma run_touches_only_report_files_witness :
  exists (s' : @St demo_calm),
    @main demo_calm 3 1 notes_boot = Some (Ok (Completed 3), s') /\
    files s' !! "notes.txt" = Some "keep".
Proof.
  assert (Hrun : exists s' : @St demo_calm,
            @main demo_calm 3 1 notes_boot = Some (Ok (Completed 3), s')).
  { eexists. vm_compute. reflexivity. }
  destruct Hrun as [s' Hrun]. exists s'. split; [exact Hrun|].
  etrans;
    [apply (@run_touches_only_report_files demo_calm demo_id 3 1 notes_boot s' _
              "notes.txt" demo_calm_lists Hrun)
    |reflexivity].
  intros rid [-> | [-> | [-> | ->]]]; split; vm_compute; discriminate.
Defined.
